(** * update-static-assets: the StaticAssetUpdater engine

    A shallow embedding of the class [StaticAssetUpdater] and of the records it works on, followed by the
    properties of the asset extractor, the version reconciler, the update
    applier and the change publisher.

    Conventions.
    - A JavaScript string is a sequence of UTF-16 code units; it is modelled
      by [string], every [ascii] standing for one code unit below 256.
    - [null] and [undefined] are [None]; a value tested for truthiness is
      tested with [truthy] (a string is truthy when it is not empty).
    - Code that talks to the outside (the file system, [git], the CDN
      clients, the pull-request service, the URL and DOM parsers) runs in the
      monad [M] over a [World]; what the outside answers is given by the
      variables of the section [Updater].
    - [core.info] and [core.debug] only print; they are left out. *)

From Stdlib Require Import ZArith String Ascii List Bool Lia.
From stdpp Require Import base option list strings gmap.

Import ListNotations.
Local Open Scope string_scope.
Local Open Scope list_scope.

(** ** JavaScript strings *)

Module JS.

(** [s === t] on strings. *)
Definition str_eqb (s t : string) : bool := bool_decide (s = t).

(** [if (s)] for a string that may be [null] or [undefined]. *)
Definition truthy (s : option string) : bool :=
  match s with
  | Some (String _ _) => true
  | _ => false
  end.

(** A template literal prints [undefined] for a missing value. *)
Definition show (s : option string) : string :=
  match s with
  | Some t => t
  | None => "undefined"
  end.

(** [s.split(sep)] for a separator of one code unit. *)
Fixpoint split (sep : ascii) (s : string) : list string :=
  match s with
  | EmptyString => [EmptyString]
  | String c rest =>
      if Ascii.eqb c sep then EmptyString :: split sep rest
      else match split sep rest with
           | piece :: pieces => String c piece :: pieces
           | [] => [String c EmptyString]
           end
  end.

(** [parts.join(sep)]. *)
Fixpoint join (sep : string) (parts : list string) : string :=
  match parts with
  | [] => EmptyString
  | [p] => p
  | p :: rest => p +:+ sep +:+ join sep rest
  end.

(** [s.slice(n)] for [n >= 0], on strings and on arrays. *)
Fixpoint slice (n : nat) (s : string) : string :=
  match n, s with
  | O, _ => s
  | S _, EmptyString => EmptyString
  | S m, String _ rest => slice m rest
  end.

Definition slice_array {A} (n : nat) (l : list A) : list A := skipn n l.

(** [s.startsWith(p)]. *)
Fixpoint startsWith (p s : string) : bool :=
  match p, s with
  | EmptyString, _ => true
  | String a p', String b s' => Ascii.eqb a b && startsWith p' s'
  | String _ _, EmptyString => false
  end.

(** [s.indexOf(p)] as the text before and after the first occurrence. *)
Fixpoint cut (p s : string) : option (string * string) :=
  if startsWith p s then Some (EmptyString, slice (String.length p) s)
  else match s with
       | EmptyString => None
       | String c rest =>
           match cut p rest with
           | Some (before, after) => Some (String c before, after)
           | None => None
           end
       end.

(** [s.includes(p)]. *)
Definition includes (s p : string) : bool :=
  match cut p s with Some _ => true | None => false end.

(** The replacement text of [String.prototype.replace] for a string
    pattern (GetSubstitution without captures): [$$] is a dollar sign,
    [$&] the match, [$`] the text before it and [$'] the text after it;
    any other dollar sign stands for itself. *)
Fixpoint substitution (matched before after template : string) : string :=
  match template with
  | EmptyString => EmptyString
  | String "$" (String "$" rest) =>
      String "$" (substitution matched before after rest)
  | String "$" (String "&" rest) =>
      matched +:+ substitution matched before after rest
  | String "$" (String "`" rest) =>
      before +:+ substitution matched before after rest
  | String "$" (String "'" rest) =>
      after +:+ substitution matched before after rest
  | String c rest => String c (substitution matched before after rest)
  end.

(** [s.replace(p, r)] for a string pattern: the first occurrence only. *)
Definition replace (s p r : string) : string :=
  match cut p s with
  | Some (before, after) => before +:+ substitution p before after r +:+ after
  | None => s
  end.

(** [s < t]: code units compared from the left; a proper prefix is
    smaller. *)
Fixpoint lt (s t : string) : bool :=
  match s, t with
  | _, EmptyString => false
  | EmptyString, String _ _ => true
  | String a s', String b t' =>
      if (nat_of_ascii a <? nat_of_ascii b)%nat then true
      else if (nat_of_ascii b <? nat_of_ascii a)%nat then false
      else lt s' t'
  end.

(** White space and line terminators among the code units below 256. *)
Definition isWhiteSpace (c : ascii) : bool :=
  let n := nat_of_ascii c in
  ((9 <=? n) && (n <=? 13) || (n =? 32) || (n =? 160))%nat.

Fixpoint trimStart (s : string) : string :=
  match s with
  | String c rest => if isWhiteSpace c then trimStart rest else s
  | EmptyString => EmptyString
  end.

(** [s.trimEnd()]. *)
Fixpoint trimEnd (s : string) : string :=
  match s with
  | EmptyString => EmptyString
  | String c rest =>
      match trimEnd rest with
      | EmptyString => if isWhiteSpace c then EmptyString else String c EmptyString
      | kept => String c kept
      end
  end.

(** *** Numbers

    The values [parseInt] can return: [NaN], an integer that is a double,
    or an infinity. *)
Inductive Number :=
| NaN
| Int (z : Z)
| Infinity (negative : bool).

(** Round a natural number to the nearest double (53 significant bits,
    ties to even). *)
Definition roundToDouble (n : Z) : Z :=
  let k := Z.log2 n in
  if (k <? 53)%Z then n
  else
    let sh := (k - 52)%Z in
    let q := Z.shiftr n sh in
    let r := Z.land n (Z.ones sh) in
    let half := Z.shiftl 1 (sh - 1) in
    let q' := if (half <? r)%Z || ((r =? half)%Z && Z.odd q) then (q + 1)%Z else q in
    Z.shiftl q' sh.

Definition toNumber (negative : bool) (n : Z) : Number :=
  let d := roundToDouble n in
  if (Z.shiftl 1 1024 <=? d)%Z then Infinity negative
  else Int (if negative then (- d)%Z else d).

Definition digit (c : ascii) : option Z :=
  let n := nat_of_ascii c in
  if ((48 <=? n) && (n <=? 57))%nat then Some (Z.of_nat n - 48)%Z else None.

(** The longest prefix of decimal digits, read from the left. *)
Fixpoint digits (acc : option Z) (s : string) : option Z :=
  match s with
  | EmptyString => acc
  | String c rest =>
      match digit c with
      | Some d => digits (Some (10 * default 0%Z acc + d)%Z) rest
      | None => acc
      end
  end.

(** [parseInt(s, 10)]; a missing argument is the text [undefined].  The
    digits denote their exact integer, which is then rounded to a double
    (past the 20th significant digit ECMAScript lets an engine
    approximate; the exact value is taken here). *)
Definition parseInt (s : option string) : Number :=
  let t := trimStart (show s) in
  let '(negative, body) :=
    match t with
    | String "-" rest => (true, rest)
    | String "+" rest => (false, rest)
    | _ => (false, t)
    end in
  match digits None body with
  | Some n => toNumber negative n
  | None => NaN
  end.

(** [x > y] on numbers: false as soon as one side is [NaN]. *)
Definition gt (x y : Number) : bool :=
  match x, y with
  | NaN, _ | _, NaN => false
  | Int a, Int b => (b <? a)%Z
  | Int _, Infinity negative => negative
  | Infinity negative, Int _ => negb negative
  | Infinity a, Infinity b => negb a && b
  end.

End JS.

(** ** Records of the data model *)

(** Modelled from the spec: [CdnProvider.ts] is not part of the sources; the
    providers are the two the CDN table and the design notes name. *)
Inductive CdnProvider := cdnjs | jsdelivr.

#[global] Instance CdnProvider_eq_dec : EqDecision CdnProvider.
Proof. solve_decision. Defined.

Record Asset := mkAsset { asset_cdn : CdnProvider; asset_name : string }.

(** At run time [version] is [undefined] in the record [tryUpdateAssets]
    builds for an asset that has no entry in [assetLatestVersions]. *)
Record AssetVersion := mkAssetVersion {
  av_cdn : CdnProvider;
  av_name : string;
  av_version : option string
}.

Record AssetVersionItem := mkItem {
  item_cdn : CdnProvider;
  item_name : string;
  item_version : string;
  item_url : string;
  item_integrity : option string;
  item_fileName : string
}.

(** [CdnFile.ts]; a listing may leave [integrity] out. *)
Record CdnFile := mkCdnFile {
  file_url : string;
  file_fileName : string;
  file_integrity : option string
}.

Record PullRequest := mkPullRequest { pr_number : Z; pr_url : string }.

(** The interface [Asset], which [AssetVersion] and [AssetVersionItem]
    extend. *)
Class IsAsset (T : Type) := { cdn : T -> CdnProvider; name : T -> string }.

#[global] Instance Asset_IsAsset : IsAsset Asset :=
  {| cdn := asset_cdn; name := asset_name |}.
#[global] Instance AssetVersion_IsAsset : IsAsset AssetVersion :=
  {| cdn := av_cdn; name := av_name |}.
#[global] Instance AssetVersionItem_IsAsset : IsAsset AssetVersionItem :=
  {| cdn := item_cdn; name := item_name |}.

#[global] Instance Asset_eq_dec : EqDecision Asset.
Proof. solve_decision. Defined.

(** The output record of one published update ([AssetUpdate.ts]) and the
    result of a run ([UpdateResult.ts]). *)
Record AssetUpdate := mkAssetUpdate {
  update_cdn : CdnProvider;
  update_name : string;
  update_pullRequestNumber : Z;
  update_pullRequestUrl : string;
  update_version : option string
}.

Record UpdateResult := mkUpdateResult { updates : list AssetUpdate }.

(** Modelled from the spec: [UpdateOptions.ts] is not part of the sources;
    the fields are the configuration surface the spec lists, under the names
    the class reads them by.  A field the class tests for truthiness or
    defaults with [??] may be missing. *)
Record UpdateOptions := mkUpdateOptions {
  accessToken : string;
  apiUrl : option string;
  branchPrefix : option string;
  commitMessage : option string;
  dryRun : bool;
  fileExtensions : list string;
  labels : option string;
  repo : option string;
  repoPath : string;
  runId : option string;
  serverUrl : option string;
  userEmail : option string;
  userName : option string
}.

(** A [script] or stylesheet [link] element as the class reads it: the
    [src] or [href] property and the [integrity] attribute, if present. *)
Record Element := mkElement { el_link : string; el_integrity : option string }.

(** The argument of [octokit.rest.pulls.create]. *)
Record PullsCreateRequest := mkPullsCreateRequest {
  req_owner : option string;
  req_repo : option string;
  req_title : string;
  req_head : string;
  req_base : string;
  req_body : string;
  req_maintainer_can_modify : bool;
  req_draft : bool
}.

Record PullsCreateResponse := mkPullsCreateResponse {
  resp_number : Z;
  resp_title : string;
  resp_html_url : string
}.

(** ** The world and the monad of effects *)

(** What the run does to the outside, in the order it does it. *)
Inductive Event :=
| EvGit (args : list string)
| EvGetLatestVersion (provider : CdnProvider) (package : string)
| EvGetFiles (provider : CdnProvider) (package : string) (version : option string)
| EvPullsCreate (request : PullsCreateRequest)
| EvAddLabels (owner repo : option string) (issue_number : Z) (labels : list string).

(** The working tree (path to content) and the trace of events so far. *)
Record World := mkWorld { files : gmap string string; events : list Event }.

Definition emit (e : Event) (w : World) : World :=
  {| files := files w; events := events w ++ [e] |}.

Inductive Result (A : Type) :=
| Ok (value : A)
| Throw (error : string).
Arguments Ok {A} value.
Arguments Throw {A} error.

Definition M (A : Type) : Type := World -> Result A * World.

Definition ret {A} (a : A) : M A := fun w => (Ok a, w).

Definition throw {A} (error : string) : M A := fun w => (Throw error, w).

Definition bind {A B} (c : M A) (k : A -> M B) : M B :=
  fun w =>
    match c w with
    | (Ok a, w') => k a w'
    | (Throw e, w') => (Throw e, w')
    end.

(** [try { c } catch (error) { h(error) }]. *)
Definition catch {A} (c : M A) (h : string -> M A) : M A :=
  fun w =>
    match c w with
    | (Ok a, w') => (Ok a, w')
    | (Throw e, w') => h e w'
    end.

Definition lift {A} (r : Result A) : M A := fun w => (r, w).

Notation "'let*' x ':=' c 'in' k" := (bind c (fun x => k))
  (at level 10, x pattern, c at level 100, k at level 200).
Notation "c1 '>>' c2" := (bind c1 (fun _ => c2))
  (at level 100, c2 at level 200, right associativity).

(** [for (const x of xs) { s = body(s, x) }] with effects. *)
Fixpoint forEach {A S} (body : S -> A -> M S) (s : S) (xs : list A) : M S :=
  match xs with
  | [] => ret s
  | x :: rest => let* s' := body s x in forEach body s' rest
  end.

(** What [exec.exec] reports for one [git] invocation: whether the promise
    is rejected (and with what), what the listeners collected, and the
    working tree the command leaves. *)
Record ExecOutcome := mkExecOutcome {
  exec_rejected : option string;
  exec_stdout : string;
  exec_stderr : string;
  exec_files : gmap string string
}.

(** The interface [CdnClient]. *)
Record CdnClient := mkCdnClient {
  getLatestVersion : string -> World -> Result (option string);
  getFiles : string -> option string -> World -> Result (list CdnFile)
}.

(** A JavaScript object used as a map from file names to values, in
    insertion order (the file names are absolute paths, hence never
    array indices); [fileAssetMap[fileName] = assets]. *)
Fixpoint Record_set {V} (m : list (string * V)) (key : string) (v : V) : list (string * V) :=
  match m with
  | [] => [(key, v)]
  | (k, old) :: rest =>
      if JS.str_eqb k key then (k, v) :: rest else (k, old) :: Record_set rest key v
  end.

(** [fileAssetMap]: the assets found in each file that has any. *)
Abbreviation FileAssetMap := (list (string * list AssetVersionItem)).

(** ** generateCommitMessage *)

Inductive UpdateKind := major | minor | patch.

Definition UpdateKind_text (k : UpdateKind) : string :=
  match k with major => "major" | minor => "minor" | patch => "patch" end.

(** The conditional expression bound to [updateKind]. *)
Definition updateKind (currentAssetVersion latestAssetVersion : string) : UpdateKind :=
  let currentVersion := JS.split "." currentAssetVersion in
  let latestVersion := JS.split "." latestAssetVersion in
  if JS.gt (JS.parseInt (latestVersion !! 0%nat)) (JS.parseInt (currentVersion !! 0%nat))
  then major
  else if JS.gt (JS.parseInt (latestVersion !! 1%nat)) (JS.parseInt (currentVersion !! 1%nat))
  then minor
  else patch.

Definition messageLines (assetName latestAssetVersion : string) (updateKind : UpdateKind)
    : list string :=
  [ "Update " +:+ assetName;
    "";
    "Updates " +:+ assetName +:+ " to version " +:+ latestAssetVersion +:+ ".";
    "";
    "---";
    "updated-dependencies:";
    "- dependency-name: " +:+ assetName;
    "  dependency-type: direct:production";
    "  update-type: version-update:semver-" +:+ UpdateKind_text updateKind;
    "...";
    "";
    "" ].

Definition generateCommitMessage
    (assetName currentAssetVersion latestAssetVersion : string) : string :=
  JS.join (String "010" "")
    (messageLines assetName latestAssetVersion
       (updateKind currentAssetVersion latestAssetVersion)).

(** ** The commit-message rule in the words of the specification

    "Chosen by comparing the first differing of the (major, minor) integer
    components of the old vs. new dotted version; else patch": the kind is
    named after the first of the two components in which the versions
    differ.  Two components that both fail to parse do not count as
    differing. *)
Definition Number_differ (x y : JS.Number) : bool :=
  match x, y with
  | JS.Int a, JS.Int b => negb (a =? b)%Z
  | JS.Infinity a, JS.Infinity b => negb (Bool.eqb a b)
  | JS.NaN, JS.NaN => false
  | _, _ => true
  end.

Definition firstDifferingKind (currentAssetVersion latestAssetVersion : string) : UpdateKind :=
  let currentVersion := JS.split "." currentAssetVersion in
  let latestVersion := JS.split "." latestAssetVersion in
  if Number_differ (JS.parseInt (latestVersion !! 0%nat)) (JS.parseInt (currentVersion !! 0%nat))
  then major
  else if Number_differ (JS.parseInt (latestVersion !! 1%nat)) (JS.parseInt (currentVersion !! 1%nat))
  then minor
  else patch.

(** A downgrade, in the words of the claim on [patch]: the latest version
    is below the current one, that is, it is the smaller one in the first
    dotted component in which the two differ as integers. *)
Fixpoint componentsBelow (latestVersion currentVersion : list string) : bool :=
  match latestVersion, currentVersion with
  | l :: ls, c :: cs =>
      if Number_differ (JS.parseInt (Some l)) (JS.parseInt (Some c))
      then JS.gt (JS.parseInt (Some c)) (JS.parseInt (Some l))
      else componentsBelow ls cs
  | _, _ => false
  end.

Definition isDowngrade (currentAssetVersion latestAssetVersion : string) : bool :=
  componentsBelow (JS.split "." latestAssetVersion) (JS.split "." currentAssetVersion).

(** ** A small repository to run the class on

    One page that loads versions 1.9.0 and 2.0.0 of the package [foo] from
    cdnjs, a CDN that lists the files of version 2.1.0, a [git] that
    succeeds silently on the branch [main], and a pull-request service that
    answers with number 7. *)

Module Fixture.

Definition providerText (provider : CdnProvider) : string :=
  match provider with cdnjs => "cdnjs" | jsdelivr => "jsdelivr" end.

Definition providerTruthy (provider : CdnProvider) : bool := true.

Fixpoint fromSlash (s : string) : string :=
  match s with
  | EmptyString => "/"
  | String c rest => if Ascii.eqb c "/" then s else fromSlash rest
  end.

(** The path of an [https] URL that has neither query nor fragment. *)
Definition URL_pathname (url : string) : option string :=
  if JS.startsWith "https://" url then Some (fromSlash (JS.slice 8 url)) else None.

(** The names used below are in lower case already. *)
Definition toLowerCase (s : string) : string := s.

Definition url_1_9 : string := "https://cdnjs.cloudflare.com/ajax/libs/foo/1.9.0/foo.min.js".
Definition url_2_0 : string := "https://cdnjs.cloudflare.com/ajax/libs/foo/2.0.0/foo.min.js".
Definition url_2_1 : string := "https://cdnjs.cloudflare.com/ajax/libs/foo/2.1.0/foo.min.js".

Definition page : string :=
  "<script src=" +:+ url_1_9 +:+ " integrity=sha256-OLD></script>"
  +:+ "<script src=" +:+ url_2_0 +:+ "></script>".

Definition index_html : string := "/repo/index.html".

Definition JSDOM (html : string) : Result (list Element * list Element) :=
  if JS.str_eqb html page
  then Ok ([ {| el_link := url_1_9; el_integrity := Some "sha256-OLD" |};
             {| el_link := url_2_0; el_integrity := None |} ], [])
  else Ok ([], []).

Definition glob_sync (pattern cwd : string) (w : World) : list string :=
  if JS.str_eqb pattern "**/*.html" then [index_html] else [].

Definition item_1_9 : AssetVersionItem :=
  {| item_cdn := cdnjs; item_name := "foo"; item_version := "1.9.0"; item_url := url_1_9;
     item_integrity := Some "sha256-OLD"; item_fileName := "foo.min.js" |}.

Definition item_2_0 : AssetVersionItem :=
  {| item_cdn := cdnjs; item_name := "foo"; item_version := "2.0.0"; item_url := url_2_0;
     item_integrity := None; item_fileName := "foo.min.js" |}.

Definition fileAssetMap : FileAssetMap := [ (index_html, [item_1_9; item_2_0]) ].

Definition foo : Asset := {| asset_cdn := cdnjs; asset_name := "foo" |}.

Definition foo_2_1 : AssetVersion :=
  {| av_cdn := cdnjs; av_name := "foo"; av_version := Some "2.1.0" |}.

Definition listing : list CdnFile :=
  [ {| file_url := url_2_1; file_fileName := "foo.min.js";
       file_integrity := Some "sha256-NEW" |} ].

(** The listing after the file was renamed upstream. *)
Definition renamed : list CdnFile :=
  [ {| file_url := "https://cdnjs.cloudflare.com/ajax/libs/foo/2.1.0/foo.umd.js";
       file_fileName := "foo.umd.js"; file_integrity := None |} ].

(** A client whose version lookup is rejected. *)
Definition unreachable : CdnClient :=
  {| getLatestVersion := fun package w => Throw "Error: 503";
     getFiles := fun package version w => Throw "Error: 503" |}.

(** A client whose version lookup answers [latest], and which lists files
    for version 2.1.0 only. *)
Definition client (latest : option string) : CdnClient :=
  {| getLatestVersion := fun package w => Ok latest;
     getFiles := fun package version w =>
                   Ok (if bool_decide (version = Some "2.1.0") then listing else []) |}.

Definition exec_git (args : list string) (ignoreReturnCode : bool) (w : World) : ExecOutcome :=
  {| exec_rejected := None;
     exec_stdout :=
       if bool_decide (args = ["rev-parse"; "--abbrev-ref"; "HEAD"])
       then "main" +:+ String "010" ""
       else "";
     exec_stderr := "";
     exec_files := files w |}.

Definition getOctokit (token : string) (baseUrl : option string) : Result unit := Ok tt.

Definition pulls_create (request : PullsCreateRequest) (w : World) : Result PullsCreateResponse :=
  Ok {| resp_number := 7; resp_title := req_title request;
        resp_html_url := "https://github.com/owner/repo/pull/7" |}.

Definition issues_addLabels (owner repo : option string) (issue_number : Z)
    (labels : list string) (w : World) : Result unit := Ok tt.

Definition options (dry : bool) : UpdateOptions :=
  {| accessToken := "token"; apiUrl := Some "https://api.github.com";
     branchPrefix := None; commitMessage := None; dryRun := dry;
     fileExtensions := ["html"]; labels := None; repo := Some "owner/repo";
     repoPath := "/repo"; runId := Some "1"; serverUrl := Some "https://github.com";
     userEmail := None; userName := None |}.

Definition world : World :=
  {| files := {[ index_html := page ]}; events := [] |}.

(** A [git] for which the update branch is on the remote already. *)
Definition exec_git_branch_exists (args : list string) (ignoreReturnCode : bool) (w : World)
    : ExecOutcome :=
  {| exec_rejected := None;
     exec_stdout :=
       match args with
       | "rev-parse" :: "--verify" :: _ => "0123456789abcdef0123456789abcdef01234567"
       | _ => ""
       end;
     exec_stderr := "";
     exec_files := files w |}.

(** A URL parser that rejects a port out of range. *)
Definition URL_pathname_strict (url : string) : option string :=
  if JS.includes url ":99999" then None else URL_pathname url.

(** A pull-request service that is down, and one that cannot label. *)
Definition pulls_create_down (request : PullsCreateRequest) (w : World)
    : Result PullsCreateResponse := Throw "HttpError: 502".

Definition issues_addLabels_down (owner repo : option string) (issue_number : Z)
    (labels : list string) (w : World) : Result unit := Throw "HttpError: 404".

(** A page whose second script has a URL the strict parser rejects. *)
Definition url_bad : string := "https://cdnjs.cloudflare.com:99999/ajax/libs/foo/1.0.0/foo.min.js".

Definition JSDOM_bad_script (html : string) : Result (list Element * list Element) :=
  Ok ([ {| el_link := url_1_9; el_integrity := Some "sha256-OLD" |};
        {| el_link := url_bad; el_integrity := None |};
        {| el_link := url_2_0; el_integrity := None |} ],
      [ {| el_link := url_2_1; el_integrity := None |} ]).

(** A repository that is up to date: its page loads version 2.1.0 only. *)
Definition JSDOM_current (html : string) : Result (list Element * list Element) :=
  Ok ([ {| el_link := url_2_1; el_integrity := Some "sha256-NEW" |} ], []).

Definition item_2_1 : AssetVersionItem :=
  {| item_cdn := cdnjs; item_name := "foo"; item_version := "2.1.0"; item_url := url_2_1;
     item_integrity := Some "sha256-NEW"; item_fileName := "foo.min.js" |}.

(** The update of [foo] to a version that was not resolved. *)
Definition foo_undefined : AssetVersion :=
  {| av_cdn := cdnjs; av_name := "foo"; av_version := None |}.

(** The options with labels to apply. *)
Definition options_with_labels : UpdateOptions :=
  {| accessToken := "token"; apiUrl := Some "https://api.github.com";
     branchPrefix := None; commitMessage := None; dryRun := false;
     fileExtensions := ["html"]; labels := Some "dependencies,javascript";
     repo := Some "owner/repo"; repoPath := "/repo"; runId := Some "1";
     serverUrl := Some "https://github.com"; userEmail := None; userName := None |}.

(** A page that loads version 2.1.0 first and version 2.0.0 after it, both
    with the same integrity value. *)
Definition page_same : string :=
  "<script src=" +:+ url_2_1 +:+ " integrity=sha256-SAME></script>"
  +:+ "<script src=" +:+ url_2_0 +:+ " integrity=sha256-SAME></script>".

Definition item_2_1_same : AssetVersionItem :=
  {| item_cdn := cdnjs; item_name := "foo"; item_version := "2.1.0"; item_url := url_2_1;
     item_integrity := Some "sha256-SAME"; item_fileName := "foo.min.js" |}.

Definition item_2_0_same : AssetVersionItem :=
  {| item_cdn := cdnjs; item_name := "foo"; item_version := "2.0.0"; item_url := url_2_0;
     item_integrity := Some "sha256-SAME"; item_fileName := "foo.min.js" |}.

Definition world_same : World :=
  {| files := {[ index_html := page_same ]}; events := [] |}.



(** A [git] that reports on the error stream, as [git] does, when it
    fetches, switches to a new branch or pushes; [remote] says whether the
    update branch is on the remote. *)
Definition exec_git_chatty (remote : bool) (args : list string) (ignoreReturnCode : bool)
    (w : World) : ExecOutcome :=
  {| exec_rejected := None;
     exec_stdout :=
       match args with
       | "rev-parse" :: "--abbrev-ref" :: _ => "main" +:+ String "010" ""
       | "rev-parse" :: "--verify" :: _ =>
           if remote then "0123456789abcdef0123456789abcdef01234567" +:+ String "010" ""
           else ""
       | "commit" :: _ => "[update-static-assets/foo/2.1.0 0123456] Update foo"
       | "log" :: _ => "'0123456789abcdef0123456789abcdef01234567'"
       | _ => ""
       end;
     exec_stderr :=
       match args with
       | "fetch" :: _ => "From https://github.com/owner/repo"
       | "checkout" :: _ => "Switched to a new branch 'update-static-assets/foo/2.1.0'"
       | "push" :: _ => "remote: Create a pull request for 'update-static-assets/foo/2.1.0'"
       | _ => ""
       end;
     exec_files := files w |}.

End Fixture.

(** ** The class StaticAssetUpdater *)

Section Updater.

(** [this.options]. *)
Variable options : UpdateOptions.

(** How a [CdnProvider] member prints in a template literal, and whether it
    is truthy: [CdnProvider.ts] is not part of the sources. *)
Variable providerText : CdnProvider -> string.
Variable providerTruthy : CdnProvider -> bool.

(** [new URL(url).pathname]; [None] when the constructor throws. *)
Variable URL_pathname : string -> option string.

(** [s.toLowerCase()]. *)
Variable toLowerCase : string -> string.

(** [new JSDOM(html)] with the two [querySelectorAll] calls: the [script]
    elements and the [link[rel="stylesheet"]] elements, in document order. *)
Variable JSDOM : string -> Result (list Element * list Element).

(** [glob.sync(pattern, { cwd, ... })]. *)
Variable glob_sync : string -> string -> World -> list string.

(** [new CdnjsClient()] and [new JSDelivrClient()]. *)
Variable CdnjsClient JSDelivrClient : CdnClient.

(** [exec.exec('git', args, options)] in [repoPath]; the flag is
    [ignoreReturnCode]. *)
Variable exec_git : list string -> bool -> World -> ExecOutcome.

(** [github.getOctokit(accessToken, { baseUrl })], which may throw, and the
    two calls made on the client. *)
Variable getOctokit : string -> option string -> Result unit.
Variable pulls_create : PullsCreateRequest -> World -> Result PullsCreateResponse.
Variable issues_addLabels :
  option string -> option string -> Z -> list string -> World -> Result unit.

(** The static table [cdnMap], in insertion order. *)
Definition cdnMap : list (string * CdnProvider) :=
  [ ("https://cdnjs.cloudflare.com", cdnjs);
    ("https://cdn.jsdelivr.net", jsdelivr) ].

Definition getClient (provider : CdnProvider) : option CdnClient :=
  match provider with
  | cdnjs => Some CdnjsClient
  | jsdelivr => Some JSDelivrClient
  end.

Definition getKey `{IsAsset T} (asset : T) : string :=
  providerText (cdn asset) +:+ "-" +:+ name asset.

(** [a.cdn === asset.cdn && a.name === asset.name]. *)
Definition sameAsset `{IsAsset T, IsAsset U} (a : T) (asset : U) : bool :=
  bool_decide (cdn a = cdn asset) && JS.str_eqb (name a) (name asset).

(** *** The asset extractor *)

(** An index below [segments.length] always holds a segment, so the
    defaults below are never used. *)
Definition extractAsset (provider : CdnProvider) (url : string)
    (integrity : option string) : Result (option AssetVersionItem) :=
  match URL_pathname url with
  | None => Throw "TypeError: Invalid URL"
  | Some pathname =>
      let uriPath := JS.slice 1 pathname in
      let segments := JS.split "/" uriPath in
      match provider with
      | cdnjs =>
          if (4 <=? List.length segments)%nat then
            let fileName := JS.join "/" (JS.slice_array 4 segments) in
            Ok (Some {| item_cdn := provider;
                        item_name := default "" (segments !! 2%nat);
                        item_version := default "" (segments !! 3%nat);
                        item_url := url;
                        item_integrity := integrity;
                        item_fileName := fileName |})
          else Ok None
      | jsdelivr =>
          if (2 <=? List.length segments)%nat then
            let fileName := "/" +:+ JS.join "/" (JS.slice_array 2 segments) in
            let segments := JS.split "@" (default "" (segments !! 1%nat)) in
            if (List.length segments =? 2)%nat then
              Ok (Some {| item_cdn := provider;
                          item_name := default "" (segments !! 0%nat);
                          item_version := default "" (segments !! 1%nat);
                          item_url := url;
                          item_integrity := integrity;
                          item_fileName := fileName |})
            else Ok None
          else Ok None
      end
  end.

Definition tryGetAsset (url : string) (integrity : option string)
    : Result (option AssetVersionItem) :=
  let provider :=
    snd <$> List.find (fun entry => JS.startsWith (fst entry) url) cdnMap in
  match provider with
  | Some p => if providerTruthy p then extractAsset p url integrity else Ok None
  | None => Ok None
  end.

(** [script.src] and [script.attributes['integrity']] are the two fields of
    the element. *)
Definition tryGetScriptAsset (script : Element) : Result (option AssetVersionItem) :=
  if negb (JS.truthy (Some (el_link script))) then Ok None
  else
    let integrity :=
      match el_integrity script with
      | Some value => if JS.truthy (Some value) then Some value else None
      | None => None
      end in
    tryGetAsset (el_link script) integrity.

(** [style.href] and [style.attributes['integrity']]. *)
Definition tryGetStyleAsset (style : Element) : Result (option AssetVersionItem) :=
  if negb (JS.truthy (Some (el_link style))) then Ok None
  else
    let integrity :=
      match el_integrity style with
      | Some value => if JS.truthy (Some value) then Some value else None
      | None => None
      end in
    tryGetAsset (el_link style) integrity.

(** One of the two loops of [findAssets]: the assets pushed so far survive
    an exception, which ends the [try] block. *)
Fixpoint pushAssets (tryGet : Element -> Result (option AssetVersionItem))
    (elements : list Element) (assets : list AssetVersionItem)
    : list AssetVersionItem * bool :=
  match elements with
  | [] => (assets, true)
  | element :: rest =>
      match tryGet element with
      | Ok (Some asset) => pushAssets tryGet rest (assets ++ [asset])
      | Ok None => pushAssets tryGet rest assets
      | Throw _ => (assets, false)
      end
  end.

Definition findAssets (fileName : string) : M (list AssetVersionItem) :=
  fun w =>
    match files w !! fileName with
    | None => (Ok [], w)
    | Some html =>
        match JSDOM html with
        | Throw _ => (Ok [], w)
        | Ok (scripts, styles) =>
            match pushAssets tryGetScriptAsset scripts [] with
            | (assets, true) => (Ok (fst (pushAssets tryGetStyleAsset styles assets)), w)
            | (assets, false) => (Ok assets, w)
            end
        end
    end.

Definition findFiles : M (list string) :=
  fun w =>
    let patterns := List.map (fun extension => "**/*." +:+ extension) (fileExtensions options) in
    (Ok (List.concat (List.map (fun pattern => glob_sync pattern (repoPath options) w) patterns)), w).

(** *** The version reconciler *)

(** The loop "Find the unique assets present in the files". *)
Definition uniqueAssets (fileAssetMap : FileAssetMap) : list Asset :=
  fold_left
    (fun assets '(fileName, fileAssets) =>
       fold_left
         (fun (assets : list Asset) (asset : AssetVersionItem) =>
            if negb (existsb (fun a => sameAsset a asset) assets)
            then assets ++ [ {| asset_cdn := cdn asset; asset_name := name asset |} ]
            else assets)
         fileAssets assets)
    fileAssetMap [].

(** The loop "Find the versions of each asset".  A key holds a dash, so it
    never names a property the object inherits. *)
Definition findVersions (fileAssetMap : FileAssetMap) : gmap string (list AssetVersion) :=
  fold_left
    (fun assetVersions '(fileName, fileAssets) =>
       fold_left
         (fun (assetVersions : gmap string (list AssetVersion)) (asset : AssetVersionItem) =>
            let key := getKey asset in
            let versions := default [] (assetVersions !! key) in
            let versions :=
              if negb (existsb (fun a => bool_decide (av_version a = Some (item_version asset))) versions)
              then versions ++ [ {| av_cdn := cdn asset;
                                    av_name := name asset;
                                    av_version := Some (item_version asset) |} ]
              else versions in
            <[key := versions]> assetVersions)
         fileAssets assetVersions)
    fileAssetMap ∅.

(** A call of a [CdnClient] method. *)
Definition callGetLatestVersion (provider : CdnProvider) (client : CdnClient)
    (package : string) : M (option string) :=
  fun w => (getLatestVersion client package w, emit (EvGetLatestVersion provider package) w).

Definition callGetFiles (provider : CdnProvider) (client : CdnClient)
    (package : string) (version : option string) : M (list CdnFile) :=
  fun w => (getFiles client package version w, emit (EvGetFiles provider package version) w).

(** The loop "Find the latest version of each asset". *)
Definition findLatestVersions (assets : list Asset) : M (gmap string string) :=
  forEach
    (fun (assetLatestVersions : gmap string string) (asset : Asset) =>
       match getClient (cdn asset) with
       | Some client =>
           let* version := callGetLatestVersion (cdn asset) client (name asset) in
           match version with
           | Some v =>
               if JS.truthy version
               then ret (<[getKey asset := v]> assetLatestVersions)
               else ret assetLatestVersions
           | None => ret assetLatestVersions
           end
       | None => ret assetLatestVersions
       end)
    ∅ assets.

(** The loop "Are there any assets using a version that isn't the latest
    one?"; [latestVersion] is [undefined] for a key without an entry. *)
Definition findAssetsToUpdate (assets : list Asset)
    (assetLatestVersions : gmap string string)
    (assetVersions : gmap string (list AssetVersion)) : list Asset :=
  fold_left
    (fun (assetsToUpdate : list Asset) (asset : Asset) =>
       let key := getKey asset in
       let latestVersion := assetLatestVersions !! key in
       match assetVersions !! key with
       | Some versions =>
           fold_left
             (fun (assetsToUpdate : list Asset) (version : AssetVersion) =>
                if negb (bool_decide (av_version version = latestVersion)) then
                  if negb (existsb (fun a => sameAsset a asset) assetsToUpdate)
                  then assetsToUpdate ++ [ {| asset_cdn := cdn asset; asset_name := name asset |} ]
                  else assetsToUpdate
                else assetsToUpdate)
             versions assetsToUpdate
       | None => assetsToUpdate
       end)
    assets [].

(** *** git *)

Definition execGit (args : list string) (ignoreErrors : bool) : M string :=
  fun w =>
    let outcome := exec_git args ignoreErrors w in
    let w' := {| files := exec_files outcome; events := events w ++ [EvGit args] |} in
    match exec_rejected outcome with
    | Some error =>
        (Throw ("The command 'git " +:+ JS.join " " args +:+ "' failed: " +:+ error), w')
    | None =>
        if JS.truthy (Some (exec_stderr outcome)) && negb ignoreErrors
        then (Throw (exec_stderr outcome), w')
        else (Ok (JS.trimEnd (exec_stdout outcome)), w')
    end.

Definition getCurrentBranch : M string :=
  execGit ["rev-parse"; "--abbrev-ref"; "HEAD"] false.

(** *** The update applier *)

Definition readFileSync (file : string) : M string :=
  fun w =>
    match files w !! file with
    | Some content => (Ok content, w)
    | None => (Throw ("ENOENT: no such file or directory, open '" +:+ file +:+ "'"), w)
    end.

Definition writeFileSync (file content : string) : M unit :=
  fun w => (Ok tt, {| files := <[file := content]> (files w); events := events w |}).

(** The filter that selects [assetsToUpdate] in a file. *)
Definition isCandidate (assetUpdate : AssetVersion) (a : AssetVersionItem) : bool :=
  bool_decide (cdn a = cdn assetUpdate)
  && JS.str_eqb (name a) (name assetUpdate)
  && negb (bool_decide (Some (item_version a) = av_version assetUpdate)).

(** The state of the inner loop: [content], [dirty], [lowestVersion]. *)
Record Patch := mkPatch {
  patch_content : string;
  patch_dirty : bool;
  patch_lowestVersion : string
}.

(** The body of the loop over [assetsToUpdate]. *)
Definition patchOccurrence (cdnFiles : list CdnFile) (p : Patch)
    (assetToUpdate : AssetVersionItem) : Patch :=
  let latestAsset :=
    List.find (fun a => JS.str_eqb (file_fileName a) (item_fileName assetToUpdate)) cdnFiles in
  match latestAsset with
  | Some latestAsset =>
      if JS.includes (patch_content p) (item_url assetToUpdate) then
        let content := JS.replace (patch_content p) (item_url assetToUpdate) (file_url latestAsset) in
        let content :=
          match item_integrity assetToUpdate with
          | Some integrity =>
              if JS.truthy (Some integrity)
              then JS.replace content integrity (default "" (file_integrity latestAsset))
              else content
          | None => content
          end in
        {| patch_content := content;
           patch_dirty := true;
           patch_lowestVersion :=
             if JS.lt (patch_lowestVersion p) (item_version assetToUpdate)
             then item_version assetToUpdate
             else patch_lowestVersion p |}
      else p
  | None => p
  end.

(** The body of the loop over the files of [fileAssetMap]; the state is
    [filesUpdated] and [lowestVersion]. *)
Definition patchFile (assetUpdate : AssetVersion) (cdnFiles : list CdnFile)
    (state : nat * string) (entry : string * list AssetVersionItem) : M (nat * string) :=
  let '(filesUpdated, lowestVersion) := state in
  let '(file, fileAssets) := entry in
  let* content := readFileSync file in
  let assetsToUpdate := List.filter (isCandidate assetUpdate) fileAssets in
  let p := fold_left (patchOccurrence cdnFiles) assetsToUpdate
             {| patch_content := content; patch_dirty := false;
                patch_lowestVersion := lowestVersion |} in
  if patch_dirty p then
    writeFileSync file (patch_content p) >>
    ret (S filesUpdated, patch_lowestVersion p)
  else ret (filesUpdated, patch_lowestVersion p).

(** "Apply the updates to the file system". *)
Definition patchFiles (fileAssetMap : FileAssetMap) (assetUpdate : AssetVersion)
    (cdnFiles : list CdnFile) : M (nat * string) :=
  forEach (patchFile assetUpdate cdnFiles) (O, "0.0.0") fileAssetMap.

Definition when (b : bool) (c : M unit) : M unit := if b then c else ret tt.

Definition branchName (assetUpdate : AssetVersion) : string :=
  let branchPrefix :=
    if negb (JS.truthy (branchPrefix options)) then "update-static-assets"
    else JS.show (branchPrefix options) in
  toLowerCase (branchPrefix +:+ "/" +:+ name assetUpdate +:+ "/" +:+ JS.show (av_version assetUpdate)).

Definition applyAssetUpdate (base : string) (fileAssetMap : FileAssetMap)
    (assetUpdate : AssetVersion) (cdnFiles : list CdnFile) : M (option string) :=
  let* (filesUpdated, lowestVersion) := patchFiles fileAssetMap assetUpdate cdnFiles in
  if (filesUpdated <? 1)%nat then ret None
  else
    let branch := branchName assetUpdate in
    let* commitMessage :=
      if negb (JS.truthy (commitMessage options)) then
        match av_version assetUpdate with
        | Some latest => ret (generateCommitMessage (name assetUpdate) lowestVersion latest)
        | None => throw "TypeError: Cannot read properties of undefined (reading 'split')"
        end
      else ret (JS.show (commitMessage options)) in
    when (JS.truthy (userName options))
      (execGit ["config"; "user.name"; JS.show (userName options)] false >> ret tt) >>
    when (JS.truthy (userEmail options))
      (execGit ["config"; "user.email"; JS.show (userEmail options)] false >> ret tt) >>
    when (JS.truthy (repo options))
      (execGit ["remote"; "set-url"; "origin";
                JS.show (serverUrl options) +:+ "/" +:+ JS.show (repo options) +:+ ".git"] false >>
       execGit ["fetch"; "origin"] true >> ret tt) >>
    let* branchExists :=
      execGit ["rev-parse"; "--verify"; "--quiet"; "remotes/origin/" +:+ branch] true in
    if JS.truthy (Some branchExists) then ret None
    else
      execGit ["checkout"; "-b"; branch] true >>
      execGit ["add"; "."] false >>
      execGit ["commit"; "-m"; commitMessage] false >>
      execGit ["log"; "--format='%H'"; "-n"; "1"] false >>
      when (negb (dryRun options) && JS.truthy (repo options))
        (execGit ["push"; "-u"; "origin"; branch] true >> ret tt) >>
      ret (Some branch).

(** *** The change publisher *)

Definition createPullRequest (base head : string) (asset : AssetVersion) : M PullRequest :=
  let title := "Update " +:+ name asset +:+ " to " +:+ JS.show (av_version asset) in
  let body :=
    "Updates " +:+ name asset +:+ " to version `" +:+ JS.show (av_version asset) +:+ "`." in
  let body :=
    body +:+ String "010" (String "010" "")
      +:+ "This pull request was auto-generated by [GitHub Actions]("
      +:+ JS.show (serverUrl options) +:+ "/" +:+ JS.show (repo options)
      +:+ "/actions/runs/" +:+ JS.show (runId options) +:+ ")." in
  let* octokit := lift (getOctokit (accessToken options) (apiUrl options)) in
  let split := JS.split "/" (default "/" (repo options)) in
  let owner := split !! 0%nat in
  let repo := split !! 1%nat in
  let request :=
    {| req_owner := owner; req_repo := repo; req_title := title; req_head := head;
       req_base := base; req_body := body;
       req_maintainer_can_modify := true; req_draft := false |} in
  if dryRun options then ret {| pr_number := 0; pr_url := "" |}
  else
    let* response := (fun w => (pulls_create request w, emit (EvPullsCreate request) w)) in
    let result := {| pr_number := resp_number response; pr_url := resp_html_url response |} in
    when (JS.truthy (labels options))
      (let labelsToApply := JS.split "," (JS.show (labels options)) in
       when (0 <? List.length labelsToApply)%nat
         (catch
            (fun w => (issues_addLabels owner repo (pr_number result) labelsToApply w,
                       emit (EvAddLabels owner repo (pr_number result) labelsToApply) w))
            (fun error => ret tt))) >>
    ret result.

(** *** tryUpdateAssets *)

(** Lines 190 to 213 of the update loop: apply the update and, when a head
    branch comes back, open the pull request and record the update. *)
Definition publishUpdate (baseBranch : string) (fileAssetMap : FileAssetMap)
    (updatedAsset : AssetVersion) (latestFiles : list CdnFile)
    (result : list AssetUpdate) : M (list AssetUpdate) :=
  let* headBranch := applyAssetUpdate baseBranch fileAssetMap updatedAsset latestFiles in
  if JS.truthy headBranch then
    let* pullRequest := createPullRequest baseBranch (JS.show headBranch) updatedAsset in
    let update :=
      {| update_cdn := cdn updatedAsset;
         update_name := name updatedAsset;
         update_pullRequestNumber := pr_number pullRequest;
         update_pullRequestUrl := pr_url pullRequest;
         update_version := av_version updatedAsset |} in
    ret (result ++ [update])
  else ret result.

(** The body of the loop over [assetsToUpdate]; the state is [baseBranch]
    and [result.updates]. *)
Definition updateAsset (fileAssetMap : FileAssetMap)
    (assetLatestVersions : gmap string string)
    (state : string * list AssetUpdate) (asset : Asset) : M (string * list AssetUpdate) :=
  let '(baseBranch, result) := state in
  match getClient (cdn asset) with
  | Some client =>
      let key := getKey asset in
      let version := assetLatestVersions !! key in
      let* latestFiles := callGetFiles (cdn asset) client (name asset) version in
      if (0 <? List.length latestFiles)%nat then
        let updatedAsset :=
          {| av_cdn := cdn asset; av_name := name asset; av_version := version |} in
        let* baseBranch :=
          if JS.truthy (Some baseBranch)
          then execGit ["checkout"; baseBranch] true >> ret baseBranch
          else getCurrentBranch in
        let* result := publishUpdate baseBranch fileAssetMap updatedAsset latestFiles result in
        ret (baseBranch, result)
      else ret (baseBranch, result)
  | None => ret (baseBranch, result)
  end.

(** The first loop: the files that contain assets. *)
Definition scanFiles (paths : list string) : M FileAssetMap :=
  forEach
    (fun (fileAssetMap : FileAssetMap) (fileName : string) =>
       let* assets := findAssets fileName in
       if (0 <? List.length assets)%nat
       then ret (Record_set fileAssetMap fileName assets)
       else ret fileAssetMap)
    [] paths.

Definition tryUpdateAssets : M UpdateResult :=
  let* paths := findFiles in
  let* fileAssetMap := scanFiles paths in
  let assets := uniqueAssets fileAssetMap in
  let assetVersions := findVersions fileAssetMap in
  let* assetLatestVersions := findLatestVersions assets in
  let assetsToUpdate := findAssetsToUpdate assets assetLatestVersions assetVersions in
  if (0 <? List.length assetsToUpdate)%nat then
    let* (baseBranch, result) :=
      forEach (updateAsset fileAssetMap assetLatestVersions) ("", []) assetsToUpdate in
    ret {| updates := result |}
  else ret {| updates := [] |}.

(** *** Vocabulary of the properties *)

(** The asset occurrences of all scanned files. *)
Definition itemsOf (fileAssetMap : FileAssetMap) : list AssetVersionItem :=
  List.concat (List.map snd fileAssetMap).

(** Whether a text contains the separator [getKey] puts between provider
    and name. *)
Fixpoint hasDash (s : string) : bool :=
  match s with
  | EmptyString => false
  | String c rest => Ascii.eqb c "-" || hasDash rest
  end.

(** Whether the inner loop of [patchFile] replaces an occurrence in
    [content]: the listing has its [fileName] and the text has its URL. *)
Definition replaceable (cdnFiles : list CdnFile) (content : string)
    (a : AssetVersionItem) : bool :=
  match List.find (fun f => JS.str_eqb (file_fileName f) (item_fileName a)) cdnFiles with
  | Some _ => JS.includes content (item_url a)
  | None => false
  end.

(** A [git push]. *)
Definition isPush (e : Event) : bool :=
  match e with
  | EvGit (command :: _) => JS.str_eqb command "push"
  | _ => false
  end.

(** A computation that only ever adds events satisfying [P] to the trace. *)
Definition adds {A} (P : Event -> Prop) (c : M A) : Prop :=
  forall w, exists added, events (snd (c w)) = events w ++ added /\ Forall P added.

(** The [git] commands of an [applyAssetUpdate] that gets as far as the
    commit without pushing, in order. *)
Definition commitTrace (assetUpdate : AssetVersion) (message : string) : list Event :=
  (if JS.truthy (userName options)
   then [EvGit ["config"; "user.name"; JS.show (userName options)]] else [])
  ++ (if JS.truthy (userEmail options)
      then [EvGit ["config"; "user.email"; JS.show (userEmail options)]] else [])
  ++ (if JS.truthy (repo options)
      then [EvGit ["remote"; "set-url"; "origin";
                   JS.show (serverUrl options) +:+ "/" +:+ JS.show (repo options) +:+ ".git"];
            EvGit ["fetch"; "origin"]]
      else [])
  ++ [EvGit ["rev-parse"; "--verify"; "--quiet"; "remotes/origin/" +:+ branchName assetUpdate];
      EvGit ["checkout"; "-b"; branchName assetUpdate];
      EvGit ["add"; "."];
      EvGit ["commit"; "-m"; message];
      EvGit ["log"; "--format='%H'"; "-n"; "1"]].

(** Whether a text holds the code unit [c]. *)
Fixpoint hasChar (c : ascii) (s : string) : bool :=
  match s with
  | EmptyString => false
  | String d rest => Ascii.eqb d c || hasChar c rest
  end.

(** Whether some version recorded for the asset differs from the latest
    version recorded for it ([undefined] when there is none). *)
Definition isStale (assetLatestVersions : gmap string string)
    (assetVersions : gmap string (list AssetVersion)) (asset : Asset) : bool :=
  match assetVersions !! getKey asset with
  | Some versions =>
      existsb (fun v => negb (bool_decide (av_version v = assetLatestVersions !! getKey asset)))
        versions
  | None => false
  end.

(** The [git] commands [applyAssetUpdate] runs before it looks for the
    remote branch. *)
Definition setupTrace : list Event :=
  (if JS.truthy (userName options)
   then [EvGit ["config"; "user.name"; JS.show (userName options)]] else [])
  ++ (if JS.truthy (userEmail options)
      then [EvGit ["config"; "user.email"; JS.show (userEmail options)]] else [])
  ++ (if JS.truthy (repo options)
      then [EvGit ["remote"; "set-url"; "origin";
                   JS.show (serverUrl options) +:+ "/" +:+ JS.show (repo options) +:+ ".git"];
            EvGit ["fetch"; "origin"]]
      else []).

(** The push that follows the commit, when there is one. *)
Definition pushTrace (assetUpdate : AssetVersion) : list Event :=
  if negb (dryRun options) && JS.truthy (repo options)
  then [EvGit ["push"; "-u"; "origin"; branchName assetUpdate]]
  else [].

(** An event that publishes: a push or a call of the pull-request
    service. *)
Definition isPublish (e : Event) : bool :=
  match e with
  | EvPullsCreate _ | EvAddLabels _ _ _ _ => true
  | _ => isPush e
  end.

(** A text made of decimal digits, and the number it writes. *)
Fixpoint allDigits (s : string) : bool :=
  match s with
  | EmptyString => true
  | String c rest => match JS.digit c with Some _ => allDigits rest | None => false end
  end.

Definition isNumeral (s : string) : bool :=
  match s with EmptyString => false | _ => allDigits s end.

Fixpoint valueFrom (acc : Z) (s : string) : Z :=
  match s with
  | EmptyString => acc
  | String c rest => valueFrom (10 * acc + default 0%Z (JS.digit c)) rest
  end.

Definition numeralValue (s : string) : Z := valueFrom 0 s.

(** A computation whose added events are the list [full] when it returns,
    and a beginning of [full] when it throws; and one whose added events
    are a beginning of [full] however it ends. *)
Definition exactly {A} (c : M A) (full : list Event) : Prop :=
  forall w, exists added,
    events (snd (c w)) = events w ++ added
    /\ match fst (c w) with
       | Ok _ => added = full
       | Throw _ => added `prefix_of` full
       end.

Definition within {A} (c : M A) (full : list Event) : Prop :=
  forall w, exists added,
    events (snd (c w)) = events w ++ added /\ added `prefix_of` full.


(** The [git] commands that [applyAssetUpdate] runs with [ignoreErrors]
    set: what they write to the error stream is not taken for an error. *)
Definition tolerated (args : list string) : bool :=
  match args with
  | command :: _ => bool_decide (command ∈ ["fetch"; "rev-parse"; "checkout"; "push"])
  | [] => false
  end.

(** A list of assets with every repetition after the first struck out. *)
Fixpoint firstOccurrences (assets : list Asset) : list Asset :=
  match assets with
  | [] => []
  | a :: rest => a :: List.filter (fun b => negb (sameAsset a b)) (firstOccurrences rest)
  end.

(** The asset an occurrence belongs to. *)
Definition assetOf (item : AssetVersionItem) : Asset :=
  {| asset_cdn := cdn item; asset_name := name item |}.

(** The commit message of an update whose file loop handed on
    [lowestVersion]: the override when there is one, else the generated
    message. *)
Definition commitMessageOf (assetUpdate : AssetVersion) (lowestVersion latest : string)
    : string :=
  if negb (JS.truthy (commitMessage options))
  then generateCommitMessage (name assetUpdate) lowestVersion latest
  else JS.show (commitMessage options).

(** ** Properties *)

(** *** The commit message *)

Lemma gt_same_false (x y : JS.Number) :
  Number_differ x y = false -> JS.gt x y = false.
Proof.
  destruct x as [|a|a], y as [|b|b]; simpl; try discriminate; try reflexivity.
  - intros H. apply negb_false_iff, Z.eqb_eq in H. subst. apply Z.ltb_irrefl.
  - destruct a, b; simpl; intros; try discriminate; reflexivity.
Qed.

(** C4, as amended.  For every pair of dotted versions in which the new
    version is strictly greater than the old one in the first of the
    (major, minor) integer components where the two differ,
    [generateCommitMessage] names the update after that first differing
    component, and [patch] when neither differs; the messages for
    1.2.3 to 1.3.0, to 2.0.0 and to 1.2.4 say minor, major and patch. *)
Theorem generateCommitMessage_first_differing_upgrade :
  (forall assetName current latest : string,
      let currentVersion := JS.split "." current in
      let latestVersion := JS.split "." latest in
      let newMajor := JS.parseInt (latestVersion !! 0%nat) in
      let oldMajor := JS.parseInt (currentVersion !! 0%nat) in
      let newMinor := JS.parseInt (latestVersion !! 1%nat) in
      let oldMinor := JS.parseInt (currentVersion !! 1%nat) in
      (Number_differ newMajor oldMajor = true -> JS.gt newMajor oldMajor = true) ->
      (Number_differ newMajor oldMajor = false ->
       Number_differ newMinor oldMinor = true -> JS.gt newMinor oldMinor = true) ->
      generateCommitMessage assetName current latest
      = JS.join (String "010" "")
          (messageLines assetName latest (firstDifferingKind current latest)))
  /\ generateCommitMessage "lib" "1.2.3" "1.3.0"
     = JS.join (String "010" "") (messageLines "lib" "1.3.0" minor)
  /\ generateCommitMessage "lib" "1.2.3" "2.0.0"
     = JS.join (String "010" "") (messageLines "lib" "2.0.0" major)
  /\ generateCommitMessage "lib" "1.2.3" "1.2.4"
     = JS.join (String "010" "") (messageLines "lib" "1.2.4" patch).
Proof.
  split; [| repeat split; reflexivity].
  intros assetName current latest cv lv newMajor oldMajor newMinor oldMinor Hmajor Hminor.
  unfold generateCommitMessage. do 2 f_equal.
  unfold updateKind, firstDifferingKind.
  fold cv lv. fold newMajor oldMajor newMinor oldMinor.
  destruct (Number_differ newMajor oldMajor) eqn:Dmajor.
  - now rewrite Hmajor.
  - rewrite (gt_same_false _ _ Dmajor).
    destruct (Number_differ newMinor oldMinor) eqn:Dminor.
    + now rewrite Hminor.
    + now rewrite (gt_same_false _ _ Dminor).
Qed.

Lemma gt_asym (x y : JS.Number) : JS.gt x y = true -> JS.gt y x = false.
Proof.
  destruct x as [|a|a], y as [|b|b]; simpl; try discriminate; try reflexivity.
  - intros H. apply Z.ltb_lt in H. apply Z.ltb_ge. lia.
  - now intros ->.
  - intros H. now apply negb_true_iff in H.
  - destruct a, b; simpl; intros; try discriminate; reflexivity.
Qed.

Lemma split_nonempty (sep : ascii) (s : string) :
  exists piece pieces, JS.split sep s = piece :: pieces.
Proof.
  destruct s as [|c rest]; simpl; [eauto |].
  destruct (Ascii.eqb c sep); [eauto |].
  destruct (JS.split sep rest); eauto.
Qed.

(** In a downgrade the first component of the latest version is not the
    greater one. *)
Lemma isDowngrade_major (current latest : string) :
  isDowngrade current latest = true ->
  JS.gt (JS.parseInt (JS.split "." latest !! 0%nat)) (JS.parseInt (JS.split "." current !! 0%nat))
  = false.
Proof.
  unfold isDowngrade.
  destruct (split_nonempty "." latest) as (l & ls & ->).
  destruct (split_nonempty "." current) as (c & cs & ->).
  cbn [componentsBelow lookup list_lookup].
  destruct (Number_differ _ _) eqn:Hdiffer.
  - apply gt_asym.
  - intros _. now apply gt_same_false.
Qed.

(** C10, as amended.  When the first dotted component of the latest
    version, parsed as an integer, is not strictly greater than that of the
    current version, and neither is the second, the message says patch.  So
    it does for every downgrade whose second component is not strictly
    greater (a downgrade is never major, and it is minor when its second
    component is the greater one), and for every pair in which, in each of
    the two positions, one side does not parse to a number. *)
Theorem generateCommitMessage_patch_otherwise
    (assetName current latest : string) :
  let currentVersion := JS.split "." current in
  let latestVersion := JS.split "." latest in
  let newMajor := JS.parseInt (latestVersion !! 0%nat) in
  let oldMajor := JS.parseInt (currentVersion !! 0%nat) in
  let newMinor := JS.parseInt (latestVersion !! 1%nat) in
  let oldMinor := JS.parseInt (currentVersion !! 1%nat) in
  (JS.gt newMajor oldMajor = false -> JS.gt newMinor oldMinor = false ->
   generateCommitMessage assetName current latest
   = JS.join (String "010" "") (messageLines assetName latest patch))
  /\ (isDowngrade current latest = true ->
      generateCommitMessage assetName current latest
      = JS.join (String "010" "")
          (messageLines assetName latest (if JS.gt newMinor oldMinor then minor else patch)))
  /\ ((newMajor = JS.NaN \/ oldMajor = JS.NaN) ->
      (newMinor = JS.NaN \/ oldMinor = JS.NaN) ->
      generateCommitMessage assetName current latest
      = JS.join (String "010" "") (messageLines assetName latest patch)).
Proof.
  intros cv lv newMajor oldMajor newMinor oldMinor.
  assert (Hrule : JS.gt newMajor oldMajor = false ->
                  generateCommitMessage assetName current latest
                  = JS.join (String "010" "")
                      (messageLines assetName latest
                         (if JS.gt newMinor oldMinor then minor else patch))).
  { intros Hmajor. unfold generateCommitMessage, updateKind.
    fold cv lv. fold newMajor oldMajor newMinor oldMinor.
    now rewrite Hmajor. }
  split; [| split].
  - intros Hmajor Hminor. rewrite (Hrule Hmajor), Hminor. reflexivity.
  - intros Hdown. apply Hrule. now apply isDowngrade_major.
  - intros Hmajor Hminor. rewrite Hrule.
    + replace (JS.gt newMinor oldMinor) with false; [reflexivity |].
      destruct Hminor as [-> | ->]; [reflexivity | now destruct newMinor].
    + destruct Hmajor as [-> | ->]; [reflexivity | now destruct newMajor].
Qed.

(** *** The asset extractor *)

Lemma startsWith_fork (p q q' s : string) (a b : ascii) :
  JS.startsWith (p +:+ String a q) s = true ->
  JS.startsWith (p +:+ String b q') s = true ->
  a = b.
Proof.
  revert s. induction p as [|c p IH]; intros [|d s]; simpl; try discriminate.
  - intros Ha Hb. apply andb_true_iff in Ha as [Ha _]. apply andb_true_iff in Hb as [Hb _].
    apply Ascii.eqb_eq in Ha, Hb. congruence.
  - intros Ha Hb. apply andb_true_iff in Ha as [_ Ha]. apply andb_true_iff in Hb as [_ Hb].
    eauto.
Qed.

Lemma cdn_origins_disjoint (url : string) :
  JS.startsWith "https://cdn.jsdelivr.net" url = true ->
  JS.startsWith "https://cdnjs.cloudflare.com" url = false.
Proof.
  intros Hj. destruct (JS.startsWith "https://cdnjs.cloudflare.com" url) eqn:Hc; [| reflexivity].
  pose proof (startsWith_fork "https://cdn" "jsdelivr.net" "s.cloudflare.com" url "." "j" Hj Hc).
  discriminate.
Qed.

Lemma pushAssets_discarded (tryGet : Element -> Result (option AssetVersionItem))
    (element : Element) (rest : list Element) (assets : list AssetVersionItem) :
  tryGet element = Ok None ->
  pushAssets tryGet (element :: rest) assets = pushAssets tryGet rest assets.
Proof. intros Hnull. cbn [pushAssets]. now rewrite Hnull. Qed.

Lemma tryGetScriptAsset_discarded (url : string) (attribute : option string) :
  (forall integrity, tryGetAsset url integrity = Ok None) ->
  tryGetScriptAsset {| el_link := url; el_integrity := attribute |} = Ok None.
Proof.
  intros Hnull. unfold tryGetScriptAsset. cbn [el_link el_integrity].
  destruct (negb (JS.truthy (Some url))); [reflexivity | apply Hnull].
Qed.

Lemma tryGetStyleAsset_discarded (url : string) (attribute : option string) :
  (forall integrity, tryGetAsset url integrity = Ok None) ->
  tryGetStyleAsset {| el_link := url; el_integrity := attribute |} = Ok None.
Proof.
  intros Hnull. unfold tryGetStyleAsset. cbn [el_link el_integrity].
  destruct (negb (JS.truthy (Some url))); [reflexivity | apply Hnull].
Qed.

(** What [findAssets] does with an element whose URL [tryGetAsset] turns
    down: nothing is pushed, in the script loop and in the style loop. *)
Lemma findAssets_pushes_nothing (url : string) :
  (forall integrity, tryGetAsset url integrity = Ok None) ->
  forall attribute rest assets,
    pushAssets tryGetScriptAsset ({| el_link := url; el_integrity := attribute |} :: rest) assets
    = pushAssets tryGetScriptAsset rest assets
    /\ pushAssets tryGetStyleAsset ({| el_link := url; el_integrity := attribute |} :: rest) assets
       = pushAssets tryGetStyleAsset rest assets.
Proof.
  intros Hnull attribute rest assets. split; apply pushAssets_discarded.
  - now apply tryGetScriptAsset_discarded.
  - now apply tryGetStyleAsset_discarded.
Qed.

(** C5.  A URL on the cdnjs origin whose path has fewer than 4 segments, and
    a URL on the jsdelivr origin whose second path segment does not split
    into exactly two parts on [@], is discarded: [extractAsset] and
    [tryGetAsset] return [null] and [findAssets] pushes nothing for it. *)
Theorem extractor_discards_short_paths
    (url pathname : string) (integrity : option string) :
  URL_pathname url = Some pathname ->
  let segments := JS.split "/" (JS.slice 1 pathname) in
  (JS.startsWith "https://cdnjs.cloudflare.com" url = true ->
   (List.length segments < 4)%nat ->
   extractAsset cdnjs url integrity = Ok None
   /\ tryGetAsset url integrity = Ok None
   /\ forall attribute rest assets,
        pushAssets tryGetScriptAsset
          ({| el_link := url; el_integrity := attribute |} :: rest) assets
        = pushAssets tryGetScriptAsset rest assets
        /\ pushAssets tryGetStyleAsset
             ({| el_link := url; el_integrity := attribute |} :: rest) assets
           = pushAssets tryGetStyleAsset rest assets)
  /\ (JS.startsWith "https://cdn.jsdelivr.net" url = true ->
      (forall second, segments !! 1%nat = Some second ->
                      List.length (JS.split "@" second) <> 2%nat) ->
      extractAsset jsdelivr url integrity = Ok None
      /\ tryGetAsset url integrity = Ok None
      /\ forall attribute rest assets,
           pushAssets tryGetScriptAsset
             ({| el_link := url; el_integrity := attribute |} :: rest) assets
           = pushAssets tryGetScriptAsset rest assets
           /\ pushAssets tryGetStyleAsset
                ({| el_link := url; el_integrity := attribute |} :: rest) assets
              = pushAssets tryGetStyleAsset rest assets).
Proof.
  intros Hpath segments. split.
  - intros Horigin Hshort.
    assert (Hextract : forall i, extractAsset cdnjs url i = Ok None).
    { intros i. unfold extractAsset. rewrite Hpath. fold segments.
      destruct (Nat.leb_spec 4 (List.length segments)); [lia | reflexivity]. }
    assert (Htry : forall i, tryGetAsset url i = Ok None).
    { intros i. unfold tryGetAsset, cdnMap. cbn [List.find fst]. rewrite Horigin.
      cbn [fmap option_fmap option_map snd].
      destruct (providerTruthy cdnjs); [apply Hextract | reflexivity]. }
    split; [apply Hextract |]. split; [apply Htry |].
    now apply findAssets_pushes_nothing.
  - intros Horigin Hsecond.
    assert (Hextract : forall i, extractAsset jsdelivr url i = Ok None).
    { intros i. unfold extractAsset. rewrite Hpath. fold segments.
      destruct (Nat.leb_spec 2 (List.length segments)) as [Hlen | Hlen]; [| reflexivity].
      destruct (segments !! 1%nat) as [second |] eqn:Hnth.
      - simpl. specialize (Hsecond second eq_refl).
        destruct (Nat.eqb_spec (List.length (JS.split "@" second)) 2); [contradiction | reflexivity].
      - apply lookup_ge_None in Hnth. lia. }
    assert (Htry : forall i, tryGetAsset url i = Ok None).
    { intros i. unfold tryGetAsset, cdnMap. cbn [List.find fst].
      rewrite (cdn_origins_disjoint url Horigin), Horigin.
      cbn [fmap option_fmap option_map snd].
      destruct (providerTruthy jsdelivr); [apply Hextract | reflexivity]. }
    split; [apply Hextract |]. split; [apply Htry |].
    now apply findAssets_pushes_nothing.
Qed.

(** *** The version reconciler *)

Lemma sameAsset_true `{IsAsset T, IsAsset U} (a : T) (asset : U) :
  sameAsset a asset = true <-> cdn a = cdn asset /\ name a = name asset.
Proof.
  unfold sameAsset, JS.str_eqb.
  rewrite andb_true_iff, !bool_decide_eq_true. reflexivity.
Qed.

Lemma Asset_eta (a : Asset) : {| asset_cdn := cdn a; asset_name := name a |} = a.
Proof. now destruct a. Qed.

Lemma existsb_sameAsset `{IsAsset U} (asset : U) (assets : list Asset) :
  existsb (fun a => sameAsset a asset) assets = true
  <-> {| asset_cdn := cdn asset; asset_name := name asset |} ∈ assets.
Proof.
  rewrite existsb_exists. split.
  - intros (a & Hin & Hsame). apply sameAsset_true in Hsame as [Hc Hn].
    apply list_elem_of_In in Hin. destruct a as [c n]; simpl in *. now subst.
  - intros Hin. eexists. split; [apply list_elem_of_In, Hin |].
    now apply sameAsset_true.
Qed.

Lemma fold_left_nested {A B K} (f : A -> B -> A) (m : list (K * list B)) (acc : A) :
  fold_left (fun acc '(_, xs) => fold_left f xs acc) m acc
  = fold_left f (List.concat (List.map snd m)) acc.
Proof.
  revert acc. induction m as [|[k xs] m IH]; intros acc; simpl; [reflexivity |].
  now rewrite fold_left_app, IH.
Qed.

Lemma elem_of_itemsOf (fam : FileAssetMap) (item : AssetVersionItem) :
  item ∈ itemsOf fam <-> exists file fileAssets, (file, fileAssets) ∈ fam /\ item ∈ fileAssets.
Proof.
  unfold itemsOf. induction fam as [|[file fileAssets] fam IH]; simpl.
  - split; [intros Hin; inversion Hin | intros (? & ? & Hin & _); inversion Hin].
  - rewrite elem_of_app, IH. split.
    + intros [Hin | (f & fa & Hin & Hitem)].
      * exists file, fileAssets. split; [left | exact Hin].
      * exists f, fa. split; [now right | exact Hitem].
    + intros (f & fa & Hin & Hitem). apply elem_of_cons in Hin as [Heq | Hin].
      * injection Heq as -> ->. now left.
      * right. now exists f, fa.
Qed.

(** The push-unless-present loop over the occurrences. *)
Lemma uniqueAssets_fold (items : list AssetVersionItem) (acc : list Asset) :
  let step := fun (assets : list Asset) (asset : AssetVersionItem) =>
                if negb (existsb (fun a => sameAsset a asset) assets)
                then assets ++ [ {| asset_cdn := cdn asset; asset_name := name asset |} ]
                else assets in
  (forall a, a ∈ fold_left step items acc
             <-> a ∈ acc \/ exists item, item ∈ items /\ cdn item = cdn a /\ name item = name a)
  /\ (NoDup acc -> NoDup (fold_left step items acc)).
Proof.
  intros step. revert acc. induction items as [|item items IH]; intros acc; simpl.
  - split; [| easy]. intros a. split; [now left |].
    intros [Hin | (? & Hin & _)]; [exact Hin | inversion Hin].
  - destruct (IH (step acc item)) as [IHin IHnodup]. split.
    + intros a. rewrite IHin. unfold step at 1.
      destruct (existsb (fun a0 => sameAsset a0 item) acc) eqn:Hex; simpl.
      * apply existsb_sameAsset in Hex. split.
        -- intros [Hin | (it & Hin & Hc & Hn)]; [now left | right].
           exists it. split; [now right | easy].
        -- intros [Hin | (it & Hin & Hc & Hn)]; [now left |].
           apply elem_of_cons in Hin as [-> | Hin].
           ++ left. destruct a as [c n]; simpl in *. now subst.
           ++ right. now exists it.
      * rewrite elem_of_app, list_elem_of_singleton. split.
        -- intros [[Hin | ->] | (it & Hin & Hc & Hn)].
           ++ now left.
           ++ right. exists item. split; [left | easy].
           ++ right. exists it. split; [now right | easy].
        -- intros [Hin | (it & Hin & Hc & Hn)]; [now left; left |].
           apply elem_of_cons in Hin as [-> | Hin].
           ++ left; right. destruct a as [c n]; simpl in *. now subst.
           ++ right. now exists it.
    + intros Hnodup. apply IHnodup. unfold step.
      destruct (existsb (fun a0 => sameAsset a0 item) acc) eqn:Hex; simpl; [exact Hnodup |].
      apply NoDup_app. repeat split; [exact Hnodup | | apply NoDup_singleton].
      intros a Hin Hin'. apply list_elem_of_singleton in Hin'. subst.
      pose proof (proj2 (existsb_sameAsset item acc) Hin). congruence.
Qed.

Lemma uniqueAssets_spec (fam : FileAssetMap) :
  (forall a : Asset, a ∈ uniqueAssets fam
      <-> exists item, item ∈ itemsOf fam /\ cdn item = cdn a /\ name item = name a)
  /\ NoDup (uniqueAssets fam).
Proof.
  unfold uniqueAssets. rewrite fold_left_nested. fold (itemsOf fam).
  destruct (uniqueAssets_fold (itemsOf fam) []) as [Hin Hnodup]. split.
  - intros a. rewrite Hin. split; [| now right].
    intros [Hnil | Hex]; [inversion Hnil | exact Hex].
  - apply Hnodup, NoDup_nil_2.
Qed.

Lemma existsb_version (version : string) (versions : list AssetVersion) :
  existsb (fun a => bool_decide (av_version a = Some version)) versions = true
  <-> exists v, v ∈ versions /\ av_version v = Some version.
Proof.
  rewrite existsb_exists. split.
  - intros (v & Hin & Hv). exists v. split; [now apply list_elem_of_In |].
    now apply bool_decide_eq_true in Hv.
  - intros (v & Hin & Hv). exists v. split; [now apply list_elem_of_In |].
    now apply bool_decide_eq_true.
Qed.

(** Every version recorded under a key was observed on an occurrence with
    that key, and every observed version is recorded under its key. *)
Lemma findVersions_spec (fam : FileAssetMap) :
  (forall key versions v,
      findVersions fam !! key = Some versions -> v ∈ versions ->
      exists item, item ∈ itemsOf fam /\ getKey item = key
                   /\ av_version v = Some (item_version item))
  /\ (forall item, item ∈ itemsOf fam ->
      exists versions v, findVersions fam !! getKey item = Some versions
                         /\ v ∈ versions /\ av_version v = Some (item_version item)).
Proof.
  unfold findVersions. rewrite fold_left_nested. fold (itemsOf fam).
  induction (itemsOf fam) as [|x seen [IHa IHb]] using rev_ind.
  - simpl. split.
    + intros key versions v Hlook. now rewrite lookup_empty in Hlook.
    + intros item Hin. inversion Hin.
  - rewrite fold_left_app. cbn [fold_left].
    set (m := fold_left _ seen ∅) in *.
    set (versions := default [] (m !! getKey x)).
    set (recorded := existsb (fun a => bool_decide (av_version a = Some (item_version x))) versions).
    assert (Hold : forall v, v ∈ versions ->
              exists item, item ∈ seen /\ getKey item = getKey x
                           /\ av_version v = Some (item_version item)).
    { intros v Hv. subst versions. destruct (m !! getKey x) as [vs |] eqn:Hm; simpl in Hv.
      - eapply IHa; eauto.
      - inversion Hv. }
    split.
    + intros key vs v Hlook Hv. rewrite lookup_insert in Hlook.
      destruct (decide (getKey x = key)) as [<- | Hne].
      * injection Hlook as <-.
        destruct recorded; cbn [negb] in Hv.
        -- destruct (Hold v Hv) as (item & Hin & Hkey & Hversion).
           exists item. rewrite elem_of_app. auto.
        -- apply elem_of_app in Hv as [Hv | Hv].
           ++ destruct (Hold v Hv) as (item & Hin & Hkey & Hversion).
              exists item. rewrite elem_of_app. auto.
           ++ apply list_elem_of_singleton in Hv. subst v.
              exists x. rewrite elem_of_app, list_elem_of_singleton. auto.
      * destruct (IHa key vs v Hlook Hv) as (item & Hin & Hkey & Hversion).
        exists item. rewrite elem_of_app. auto.
    + intros item Hin. rewrite lookup_insert.
      apply elem_of_app in Hin as [Hin | Hin].
      * destruct (IHb item Hin) as (vs & v & Hlook & Hv & Hversion).
        destruct (decide (getKey x = getKey item)) as [Heq | Hne].
        -- eexists _, v. split; [reflexivity |]. split; [| exact Hversion].
           assert (Hvs : v ∈ versions).
           { subst versions. rewrite Heq, Hlook. exact Hv. }
           destruct recorded; cbn [negb]; [exact Hvs | apply elem_of_app; now left].
        -- now exists vs, v.
      * apply list_elem_of_singleton in Hin. subst item.
        rewrite decide_True by reflexivity.
        destruct recorded eqn:Hrec; cbn [negb].
        -- apply existsb_version in Hrec as (v & Hv & Hversion).
           now exists versions, v.
        -- eexists _, _. split; [reflexivity |]. split.
           ++ apply elem_of_app. right. apply list_elem_of_singleton. reflexivity.
           ++ reflexivity.
Qed.

(** The inner loop of [findAssetsToUpdate], for one asset. *)
Lemma findAssetsToUpdate_inner (asset : Asset) (latestVersion : option string)
    (versions : list AssetVersion) (acc : list Asset) :
  let step := fun (assetsToUpdate : list Asset) (version : AssetVersion) =>
                if negb (bool_decide (av_version version = latestVersion)) then
                  if negb (existsb (fun a => sameAsset a asset) assetsToUpdate)
                  then assetsToUpdate ++ [ {| asset_cdn := cdn asset; asset_name := name asset |} ]
                  else assetsToUpdate
                else assetsToUpdate in
  (forall a, a ∈ fold_left step versions acc
             <-> a ∈ acc \/ (a = asset /\ exists v, v ∈ versions /\ av_version v <> latestVersion))
  /\ (NoDup acc -> NoDup (fold_left step versions acc)).
Proof.
  intros step. revert acc. induction versions as [|v versions IH]; intros acc; cbn [fold_left].
  - split; [| easy]. intros a. split; [now left |].
    intros [Hin | (_ & ? & Hin & _)]; [exact Hin | inversion Hin].
  - destruct (IH (step acc v)) as [IHin IHnodup].
    assert (Hstep : (forall a, a ∈ step acc v
                       <-> a ∈ acc \/ (a = asset /\ av_version v <> latestVersion))
                    /\ (NoDup acc -> NoDup (step acc v))).
    { unfold step. destruct (bool_decide_reflect (av_version v = latestVersion)) as [Heq | Hne];
        cbn [negb].
      - split; [| easy]. intros a. split; [now left | intros [Hin | [_ Hne]]; easy].
      - destruct (existsb (fun a => sameAsset a asset) acc) eqn:Hex; cbn [negb].
        + apply existsb_sameAsset in Hex. rewrite Asset_eta in Hex.
          split; [| easy]. intros a. split; [now left |].
          intros [Hin | [-> _]]; assumption.
        + rewrite Asset_eta. split.
          * intros a. rewrite elem_of_app, list_elem_of_singleton. split.
            -- intros [Hin | ->]; [now left | now right].
            -- intros [Hin | [-> _]]; [now left | now right].
          * intros Hnodup. apply NoDup_app. repeat split; [exact Hnodup | | apply NoDup_singleton].
            intros a Hin Hin'. apply list_elem_of_singleton in Hin'. subst a.
            assert (Hex' : existsb (fun a => sameAsset a asset) acc = true).
            { apply existsb_sameAsset. now rewrite Asset_eta. }
            congruence. }
    destruct Hstep as [Hstep_in Hstep_nodup]. split.
    + intros a. rewrite IHin, Hstep_in. split.
      * intros [[Hin | [-> Hne]] | [-> (v' & Hin & Hne)]].
        -- now left.
        -- right. split; [reflexivity |]. exists v. split; [left | exact Hne].
        -- right. split; [reflexivity |]. exists v'. split; [now right | exact Hne].
      * intros [Hin | [-> (v' & Hin & Hne)]]; [now left; left |].
        apply elem_of_cons in Hin as [-> | Hin].
        -- left; right. easy.
        -- right. split; [reflexivity |]. now exists v'.
    + intros Hnodup. apply IHnodup, Hstep_nodup, Hnodup.
Qed.

(** What [findAssetsToUpdate] returns: the assets of the list that have a
    recorded version different from [assetLatestVersions[key]], once each. *)
Lemma findAssetsToUpdate_spec (assets : list Asset)
    (assetLatestVersions : gmap string string)
    (assetVersions : gmap string (list AssetVersion)) :
  (forall a, a ∈ findAssetsToUpdate assets assetLatestVersions assetVersions
      <-> a ∈ assets
          /\ exists versions v, assetVersions !! getKey a = Some versions /\ v ∈ versions
                                /\ av_version v <> assetLatestVersions !! getKey a)
  /\ NoDup (findAssetsToUpdate assets assetLatestVersions assetVersions).
Proof.
  unfold findAssetsToUpdate.
  set (body := fun (assetsToUpdate : list Asset) (asset : Asset) => _).
  assert (Hgen : forall acc,
    (forall a, a ∈ fold_left body assets acc
       <-> a ∈ acc
           \/ (a ∈ assets
               /\ exists versions v, assetVersions !! getKey a = Some versions /\ v ∈ versions
                                     /\ av_version v <> assetLatestVersions !! getKey a))
    /\ (NoDup acc -> NoDup (fold_left body assets acc))).
  { induction assets as [|asset assets IH]; intros acc; cbn [fold_left].
    - split; [| easy]. intros a. split; [now left |].
      intros [Hin | [Hin _]]; [exact Hin | inversion Hin].
    - destruct (IH (body acc asset)) as [IHin IHnodup].
      assert (Hbody : (forall a, a ∈ body acc asset
                 <-> a ∈ acc
                     \/ (a = asset
                         /\ exists versions v, assetVersions !! getKey a = Some versions
                              /\ v ∈ versions
                              /\ av_version v <> assetLatestVersions !! getKey a))
               /\ (NoDup acc -> NoDup (body acc asset))).
      { unfold body. destruct (assetVersions !! getKey asset) as [versions |] eqn:Hversions.
        - destruct (findAssetsToUpdate_inner asset (assetLatestVersions !! getKey asset)
                      versions acc) as [Hin Hnodup].
          split; [| exact Hnodup]. intros a. rewrite Hin. split.
          + intros [Hacc | [-> (v & Hv & Hne)]]; [now left | right].
            split; [reflexivity |]. now exists versions, v.
          + intros [Hacc | [-> (vs & v & Hlook & Hv & Hne)]]; [now left | right].
            split; [reflexivity |]. rewrite Hversions in Hlook. injection Hlook as <-.
            now exists v.
        - split; [| easy]. intros a. split; [now left |].
          intros [Hacc | [-> (vs & v & Hlook & _)]]; [exact Hacc | congruence]. }
      destruct Hbody as [Hbody_in Hbody_nodup]. split.
      + intros a. rewrite IHin, Hbody_in. rewrite elem_of_cons. tauto.
      + intros Hnodup. apply IHnodup, Hbody_nodup, Hnodup. }
  destruct (Hgen []) as [Hin Hnodup]. split.
  - intros a. rewrite Hin. split; [| now right].
    intros [Hnil | H]; [inversion Hnil | exact H].
  - apply Hnodup, NoDup_nil_2.
Qed.

Lemma key_text_inj (p1 p2 n1 n2 : string) :
  hasDash p1 = false -> hasDash p2 = false ->
  p1 +:+ "-" +:+ n1 = p2 +:+ "-" +:+ n2 -> p1 = p2 /\ n1 = n2.
Proof.
  revert p2. induction p1 as [|c p1 IH]; intros [|d p2]; cbn; intros H1 H2 Heq.
  - injection Heq as Heq. easy.
  - injection Heq as Hd _. subst d. now rewrite Ascii.eqb_refl in H2.
  - injection Heq as Hc _. subst c. now rewrite Ascii.eqb_refl in H1.
  - apply orb_false_iff in H1 as [_ H1]. apply orb_false_iff in H2 as [_ H2].
    injection Heq as Hc Heq. subst d. destruct (IH p2 H1 H2 Heq) as [Hp Hn]. now subst.
Qed.

(** [getKey] tells two assets apart as soon as the two providers print
    differently and without a dash. *)
Lemma getKey_inj `{IsAsset T, IsAsset U} (a : T) (b : U) :
  providerText cdnjs <> providerText jsdelivr ->
  (forall provider, hasDash (providerText provider) = false) ->
  getKey a = getKey b -> cdn a = cdn b /\ name a = name b.
Proof.
  intros Hdistinct Hdash Hkey. unfold getKey in Hkey.
  apply key_text_inj in Hkey as [Hprovider Hname]; [| apply Hdash ..].
  split; [| exact Hname].
  destruct (cdn a), (cdn b); congruence.
Qed.

(** C1.  For an asset whose latest version was resolved (it has an entry in
    [assetLatestVersions]), the stale set holds the asset exactly when some
    occurrence of it in a scanned file has another version; and no asset is
    in the stale set twice. *)
Theorem stale_iff_outdated_version_observed
    (fileAssetMap : FileAssetMap) (assetLatestVersions : gmap string string) :
  providerText cdnjs <> providerText jsdelivr ->
  (forall provider, hasDash (providerText provider) = false) ->
  let assetsToUpdate :=
    findAssetsToUpdate (uniqueAssets fileAssetMap) assetLatestVersions
      (findVersions fileAssetMap) in
  (forall (asset : Asset) (latest : string),
      assetLatestVersions !! getKey asset = Some latest ->
      (asset ∈ assetsToUpdate
       <-> exists file fileAssets item,
             (file, fileAssets) ∈ fileAssetMap /\ item ∈ fileAssets
             /\ cdn item = cdn asset /\ name item = name asset
             /\ item_version item <> latest))
  /\ NoDup assetsToUpdate.
Proof.
  intros Hdistinct Hdash assetsToUpdate.
  destruct (findAssetsToUpdate_spec (uniqueAssets fileAssetMap) assetLatestVersions
              (findVersions fileAssetMap)) as [Hstale Hnodup].
  destruct (uniqueAssets_spec fileAssetMap) as [Hunique _].
  destruct (findVersions_spec fileAssetMap) as [Hrecorded Hobserved].
  split; [| exact Hnodup].
  intros asset latest Hlatest. unfold assetsToUpdate. rewrite Hstale, Hlatest. split.
  - intros (_ & versions & v & Hlook & Hv & Hne).
    destruct (Hrecorded _ _ _ Hlook Hv) as (item & Hin & Hkey & Hversion).
    apply elem_of_itemsOf in Hin as (file & fileAssets & Hfile & Hitem).
    apply getKey_inj in Hkey as [Hcdn Hname]; [| assumption ..].
    exists file, fileAssets, item. repeat split; try assumption. congruence.
  - intros (file & fileAssets & item & Hfile & Hitem & Hcdn & Hname & Hne).
    assert (Hin : item ∈ itemsOf fileAssetMap) by (apply elem_of_itemsOf; eauto).
    split; [apply Hunique; eauto |].
    destruct (Hobserved item Hin) as (versions & v & Hlook & Hv & Hversion).
    exists versions, v.
    replace (getKey asset) with (getKey item) by (unfold getKey; now rewrite Hcdn, Hname).
    repeat split; try assumption. congruence.
Qed.

(** What the loop does for an asset whose lookup left no entry: every
    observed asset without a resolved latest version is in the stale set. *)
Lemma unresolved_asset_is_stale
    (fileAssetMap : FileAssetMap) (assetLatestVersions : gmap string string) (asset : Asset) :
  asset ∈ uniqueAssets fileAssetMap ->
  assetLatestVersions !! getKey asset = None ->
  asset ∈ findAssetsToUpdate (uniqueAssets fileAssetMap) assetLatestVersions
            (findVersions fileAssetMap).
Proof.
  intros Hasset Hnone.
  apply findAssetsToUpdate_spec. split; [exact Hasset |].
  apply uniqueAssets_spec in Hasset as (item & Hin & Hcdn & Hname).
  destruct (proj2 (findVersions_spec fileAssetMap) item Hin) as (versions & v & Hlook & Hv & Hversion).
  exists versions, v.
  assert (Hkey : getKey asset = getKey item) by (unfold getKey; now rewrite Hcdn, Hname).
  rewrite Hkey in *.
  repeat split; try assumption. congruence.
Qed.

(** *** The update applier *)

Lemma isCandidate_true (assetUpdate : AssetVersion) (a : AssetVersionItem) :
  isCandidate assetUpdate a = true
  <-> cdn a = cdn assetUpdate /\ name a = name assetUpdate
      /\ Some (item_version a) <> av_version assetUpdate.
Proof.
  unfold isCandidate, JS.str_eqb.
  rewrite !andb_true_iff, negb_true_iff, !bool_decide_eq_true, bool_decide_eq_false.
  tauto.
Qed.

Lemma filter_filter_implied {A} (f g : A -> bool) (l : list A) :
  (forall x, f x = true -> g x = true) ->
  List.filter f (List.filter g l) = List.filter f l.
Proof.
  intros Himp. induction l as [|x l IH]; simpl; [reflexivity |].
  destruct (g x) eqn:Hg; simpl.
  - now rewrite IH.
  - destruct (f x) eqn:Hf; [| exact IH]. apply Himp in Hf. congruence.
Qed.

Lemma patchOccurrence_skip (cdnFiles : list CdnFile) (p : Patch) (a : AssetVersionItem) :
  replaceable cdnFiles (patch_content p) a = false -> patchOccurrence cdnFiles p a = p.
Proof.
  unfold replaceable, patchOccurrence.
  destruct (List.find _ cdnFiles); [| reflexivity].
  now intros ->.
Qed.

Lemma patchOccurrences_skip (cdnFiles : list CdnFile) (p : Patch)
    (candidates : list AssetVersionItem) :
  (forall a, a ∈ candidates -> replaceable cdnFiles (patch_content p) a = false) ->
  fold_left (patchOccurrence cdnFiles) candidates p = p.
Proof.
  induction candidates as [|a candidates IH]; intros Hskip; simpl; [reflexivity |].
  rewrite patchOccurrence_skip by (apply Hskip; left).
  apply IH. intros b Hb. apply Hskip. now right.
Qed.

(** A file in which no candidate can be replaced is read and left alone. *)
Lemma patchFile_untouched (assetUpdate : AssetVersion) (cdnFiles : list CdnFile)
    (filesUpdated : nat) (lowestVersion file content : string)
    (fileAssets : list AssetVersionItem) (w : World) :
  files w !! file = Some content ->
  (forall a, a ∈ fileAssets -> isCandidate assetUpdate a = true ->
             replaceable cdnFiles content a = false) ->
  patchFile assetUpdate cdnFiles (filesUpdated, lowestVersion) (file, fileAssets) w
  = (Ok (filesUpdated, lowestVersion), w).
Proof.
  intros Hread Hskip. unfold patchFile, bind, readFileSync. rewrite Hread.
  rewrite patchOccurrences_skip; [reflexivity |].
  cbn [patch_content]. intros a Ha.
  apply list_elem_of_In, filter_In in Ha as [Ha Hcandidate].
  apply Hskip; [now apply list_elem_of_In | exact Hcandidate].
Qed.

(** The three ways one iteration of the file loop can end. *)
Lemma patchFile_cases (assetUpdate : AssetVersion) (cdnFiles : list CdnFile)
    (filesUpdated : nat) (lowestVersion file : string)
    (fileAssets : list AssetVersionItem) (w : World) :
  let run := patchFile assetUpdate cdnFiles (filesUpdated, lowestVersion) (file, fileAssets) w in
  (exists error, run = (Throw error, w))
  \/ (exists lowest, run = (Ok (filesUpdated, lowest), w))
  \/ (exists lowest content,
        run = (Ok (S filesUpdated, lowest),
               {| files := <[file := content]> (files w); events := events w |})).
Proof.
  unfold patchFile, bind, readFileSync.
  destruct (files w !! file) as [content |]; [| left; eauto].
  destruct (patch_dirty _); [right; right | right; left]; eauto.
Qed.

Lemma forEach_app {A S} (body : S -> A -> M S) (s : S) (xs ys : list A) (w : World) :
  forEach body s (xs ++ ys) w
  = (let* s' := forEach body s xs in forEach body s' ys) w.
Proof.
  revert s w. induction xs as [|x xs IH]; intros s w; simpl.
  - reflexivity.
  - unfold bind. destruct (body s x w) as [[s' | e] w']; [| reflexivity].
    rewrite IH. reflexivity.
Qed.

(** The file loop adds no event, writes only files of the map, never
    lowers the counter, and leaves the world as it is when the counter
    stays. *)
Lemma patchFiles_frame (assetUpdate : AssetVersion) (cdnFiles : list CdnFile)
    (fileAssetMap : FileAssetMap) :
  forall (filesUpdated : nat) (lowestVersion : string) (w : World),
    let run := forEach (patchFile assetUpdate cdnFiles) (filesUpdated, lowestVersion)
                 fileAssetMap w in
    events (snd run) = events w
    /\ (forall path, path ∉ List.map fst fileAssetMap ->
                     files (snd run) !! path = files w !! path)
    /\ (forall n lowest, fst run = Ok (n, lowest) ->
                         (filesUpdated <= n)%nat /\ (n = filesUpdated -> snd run = w)).
Proof.
  induction fileAssetMap as [|[file fileAssets] rest IH]; intros filesUpdated lowestVersion w.
  - simpl. repeat split; try reflexivity;
      match goal with Hok : Ok _ = Ok _ |- _ => injection Hok as <- _ end; lia.
  - cbn [forEach List.map fst]. unfold bind.
    destruct (patchFile_cases assetUpdate cdnFiles filesUpdated lowestVersion file fileAssets w)
      as [(error & ->) | [(lowest & ->) | (lowest & content & ->)]].
    + simpl. repeat split; try reflexivity; discriminate.
    + destruct (IH filesUpdated lowest w) as (Hevents & Hfiles & Hcount).
      split; [exact Hevents |]. split.
      * intros path Hpath. apply Hfiles. intros Hin. apply Hpath. now right.
      * exact Hcount.
    + set (w1 := {| files := <[file := content]> (files w); events := events w |}).
      destruct (IH (S filesUpdated) lowest w1) as (Hevents & Hfiles & Hcount).
      split; [exact Hevents |]. split.
      * intros path Hpath. rewrite Hfiles by (intros Hin; apply Hpath; now right).
        apply lookup_insert_ne. intros ->. apply Hpath. now left.
      * intros n final Hok. apply Hcount in Hok. lia.
Qed.

(** C6, as amended.  An occurrence at the target version is never selected
    for replacement: the occurrences a file is patched for are exactly
    those of the asset's (cdn, name) whose version differs from the target
    version, the file loop does the same with or without the others, and a
    file all of whose occurrences of the asset are at the target version
    is read and not written. *)
Theorem occurrence_at_latest_version_never_candidate
    (assetUpdate : AssetVersion) (cdnFiles : list CdnFile) :
  (forall (fileAssets : list AssetVersionItem) (a : AssetVersionItem),
      a ∈ List.filter (isCandidate assetUpdate) fileAssets
      <-> a ∈ fileAssets /\ cdn a = cdn assetUpdate /\ name a = name assetUpdate
          /\ Some (item_version a) <> av_version assetUpdate)
  /\ (forall (fileAssets : list AssetVersionItem) (a : AssetVersionItem),
        Some (item_version a) = av_version assetUpdate ->
        a ∉ List.filter (isCandidate assetUpdate) fileAssets)
  /\ (forall state file (fileAssets : list AssetVersionItem) (w : World),
        patchFile assetUpdate cdnFiles state (file, fileAssets) w
        = patchFile assetUpdate cdnFiles state
            (file, List.filter
                     (fun a => negb (bool_decide (Some (item_version a) = av_version assetUpdate)))
                     fileAssets) w)
  /\ (forall state file content (fileAssets : list AssetVersionItem) (w : World),
        files w !! file = Some content ->
        (forall a, a ∈ fileAssets -> cdn a = cdn assetUpdate -> name a = name assetUpdate ->
                   Some (item_version a) = av_version assetUpdate) ->
        patchFile assetUpdate cdnFiles state (file, fileAssets) w = (Ok state, w)).
Proof.
  assert (Hfilter : forall fileAssets a,
            a ∈ List.filter (isCandidate assetUpdate) fileAssets
            <-> a ∈ fileAssets /\ cdn a = cdn assetUpdate /\ name a = name assetUpdate
                /\ Some (item_version a) <> av_version assetUpdate).
  { intros fileAssets a.
    rewrite list_elem_of_In, filter_In, isCandidate_true, <- list_elem_of_In. reflexivity. }
  split; [exact Hfilter |]. split; [| split].
  - intros fileAssets a Hlatest Hin. apply Hfilter in Hin. tauto.
  - intros [filesUpdated lowestVersion] file fileAssets w.
    unfold patchFile. rewrite filter_filter_implied; [reflexivity |].
    intros a Ha. unfold isCandidate in Ha. now apply andb_true_iff in Ha as [_ Ha].
  - intros [filesUpdated lowestVersion] file content fileAssets w Hread Hcurrent.
    apply (patchFile_untouched _ _ _ _ _ content); [exact Hread |].
    intros a Ha Hcandidate. apply isCandidate_true in Hcandidate as (Hcdn & Hname & Hversion).
    now destruct Hversion; apply Hcurrent.
Qed.

(** C7.  When the file loop ends without having modified a file,
    [applyAssetUpdate] returns [null] without an error and without having
    run [git] or touched a file, and the caller records no update and
    opens no pull request: the world is as before. *)
Theorem no_file_modified_no_branch_no_pull_request
    (base : string) (fileAssetMap : FileAssetMap) (assetUpdate : AssetVersion)
    (cdnFiles : list CdnFile) (w w' : World) (lowestVersion : string) :
  patchFiles fileAssetMap assetUpdate cdnFiles w = (Ok (0%nat, lowestVersion), w') ->
  applyAssetUpdate base fileAssetMap assetUpdate cdnFiles w = (Ok None, w)
  /\ forall result,
       publishUpdate base fileAssetMap assetUpdate cdnFiles result w = (Ok result, w).
Proof.
  intros Hloop.
  assert (Hsame : w' = w).
  { destruct (patchFiles_frame assetUpdate cdnFiles fileAssetMap 0 "0.0.0" w)
      as (_ & _ & Hcount).
    unfold patchFiles in Hloop. rewrite Hloop in Hcount.
    now apply (Hcount 0%nat lowestVersion). }
  subst w'.
  assert (Happly : applyAssetUpdate base fileAssetMap assetUpdate cdnFiles w = (Ok None, w)).
  { unfold applyAssetUpdate, bind at 1. now rewrite Hloop. }
  split; [exact Happly |].
  intros result. unfold publishUpdate, bind. now rewrite Happly.
Qed.

(** C8.  A file none of whose candidates can be replaced (its text lacks
    the URL, or the listing lacks the file name) contributes nothing to the
    file loop: the loop counts and writes as if the file were not in the
    map, and the file's content is still the same afterwards. *)
Theorem file_without_stale_url_left_unmodified
    (assetUpdate : AssetVersion) (cdnFiles : list CdnFile)
    (before after : FileAssetMap) (file content : string)
    (fileAssets : list AssetVersionItem) (w : World) :
  file ∉ List.map fst (before ++ after) ->
  files w !! file = Some content ->
  (forall a, a ∈ fileAssets -> isCandidate assetUpdate a = true ->
             replaceable cdnFiles content a = false) ->
  patchFiles (before ++ (file, fileAssets) :: after) assetUpdate cdnFiles w
  = patchFiles (before ++ after) assetUpdate cdnFiles w
  /\ files (snd (patchFiles (before ++ (file, fileAssets) :: after) assetUpdate cdnFiles w))
       !! file = Some content.
Proof.
  intros Hfresh Hread Hskip.
  assert (Hsame : patchFiles (before ++ (file, fileAssets) :: after) assetUpdate cdnFiles w
                  = patchFiles (before ++ after) assetUpdate cdnFiles w).
  { unfold patchFiles. rewrite !forEach_app. unfold bind.
    destruct (patchFiles_frame assetUpdate cdnFiles before 0 "0.0.0" w) as (_ & Hfiles & _).
    destruct (forEach (patchFile assetUpdate cdnFiles) (0%nat, "0.0.0") before w)
      as [[[n lowest] | error] w1]; [| reflexivity].
    cbn [forEach]. unfold bind.
    rewrite (patchFile_untouched assetUpdate cdnFiles n lowest file content); try assumption.
    - reflexivity.
    - cbn [snd] in Hfiles. rewrite Hfiles; [exact Hread |].
      intros Hin. apply Hfresh. rewrite map_app, elem_of_app. now left. }
  split; [exact Hsame |].
  rewrite Hsame.
  destruct (patchFiles_frame assetUpdate cdnFiles (before ++ after) 0 "0.0.0" w)
    as (_ & Hfiles & _).
  unfold patchFiles. rewrite Hfiles; assumption.
Qed.

(** *** What [lowestVersion] tracks *)

Lemma JS_lt_irrefl (s : string) : JS.lt s s = false.
Proof.
  induction s as [|c s IH]; simpl; [reflexivity |].
  now rewrite Nat.ltb_irrefl.
Qed.

(** [s <= t] and [t <= u] give [s <= u], where [s <= t] is [!(t < s)]. *)
Lemma JS_lt_false_trans (s t u : string) :
  JS.lt t s = false -> JS.lt u t = false -> JS.lt u s = false.
Proof.
  revert t u. induction s as [|a s IH]; intros [|b t] [|c u]; simpl;
    try reflexivity; try discriminate.
  destruct (Nat.ltb_spec (nat_of_ascii b) (nat_of_ascii a)); [discriminate |].
  destruct (Nat.ltb_spec (nat_of_ascii a) (nat_of_ascii b));
    destruct (Nat.ltb_spec (nat_of_ascii c) (nat_of_ascii b)); try discriminate;
    destruct (Nat.ltb_spec (nat_of_ascii b) (nat_of_ascii c));
    destruct (Nat.ltb_spec (nat_of_ascii c) (nat_of_ascii a)); try lia;
    destruct (Nat.ltb_spec (nat_of_ascii a) (nat_of_ascii c)); try lia;
    try reflexivity; try (intros _ _; reflexivity); try (intros _; assumption).
  apply IH.
Qed.

Lemma JS_lt_asym (s t : string) : JS.lt s t = true -> JS.lt t s = false.
Proof.
  revert t. induction s as [|a s IH]; intros [|b t]; simpl; try reflexivity; try discriminate.
  destruct (Nat.ltb_spec (nat_of_ascii a) (nat_of_ascii b));
    destruct (Nat.ltb_spec (nat_of_ascii b) (nat_of_ascii a));
    try lia; try discriminate; try reflexivity.
  apply IH.
Qed.

(** A replaced occurrence leaves [lowestVersion] no lower than its own
    version and no lower than it was. *)
Lemma patchOccurrence_raises (cdnFiles : list CdnFile) (p : Patch) (a : AssetVersionItem) :
  JS.lt (patch_lowestVersion (patchOccurrence cdnFiles p a)) (patch_lowestVersion p) = false
  /\ (replaceable cdnFiles (patch_content p) a = true ->
      JS.lt (patch_lowestVersion (patchOccurrence cdnFiles p a)) (item_version a) = false).
Proof.
  unfold patchOccurrence, replaceable.
  destruct (List.find _ cdnFiles); [| split; [apply JS_lt_irrefl | discriminate]].
  destruct (JS.includes (patch_content p) (item_url a)); [| split; [apply JS_lt_irrefl | discriminate]].
  cbn [patch_lowestVersion].
  destruct (JS.lt (patch_lowestVersion p) (item_version a)) eqn:Hlt.
  - split; [now apply JS_lt_asym | intros _; apply JS_lt_irrefl].
  - split; [apply JS_lt_irrefl | intros _; exact Hlt].
Qed.

(** Through the inner loop [lowestVersion] only goes up: it ends as the
    highest version replaced, or as it started. *)
Lemma lowestVersion_never_decreases (cdnFiles : list CdnFile)
    (candidates : list AssetVersionItem) (p : Patch) :
  JS.lt (patch_lowestVersion (fold_left (patchOccurrence cdnFiles) candidates p))
        (patch_lowestVersion p) = false.
Proof.
  revert p. induction candidates as [|a candidates IH]; intros p; cbn [fold_left].
  - apply JS_lt_irrefl.
  - eapply JS_lt_false_trans; [apply (patchOccurrence_raises cdnFiles p a) | apply IH].
Qed.

(** *** Traces *)

Lemma adds_ret {A} (P : Event -> Prop) (a : A) : adds P (ret a).
Proof. intros w. exists []. split; [symmetry; apply app_nil_r | constructor]. Qed.

Lemma adds_throw {A} (P : Event -> Prop) (error : string) : adds P (@throw A error).
Proof. intros w. exists []. split; [symmetry; apply app_nil_r | constructor]. Qed.

Lemma adds_bind {A B} (P : Event -> Prop) (c : M A) (k : A -> M B) :
  adds P c -> (forall a, adds P (k a)) -> adds P (bind c k).
Proof.
  intros Hc Hk w. unfold bind. destruct (Hc w) as (added & Hevents & HP).
  destruct (c w) as [[a | error] w1]; cbn [snd] in *.
  - destruct (Hk a w1) as (added' & Hevents' & HP').
    exists (added ++ added'). split.
    + rewrite Hevents', Hevents. symmetry. apply app_assoc.
    + now apply Forall_app.
  - now exists added.
Qed.

Lemma adds_when (P : Event -> Prop) (b : bool) (c : M unit) :
  adds P c -> adds P (when b c).
Proof. destruct b; [easy | intros _; apply adds_ret]. Qed.

Lemma adds_execGit (P : Event -> Prop) (args : list string) (ignoreErrors : bool) :
  P (EvGit args) -> adds P (execGit args ignoreErrors).
Proof.
  intros HP w. exists [EvGit args]. split; [| now repeat constructor].
  unfold execGit.
  destruct (exec_rejected _); [reflexivity |].
  destruct (_ && _); reflexivity.
Qed.

Lemma adds_patchFiles (P : Event -> Prop) (fileAssetMap : FileAssetMap)
    (assetUpdate : AssetVersion) (cdnFiles : list CdnFile) :
  adds P (patchFiles fileAssetMap assetUpdate cdnFiles).
Proof.
  intros w. exists []. split; [| constructor].
  rewrite app_nil_r. apply patchFiles_frame.
Qed.

Create HintDb trace.
#[local] Hint Resolve adds_ret adds_throw adds_when adds_execGit adds_patchFiles : trace.

Ltac trace_steps :=
  repeat first [ apply adds_ret
               | apply adds_throw
               | apply adds_patchFiles
               | apply adds_execGit; reflexivity
               | apply adds_when
               | apply adds_bind; [| intros ?] ].


(** *** A git that can be run *)

Lemma bind_ok {A B} (c : M A) (k : A -> M B) (a : A) (w w' : World) :
  c w = (Ok a, w') -> bind c k w = k a w'.
Proof. intros Hc. unfold bind. now rewrite Hc. Qed.

(** A command that is not rejected succeeds when it writes nothing to the
    error stream, or when errors are ignored. *)
Lemma execGit_succeeds (args : list string) (ignoreErrors : bool) (w : World) :
  exec_rejected (exec_git args ignoreErrors w) = None ->
  (ignoreErrors = false -> exec_stderr (exec_git args ignoreErrors w) = "") ->
  execGit args ignoreErrors w
  = (Ok (JS.trimEnd (exec_stdout (exec_git args ignoreErrors w))),
     {| files := exec_files (exec_git args ignoreErrors w);
        events := events w ++ [EvGit args] |}).
Proof.
  intros Hrejected Hstderr. unfold execGit. rewrite Hrejected.
  destruct ignoreErrors; [now rewrite andb_false_r |].
  now rewrite Hstderr.
Qed.

(** Membership in a trace that is written out, and the steps of a run whose
    commands are not rejected ([Hrun]) and, unless tolerated, write nothing
    to the error stream ([Hsilent]). *)
Ltac in_trace :=
  cbn [app]; repeat first [ apply list_elem_of_here | apply list_elem_of_further ].

Ltac git_steps Hrun Hsilent :=
  repeat (rewrite execGit_succeeds
            by (first [ apply Hrun; in_trace
                      | discriminate
                      | intros _; apply Hsilent; [in_trace | reflexivity] ]);
          cbv iota beta).


(** *** The file loop when there is something to replace *)









(** ** Further properties *)

Set Default Proof Using "Type*".

(** [tauto] on the propositions at hand: the answers of the outside, which
    are functions and not hypotheses, are set aside first. *)
Ltac tauto_props :=
  repeat match goal with
         | f : ?T |- _ =>
             lazymatch type of T with
             | Prop => fail
             | _ => clear f
             end
         end;
  tauto.

(** *** Splitting and joining *)

Lemma split_cons (sep : ascii) (s : string) :
  exists piece pieces, JS.split sep s = piece :: pieces.
Proof.
  induction s as [|c s (piece & pieces & IH)]; simpl; [eauto |].
  destruct (Ascii.eqb c sep); [eauto |]. rewrite IH. eauto.
Qed.

Lemma split_no_sep (sep : ascii) (s : string) :
  hasChar sep s = false -> JS.split sep s = [s].
Proof.
  induction s as [|c s IH]; simpl; [reflexivity |].
  intros Hfree. apply orb_false_iff in Hfree as [Hc Hs].
  now rewrite Hc, IH.
Qed.

Lemma split_app_sep (sep : ascii) (s t : string) :
  hasChar sep s = false ->
  JS.split sep (s +:+ String sep t) = s :: JS.split sep t.
Proof.
  induction s as [|c s IH]; simpl.
  - intros _. now rewrite Ascii.eqb_refl.
  - intros Hfree. apply orb_false_iff in Hfree as [Hc Hs].
    now rewrite Hc, IH.
Qed.

Lemma join_split (sep : ascii) (s : string) :
  JS.join (String sep "") (JS.split sep s) = s.
Proof.
  induction s as [|c s IH]; simpl; [reflexivity |].
  destruct (Ascii.eqb_spec c sep) as [-> | Hne].
  - destruct (split_cons sep s) as (piece & pieces & Hsplit).
    rewrite Hsplit in *. cbn. now rewrite <- IH.
  - destruct (split_cons sep s) as (piece & pieces & Hsplit).
    rewrite Hsplit in *. destruct pieces as [|next pieces]; cbn in *; now rewrite <- IH.
Qed.

Lemma append_cons_assoc (s t u : string) (c d : ascii) :
  s +:+ String c (t +:+ String d u) = (s +:+ String c t) +:+ String d u.
Proof.
  induction s as [|a s IH]; [reflexivity |].
  change (String a (s +:+ String c (t +:+ String d u))
          = String a ((s +:+ String c t) +:+ String d u)).
  now rewrite IH.
Qed.

(** *** The asset extractor *)

(** X1.  A cdnjs URL whose path is [/<root>/<libs>/<name>/<version>/<file>]
    is decomposed into exactly that name, that version and that file path
    (slashes in the file path included), with the URL and the integrity
    value carried over; a path that stops after the version is accepted too,
    with an empty file name. *)
Theorem extractAsset_cdnjs_decomposes
    (url root libs name version file : string) (integrity : option string) :
  hasChar "/" root = false -> hasChar "/" libs = false ->
  hasChar "/" name = false -> hasChar "/" version = false ->
  (URL_pathname url
   = Some ("/" +:+ root +:+ "/" +:+ libs +:+ "/" +:+ name +:+ "/" +:+ version +:+ "/" +:+ file) ->
   extractAsset cdnjs url integrity
   = Ok (Some {| item_cdn := cdnjs; item_name := name; item_version := version;
                 item_url := url; item_integrity := integrity; item_fileName := file |}))
  /\ (URL_pathname url
      = Some ("/" +:+ root +:+ "/" +:+ libs +:+ "/" +:+ name +:+ "/" +:+ version) ->
      extractAsset cdnjs url integrity
      = Ok (Some {| item_cdn := cdnjs; item_name := name; item_version := version;
                    item_url := url; item_integrity := integrity; item_fileName := "" |})).
Proof.
  intros Hroot Hlibs Hname Hversion. split; intros Hpath; unfold extractAsset; rewrite Hpath.
  - change (JS.slice 1 ("/" +:+ root +:+ "/" +:+ libs +:+ "/" +:+ name +:+ "/" +:+ version
                        +:+ "/" +:+ file))
      with (root +:+ String "/" (libs +:+ String "/" (name +:+ String "/"
              (version +:+ String "/" file)))).
    rewrite !split_app_sep by assumption.
    destruct (split_cons "/" file) as (piece & pieces & Hsplit).
    pose proof (join_split "/" file) as Hjoin.
    rewrite Hsplit in *. unfold JS.slice_array.
    cbn [List.length Nat.leb lookup list_lookup from_option id skipn].
    now rewrite Hjoin.
  - change (JS.slice 1 ("/" +:+ root +:+ "/" +:+ libs +:+ "/" +:+ name +:+ "/" +:+ version))
      with (root +:+ String "/" (libs +:+ String "/" (name +:+ String "/" version))).
    rewrite !split_app_sep by assumption. rewrite (split_no_sep "/" version) by assumption.
    reflexivity.
Qed.

(** X2.  A jsdelivr URL whose path is [/<root>/<name>@<version>/<file>] is
    decomposed into that name and that version, and its file name is the
    file path with a leading slash; a path that stops after the package
    segment is accepted with the file name [/]. *)
Theorem extractAsset_jsdelivr_decomposes
    (url root name version file : string) (integrity : option string) :
  hasChar "/" root = false -> hasChar "/" name = false -> hasChar "/" version = false ->
  hasChar "@" name = false -> hasChar "@" version = false ->
  (URL_pathname url = Some ("/" +:+ root +:+ "/" +:+ name +:+ "@" +:+ version +:+ "/" +:+ file) ->
   extractAsset jsdelivr url integrity
   = Ok (Some {| item_cdn := jsdelivr; item_name := name; item_version := version;
                 item_url := url; item_integrity := integrity;
                 item_fileName := "/" +:+ file |}))
  /\ (URL_pathname url = Some ("/" +:+ root +:+ "/" +:+ name +:+ "@" +:+ version) ->
      extractAsset jsdelivr url integrity
      = Ok (Some {| item_cdn := jsdelivr; item_name := name; item_version := version;
                    item_url := url; item_integrity := integrity; item_fileName := "/" |})).
Proof.
  intros Hroot Hname Hversion Hname' Hversion'.
  assert (Hpackage : hasChar "/" (name +:+ String "@" version) = false).
  { clear -Hname Hversion. induction name as [|c name IH]; simpl in *; [exact Hversion |].
    apply orb_false_iff in Hname as [Hc Hname]. rewrite Hc. now apply IH. }
  assert (Hat : JS.split "@" (name +:+ String "@" version) = [name; version]).
  { rewrite split_app_sep by assumption. now rewrite split_no_sep. }
  split; intros Hpath; unfold extractAsset; rewrite Hpath.
  - change (JS.slice 1 ("/" +:+ root +:+ "/" +:+ name +:+ "@" +:+ version +:+ "/" +:+ file))
      with (root +:+ String "/" (name +:+ String "@" (version +:+ String "/" file))).
    rewrite (append_cons_assoc name version file).
    rewrite (split_app_sep "/" root) by assumption.
    rewrite (split_app_sep "/" (name +:+ String "@" version)) by assumption.
    destruct (split_cons "/" file) as (piece & pieces & Hsplit).
    pose proof (join_split "/" file) as Hjoin.
    rewrite Hsplit in *. unfold JS.slice_array.
    cbn [List.length Nat.leb lookup list_lookup from_option id skipn].
    rewrite Hat. cbn [List.length Nat.eqb lookup list_lookup from_option id].
    now rewrite Hjoin.
  - change (JS.slice 1 ("/" +:+ root +:+ "/" +:+ name +:+ "@" +:+ version))
      with (root +:+ String "/" (name +:+ String "@" version)).
    rewrite (split_app_sep "/" root) by assumption.
    rewrite (split_no_sep "/" (name +:+ String "@" version)) by assumption.
    unfold JS.slice_array.
    cbn [List.length Nat.leb lookup list_lookup from_option id skipn].
    rewrite Hat. reflexivity.
Qed.

(** X3.  A scoped npm package on jsdelivr, [/<root>/@<scope>/<rest>], is not
    recognised as such: its second segment [@<scope>] splits in two on [@],
    so the reference is accepted as a package with an empty name whose
    version is the scope. *)
Theorem extractAsset_jsdelivr_scoped_package
    (url root scope rest : string) (integrity : option string) :
  hasChar "/" root = false -> hasChar "/" scope = false -> hasChar "@" scope = false ->
  URL_pathname url = Some ("/" +:+ root +:+ "/@" +:+ scope +:+ "/" +:+ rest) ->
  extractAsset jsdelivr url integrity
  = Ok (Some {| item_cdn := jsdelivr; item_name := ""; item_version := scope;
                item_url := url; item_integrity := integrity;
                item_fileName := "/" +:+ rest |}).
Proof.
  intros Hroot Hscope Hscope' Hpath. unfold extractAsset. rewrite Hpath.
  change (JS.slice 1 ("/" +:+ root +:+ "/@" +:+ scope +:+ "/" +:+ rest))
    with (root +:+ String "/" (String "@" scope +:+ String "/" rest)).
  rewrite (split_app_sep "/" root) by assumption.
  rewrite (split_app_sep "/" (String "@" scope)) by exact Hscope.
  destruct (split_cons "/" rest) as (piece & pieces & Hsplit).
  pose proof (join_split "/" rest) as Hjoin.
  rewrite Hsplit in *. unfold JS.slice_array.
  cbn [List.length Nat.leb lookup list_lookup from_option id skipn].
  assert (Hat : JS.split "@" (String "@" scope) = [""; scope]).
  { change (JS.split "@" (String "@" scope)) with ("" :: JS.split "@" scope).
    now rewrite split_no_sep. }
  rewrite Hat. cbn [List.length Nat.eqb lookup list_lookup from_option id].
  now rewrite Hjoin.
Qed.

Lemma split_pieces_free (c sep : ascii) (s : string) :
  hasChar c s = false -> Forall (fun piece => hasChar c piece = false) (JS.split sep s).
Proof.
  induction s as [|d s IH]; simpl.
  - intros _. now repeat constructor.
  - intros Hfree. apply orb_false_iff in Hfree as [Hd Hs]. specialize (IH Hs).
    destruct (Ascii.eqb d sep); [now constructor |].
    destruct (JS.split sep s) as [|piece pieces].
    + repeat constructor. simpl. now rewrite Hd.
    + inversion IH as [|? ? Hpiece Hpieces]; subst. constructor; [| exact Hpieces].
      simpl. now rewrite Hd, Hpiece.
Qed.

Lemma split_pieces_sep_free (sep : ascii) (s : string) :
  Forall (fun piece => hasChar sep piece = false) (JS.split sep s).
Proof.
  induction s as [|d s IH]; simpl; [now repeat constructor |].
  destruct (Ascii.eqb d sep) eqn:Hd; [now constructor |].
  destruct (JS.split sep s) as [|piece pieces].
  - repeat constructor. simpl. now rewrite Hd.
  - inversion IH as [|? ? Hpiece Hpieces]; subst. constructor; [| exact Hpieces].
    simpl. now rewrite Hd, Hpiece.
Qed.

Lemma lookup_default_free (c : ascii) (pieces : list string) (i : nat) :
  Forall (fun piece => hasChar c piece = false) pieces ->
  hasChar c (default "" (pieces !! i)) = false.
Proof.
  intros Hfree. destruct (pieces !! i) as [piece |] eqn:Hlook; [| reflexivity].
  rewrite Forall_forall in Hfree. apply Hfree. eapply list_elem_of_lookup_2, Hlook.
Qed.

(** What [extractAsset] puts in an item. *)
Lemma extractAsset_fields (provider : CdnProvider) (url : string)
    (integrity : option string) (item : AssetVersionItem) :
  extractAsset provider url integrity = Ok (Some item) ->
  item_cdn item = provider /\ item_url item = url /\ item_integrity item = integrity
  /\ hasChar "/" (item_name item) = false /\ hasChar "/" (item_version item) = false.
Proof.
  unfold extractAsset. destruct (URL_pathname url) as [pathname |]; [| discriminate].
  pose proof (split_pieces_sep_free "/" (JS.slice 1 pathname)) as Hfree.
  destruct provider.
  - destruct (4 <=? _)%nat; [| discriminate].
    intros [= <-]. cbn [item_cdn item_url item_integrity item_name item_version].
    repeat split; now apply lookup_default_free.
  - destruct (2 <=? _)%nat; [| discriminate].
    destruct (_ =? 2)%nat; [| discriminate].
    intros [= <-]. cbn [item_cdn item_url item_integrity item_name item_version].
    repeat split; apply lookup_default_free, split_pieces_free;
      now apply lookup_default_free.
Qed.

(** X4.  Every asset a script or stylesheet element gives rise to carries
    the element's URL, which starts with the origin of the asset's
    provider; its integrity is the element's attribute value and never the
    empty text; and neither its name nor its version holds a slash. *)
Theorem element_asset_provenance (element : Element) (item : AssetVersionItem) :
  tryGetScriptAsset element = Ok (Some item) \/ tryGetStyleAsset element = Ok (Some item) ->
  item_url item = el_link element
  /\ ((cdn item = cdnjs /\ JS.startsWith "https://cdnjs.cloudflare.com" (el_link element) = true)
      \/ (cdn item = jsdelivr /\ JS.startsWith "https://cdn.jsdelivr.net" (el_link element) = true))
  /\ item_integrity item <> Some ""
  /\ (forall value, item_integrity item = Some value -> el_integrity element = Some value)
  /\ hasChar "/" (item_name item) = false /\ hasChar "/" (item_version item) = false.
Proof.
  assert (Hboth : tryGetStyleAsset element = tryGetScriptAsset element) by reflexivity.
  rewrite Hboth. intros Hitem.
  assert (Hscript : tryGetScriptAsset element = Ok (Some item)) by (now destruct Hitem).
  clear Hitem Hboth. unfold tryGetScriptAsset in Hscript.
  destruct (negb (JS.truthy (Some (el_link element)))); [discriminate |].
  set (integrity := match el_integrity element with
                    | Some value => if JS.truthy (Some value) then Some value else None
                    | None => None
                    end) in Hscript.
  assert (Hintegrity : integrity <> Some ""
                       /\ forall value, integrity = Some value -> el_integrity element = Some value).
  { subst integrity. destruct (el_integrity element) as [[|c value] |]; cbn; split;
      congruence. }
  unfold tryGetAsset, cdnMap in Hscript. cbn [List.find fst] in Hscript.
  destruct (JS.startsWith "https://cdnjs.cloudflare.com" (el_link element)) eqn:Hcdnjs.
  - cbn [fmap option_fmap option_map snd] in Hscript.
    destruct (providerTruthy cdnjs); [| discriminate].
    apply extractAsset_fields in Hscript as (Hcdn & Hurl & Hint & Hname & Hversion).
    rewrite Hint. destruct Hintegrity as [Hnonempty Hattribute].
    split; [exact Hurl |]. split; [left; now split |].
    split; [exact Hnonempty |]. split; [exact Hattribute |]. now split.
  - destruct (JS.startsWith "https://cdn.jsdelivr.net" (el_link element)) eqn:Hjsdelivr.
    + cbn [fmap option_fmap option_map snd] in Hscript.
      destruct (providerTruthy jsdelivr); [| discriminate].
      apply extractAsset_fields in Hscript as (Hcdn & Hurl & Hint & Hname & Hversion).
      rewrite Hint. destruct Hintegrity as [Hnonempty Hattribute].
      split; [exact Hurl |]. split; [right; now split |].
      split; [exact Hnonempty |]. split; [exact Hattribute |]. now split.
    + discriminate.
Qed.

Lemma pushAssets_app (tryGet : Element -> Result (option AssetVersionItem))
    (first rest : list Element) (assets : list AssetVersionItem) :
  pushAssets tryGet (first ++ rest) assets
  = match pushAssets tryGet first assets with
    | (pushed, true) => pushAssets tryGet rest pushed
    | (pushed, false) => (pushed, false)
    end.
Proof.
  revert assets. induction first as [|element first IH]; intros assets; cbn [pushAssets app].
  - reflexivity.
  - destruct (tryGet element) as [[asset |] | error]; [apply IH | apply IH | reflexivity].
Qed.

(** X5.  When the URL of a script element cannot be parsed, [findAssets]
    does not fail: it returns the assets of the scripts before that element
    and drops the scripts after it and every stylesheet. *)
Theorem findAssets_keeps_assets_before_failure
    (fileName html error : string) (scripts later styles : list Element) (bad : Element)
    (assets : list AssetVersionItem) (w : World) :
  files w !! fileName = Some html ->
  JSDOM html = Ok (scripts ++ bad :: later, styles) ->
  pushAssets tryGetScriptAsset scripts [] = (assets, true) ->
  tryGetScriptAsset bad = Throw error ->
  findAssets fileName w = (Ok assets, w).
Proof.
  intros Hread Hdom Hscripts Hbad. unfold findAssets. rewrite Hread, Hdom.
  rewrite pushAssets_app, Hscripts. cbn [pushAssets]. now rewrite Hbad.
Qed.

Lemma pushAssets_none (tryGet : Element -> Result (option AssetVersionItem))
    (elements : list Element) (assets : list AssetVersionItem) :
  Forall (fun element => tryGet element = Ok None) elements ->
  pushAssets tryGet elements assets = (assets, true).
Proof.
  induction 1 as [|element elements Hnone _ IH]; cbn [pushAssets]; [reflexivity |].
  now rewrite Hnone.
Qed.

(** X6.  [findAssets] finds nothing, and raises nothing, in a file that
    cannot be read, in a file the DOM parser rejects, and in a page none of
    whose script and stylesheet URLs starts with a CDN origin (whether
    those URLs can be parsed or not). *)
Theorem findAssets_finds_nothing (fileName : string) (w : World) :
  (files w !! fileName = None -> findAssets fileName w = (Ok [], w))
  /\ (forall html error,
        files w !! fileName = Some html -> JSDOM html = Throw error ->
        findAssets fileName w = (Ok [], w))
  /\ (forall html scripts styles,
        files w !! fileName = Some html -> JSDOM html = Ok (scripts, styles) ->
        Forall (fun element =>
                  JS.startsWith "https://cdnjs.cloudflare.com" (el_link element) = false
                  /\ JS.startsWith "https://cdn.jsdelivr.net" (el_link element) = false)
               (scripts ++ styles) ->
        findAssets fileName w = (Ok [], w)).
Proof.
  unfold findAssets. split; [| split].
  - now intros ->.
  - intros html error -> ->. reflexivity.
  - intros html scripts styles -> -> Hforeign.
    assert (Hnone : forall element,
              JS.startsWith "https://cdnjs.cloudflare.com" (el_link element) = false
              /\ JS.startsWith "https://cdn.jsdelivr.net" (el_link element) = false ->
              tryGetScriptAsset element = Ok None).
    { intros element [Hcdnjs Hjsdelivr]. unfold tryGetScriptAsset.
      destruct (negb _); [reflexivity |].
      unfold tryGetAsset, cdnMap. cbn [List.find fst]. now rewrite Hcdnjs, Hjsdelivr. }
    apply Forall_app in Hforeign as [Hscripts Hstyles].
    rewrite (pushAssets_none tryGetScriptAsset scripts []).
    + rewrite (pushAssets_none tryGetStyleAsset styles []); [reflexivity |].
      eapply Forall_impl; [exact Hstyles | exact Hnone].
    + eapply Forall_impl; [exact Hscripts | exact Hnone].
Qed.

(** *** The version reconciler *)

Lemma uniqueAssets_fold_extends (items : list AssetVersionItem) (acc : list Asset) :
  acc `prefix_of`
  fold_left
    (fun (assets : list Asset) (asset : AssetVersionItem) =>
       if negb (existsb (fun a => sameAsset a asset) assets)
       then assets ++ [ {| asset_cdn := cdn asset; asset_name := name asset |} ]
       else assets)
    items acc.
Proof.
  revert acc. induction items as [|item items IH]; intros acc; cbn [fold_left].
  - reflexivity.
  - etransitivity; [| apply IH].
    destruct (negb _); [apply prefix_app_r |]; reflexivity.
Qed.

Lemma filter_andb {A} (f g : A -> bool) (l : list A) :
  List.filter (fun x => f x && g x) l = List.filter f (List.filter g l).
Proof.
  induction l as [|x l IH]; simpl; [reflexivity |].
  destruct (g x); simpl; [| now rewrite andb_false_r].
  rewrite andb_true_r. destruct (f x); now rewrite IH.
Qed.

(** The push-unless-present loop lists, after what it started from, the
    first occurrences of the assets it did not start from. *)
Lemma uniqueAssets_fold_firstOccurrences (items : list AssetVersionItem) (acc : list Asset) :
  fold_left
    (fun (assets : list Asset) (asset : AssetVersionItem) =>
       if negb (existsb (fun a => sameAsset a asset) assets)
       then assets ++ [ {| asset_cdn := cdn asset; asset_name := name asset |} ]
       else assets)
    items acc
  = acc ++ List.filter (fun b => negb (existsb (fun a => sameAsset a b) acc))
             (firstOccurrences (List.map assetOf items)).
Proof.
  revert acc. induction items as [|item items IH]; intros acc.
  - cbn. now rewrite app_nil_r.
  - cbn [fold_left List.map firstOccurrences List.filter]. rewrite IH.
    change (existsb (fun a => sameAsset a (assetOf item)) acc)
      with (existsb (fun a => sameAsset a item) acc).
    destruct (existsb (fun a => sameAsset a item) acc) eqn:Hseen; cbn [negb].
    + f_equal. symmetry. apply filter_filter_implied. intros b Hb.
      apply negb_true_iff. apply negb_true_iff in Hb.
      destruct (sameAsset (assetOf item) b) eqn:Hsame; [| reflexivity].
      rewrite <- Hb. symmetry. apply existsb_exists in Hseen as (a & Hin & Ha).
      apply existsb_exists. exists a. split; [exact Hin |].
      apply sameAsset_true in Ha as [Hcdn Hname].
      apply sameAsset_true in Hsame as [Hcdn' Hname'].
      apply sameAsset_true. split; [now rewrite Hcdn | now rewrite Hname].
    + rewrite <- app_assoc. cbn [app]. do 2 f_equal.
      rewrite <- filter_andb. apply filter_ext. intros b.
      rewrite existsb_app. cbn [existsb]. rewrite orb_false_r, negb_orb. reflexivity.
Qed.

(** X7.  The unique assets are the assets of the occurrences, file after
    file and occurrence after occurrence, with every repetition after the
    first struck out; so the assets found in the files scanned so far stay
    at the front, in the same order, whatever files follow. *)
Theorem uniqueAssets_first_seen_order (fileAssetMap more : FileAssetMap) :
  uniqueAssets fileAssetMap = firstOccurrences (List.map assetOf (itemsOf fileAssetMap))
  /\ uniqueAssets fileAssetMap `prefix_of` uniqueAssets (fileAssetMap ++ more).
Proof.
  split.
  - unfold uniqueAssets. rewrite fold_left_nested. fold (itemsOf fileAssetMap).
    rewrite uniqueAssets_fold_firstOccurrences. cbn [app existsb negb].
    induction (firstOccurrences _) as [|a l IH]; cbn; [reflexivity | now rewrite IH].
  - unfold uniqueAssets. rewrite !fold_left_nested, map_app, concat_app, fold_left_app.
    apply uniqueAssets_fold_extends.
Qed.

Lemma findAssetsToUpdate_inner_present (asset : Asset) (latestVersion : option string)
    (versions : list AssetVersion) (acc : list Asset) :
  asset ∈ acc ->
  fold_left
    (fun (assetsToUpdate : list Asset) (version : AssetVersion) =>
       if negb (bool_decide (av_version version = latestVersion)) then
         if negb (existsb (fun a => sameAsset a asset) assetsToUpdate)
         then assetsToUpdate ++ [ {| asset_cdn := cdn asset; asset_name := name asset |} ]
         else assetsToUpdate
       else assetsToUpdate)
    versions acc
  = acc.
Proof.
  intros Hin. induction versions as [|v versions IH]; cbn [fold_left]; [reflexivity |].
  destruct (negb (bool_decide _)); [| exact IH].
  assert (Hex : existsb (fun a => sameAsset a asset) acc = true).
  { apply existsb_sameAsset. now rewrite Asset_eta. }
  rewrite Hex. exact IH.
Qed.

Lemma findAssetsToUpdate_inner_absent (asset : Asset) (latestVersion : option string)
    (versions : list AssetVersion) (acc : list Asset) :
  asset ∉ acc ->
  fold_left
    (fun (assetsToUpdate : list Asset) (version : AssetVersion) =>
       if negb (bool_decide (av_version version = latestVersion)) then
         if negb (existsb (fun a => sameAsset a asset) assetsToUpdate)
         then assetsToUpdate ++ [ {| asset_cdn := cdn asset; asset_name := name asset |} ]
         else assetsToUpdate
       else assetsToUpdate)
    versions acc
  = if existsb (fun v => negb (bool_decide (av_version v = latestVersion))) versions
    then acc ++ [asset] else acc.
Proof.
  intros Hout. induction versions as [|v versions IH]; cbn [fold_left existsb]; [reflexivity |].
  destruct (negb (bool_decide (av_version v = latestVersion))); cbn [orb]; [| exact IH].
  assert (Hex : existsb (fun a => sameAsset a asset) acc = false).
  { apply not_true_is_false. intros Hex. apply existsb_sameAsset in Hex.
    now rewrite Asset_eta in Hex. }
  rewrite Hex. cbn [negb].
  rewrite findAssetsToUpdate_inner_present.
  - now rewrite Asset_eta.
  - rewrite Asset_eta. apply elem_of_app. right. now left.
Qed.

(** X8.  The stale set is the list of unique assets with the assets that
    are not stale struck out: stale assets keep their first-seen order,
    which is the order the pull requests are opened in. *)
Theorem findAssetsToUpdate_filters_in_order
    (fileAssetMap : FileAssetMap) (assetLatestVersions : gmap string string)
    (assetVersions : gmap string (list AssetVersion)) :
  findAssetsToUpdate (uniqueAssets fileAssetMap) assetLatestVersions assetVersions
  = List.filter (isStale assetLatestVersions assetVersions) (uniqueAssets fileAssetMap).
Proof.
  destruct (uniqueAssets_spec fileAssetMap) as [_ Hnodup].
  unfold findAssetsToUpdate.
  set (body := fun (assetsToUpdate : list Asset) (asset : Asset) => _).
  assert (Hgen : forall assets acc,
            NoDup assets -> (forall a, a ∈ assets -> a ∉ acc) ->
            fold_left body assets acc
            = acc ++ List.filter (isStale assetLatestVersions assetVersions) assets).
  { induction assets as [|asset assets IH]; intros acc Hnd Hfresh; cbn [fold_left List.filter].
    - now rewrite app_nil_r.
    - apply NoDup_cons in Hnd as [Hhead Hnd].
      assert (Hbody : body acc asset
                      = if isStale assetLatestVersions assetVersions asset
                        then acc ++ [asset] else acc).
      { unfold body, isStale. destruct (assetVersions !! getKey asset); [| reflexivity].
        apply findAssetsToUpdate_inner_absent, Hfresh. now left. }
      rewrite Hbody.
      destruct (isStale assetLatestVersions assetVersions asset).
      + rewrite IH; [now rewrite <- app_assoc | exact Hnd |].
        intros a Ha Hacc. apply elem_of_app in Hacc as [Hacc | Hacc].
        * apply (Hfresh a); [now right | exact Hacc].
        * apply list_elem_of_singleton in Hacc. now subst.
      + apply IH; [exact Hnd |]. intros a Ha. apply Hfresh. now right. }
  rewrite (Hgen _ [] Hnodup); [reflexivity |].
  intros a _ Hnil. inversion Hnil.
Qed.

Lemma findAssets_total (fileName : string) (w : World) :
  exists assets, findAssets fileName w = (Ok assets, w).
Proof.
  unfold findAssets. destruct (files w !! fileName) as [html |]; [| eauto].
  destruct (JSDOM html) as [[scripts styles] | error]; [| eauto].
  destruct (pushAssets tryGetScriptAsset scripts []) as [assets []]; eauto.
Qed.

Lemma Record_set_keys {V} (m : list (string * V)) (key : string) (v : V) :
  List.map fst (Record_set m key v)
  = if decide (key ∈ List.map fst m) then List.map fst m else List.map fst m ++ [key].
Proof.
  induction m as [|[k old] m IH]; cbn [Record_set List.map fst].
  - rewrite decide_False; [reflexivity |]. intros Hin. inversion Hin.
  - unfold JS.str_eqb. destruct (bool_decide_reflect (k = key)) as [-> | Hne].
    + rewrite decide_True by now left. reflexivity.
    + cbn [List.map fst]. rewrite IH.
      destruct (decide (key ∈ List.map fst m)) as [Hin | Hout].
      * rewrite decide_True by now right. reflexivity.
      * rewrite decide_False; [reflexivity |].
        intros Hin. apply elem_of_cons in Hin as [-> | Hin]; contradiction.
Qed.

Lemma Record_set_elem_of {V} (m : list (string * V)) (key k : string) (v x : V) :
  NoDup (List.map fst m) ->
  (k, x) ∈ Record_set m key v <-> (k = key /\ x = v) \/ (k <> key /\ (k, x) ∈ m).
Proof.
  induction m as [|[k0 old] m IH]; cbn [Record_set List.map fst]; intros Hnodup.
  - rewrite list_elem_of_singleton. split.
    + intros [= -> ->]. now left.
    + intros [[-> ->] | [_ Hin]]; [reflexivity | inversion Hin].
  - apply NoDup_cons in Hnodup as [Hfresh Hnodup]. unfold JS.str_eqb.
    destruct (bool_decide_reflect (k0 = key)) as [-> | Hne].
    + rewrite !elem_of_cons. split.
      * intros [[= -> ->] | Hin]; [now left | right].
        split; [| now right]. intros ->. apply Hfresh.
        apply list_elem_of_fmap. now exists (key, x).
      * intros [[-> ->] | [Hne [[= -> _] | Hin]]]; [now left | contradiction | now right].
    + rewrite !elem_of_cons, (IH Hnodup). split.
      * intros [[= -> ->] | [[-> ->] | [Hk Hin]]].
        -- right. split; [exact Hne | now left].
        -- now left.
        -- right. split; [exact Hk | now right].
      * intros [[-> ->] | [Hk [[= -> ->] | Hin]]].
        -- right. now left.
        -- now left.
        -- right. right. now split.
Qed.

(** X9.  The scan never fails and changes nothing; its map holds exactly
    the scanned files in which assets were found, each with the assets
    found in it, and each once, even when a file is matched by several
    patterns. *)
Theorem scanFiles_maps_files_with_assets (paths : list string) (w : World) :
  exists fileAssetMap,
    scanFiles paths w = (Ok fileAssetMap, w)
    /\ NoDup (List.map fst fileAssetMap)
    /\ forall file assets,
         (file, assets) ∈ fileAssetMap
         <-> file ∈ paths /\ assets <> [] /\ findAssets file w = (Ok assets, w).
Proof.
  unfold scanFiles.
  set (body := fun (fileAssetMap : FileAssetMap) (fileName : string) => _).
  assert (Hgen : forall todo seen acc,
            NoDup (List.map fst acc) ->
            (forall file assets,
                (file, assets) ∈ acc
                <-> file ∈ seen /\ assets <> [] /\ findAssets file w = (Ok assets, w)) ->
            exists fileAssetMap,
              forEach body acc todo w = (Ok fileAssetMap, w)
              /\ NoDup (List.map fst fileAssetMap)
              /\ forall file assets,
                   (file, assets) ∈ fileAssetMap
                   <-> file ∈ seen ++ todo /\ assets <> []
                       /\ findAssets file w = (Ok assets, w)).
  { induction todo as [|path todo IH]; intros seen acc Hnodup Hacc.
    - exists acc. rewrite app_nil_r. split; [reflexivity | split; assumption].
    - cbn [forEach]. unfold bind. subst body. cbn beta.
      destruct (findAssets_total path w) as (found & Hfound).
      unfold bind. rewrite Hfound.
      replace (seen ++ path :: todo) with ((seen ++ [path]) ++ todo)
        by now rewrite <- app_assoc.
      destruct found as [|asset found]; cbn [List.length Nat.ltb Nat.leb]; unfold ret.
      + apply IH; [exact Hnodup |]. intros file assets. rewrite Hacc, elem_of_app.
        split; [tauto_props |]. intros ([Hseen | Hpath] & Hne & Hfind); [tauto_props |].
        apply list_elem_of_singleton in Hpath. subst file. congruence.
      + apply IH.
        * rewrite Record_set_keys. destruct (decide _); [exact Hnodup |].
          apply NoDup_app. repeat split; [exact Hnodup | | apply NoDup_singleton].
          intros k Hk Hk'. apply list_elem_of_singleton in Hk'. now subst.
        * intros file assets. rewrite (Record_set_elem_of _ _ _ _ _ Hnodup), Hacc.
          rewrite elem_of_app, list_elem_of_singleton. split.
          -- intros [[-> ->] | [Hne (Hseen & Hassets & Hfind)]]; [| tauto_props].
             repeat split; [now right | discriminate | exact Hfound].
          -- intros ([Hseen | ->] & Hassets & Hfind).
             ++ destruct (decide (file = path)) as [-> | Hne]; [| tauto_props].
                left. split; [reflexivity | congruence].
             ++ left. split; [reflexivity | congruence]. }
  destruct (Hgen paths [] []) as (fam & Hrun & Hnodup & Hspec).
  - constructor.
  - intros file assets. split; [intros Hin; inversion Hin | intros [Hin _]; inversion Hin].
  - exists fam. split; [exact Hrun | split; assumption].
Qed.

Lemma findLatestVersions_spec
    (assets : list Asset) (w w' : World) (assetLatestVersions : gmap string string) :
  findLatestVersions assets w = (Ok assetLatestVersions, w') ->
  files w' = files w
  /\ events w' = events w ++ List.map (fun a => EvGetLatestVersion (cdn a) (name a)) assets
  /\ forall key version,
       assetLatestVersions !! key = Some version ->
       version <> "" /\ exists asset, asset ∈ assets /\ getKey asset = key.
Proof.
  unfold findLatestVersions.
  set (body := fun (assetLatestVersions : gmap string string) (asset : Asset) => _).
  assert (Hgen : forall todo acc w0 lv w1,
            forEach body acc todo w0 = (Ok lv, w1) ->
            files w1 = files w0
            /\ events w1
               = events w0 ++ List.map (fun a => EvGetLatestVersion (cdn a) (name a)) todo
            /\ forall key version,
                 lv !! key = Some version ->
                 acc !! key = Some version
                 \/ (version <> "" /\ exists asset, asset ∈ todo /\ getKey asset = key)).
  { induction todo as [|asset todo IH]; intros acc w0 lv w1; cbn [forEach List.map].
    - intros [= <- <-]. rewrite app_nil_r. repeat split. now left.
    - unfold bind at 1.
      assert (Hstep : exists r, body acc asset w0
                                = (r, emit (EvGetLatestVersion (cdn asset) (name asset)) w0)
                /\ forall acc', r = Ok acc' ->
                     acc' = acc
                     \/ exists version, version <> "" /\ acc' = <[getKey asset := version]> acc).
      { subst body. cbn beta. unfold getClient, bind, callGetLatestVersion, ret.
        destruct (cdn asset);
          match goal with
          | |- context [getLatestVersion ?client ?package w0] =>
              destruct (getLatestVersion client package w0) as [[[|c version] |] | error]
          end; cbn [JS.truthy]; eexists;
          (split; [reflexivity |]); intros acc' Hok;
          first [ discriminate
                | injection Hok as <-;
                  first [ now left
                        | right; eexists; split; [| reflexivity]; discriminate ] ]. }
      destruct Hstep as (r & -> & Hr). destruct r as [acc' | error]; [| discriminate].
      intros Hrest. apply IH in Hrest as (Hfiles & Hevents & Hlv).
      split; [exact Hfiles |]. split.
      + rewrite Hevents. cbn [emit events]. now rewrite <- app_assoc.
      + intros key version Hlook. destruct (Hlv key version Hlook) as [Hacc | (Hne & a & Ha & Hkey)].
        * destruct (Hr acc' eq_refl) as [-> | (answer & Hanswer & ->)]; [now left |].
          rewrite lookup_insert in Hacc. destruct (decide (getKey asset = key)) as [<- | Hother].
          -- injection Hacc as <-. right. split; [exact Hanswer |].
             exists asset. split; [left | reflexivity].
          -- now left.
        * right. split; [exact Hne |]. exists a. split; [now right | exact Hkey]. }
  intros Hrun. apply Hgen in Hrun as (Hfiles & Hevents & Hlv).
  split; [exact Hfiles |]. split; [exact Hevents |].
  intros key version Hlook. destruct (Hlv key version Hlook) as [Hempty | Hasset].
  - now rewrite lookup_empty in Hempty.
  - exact Hasset.
Qed.

(** X10.  The lookup loop asks once for each asset, in order, and touches
    no file; what it records is never empty and always lies under the key
    of one of the assets asked for. *)
Theorem findLatestVersions_records_answers
    (assets : list Asset) (w w' : World) (assetLatestVersions : gmap string string) :
  findLatestVersions assets w = (Ok assetLatestVersions, w') ->
  files w' = files w
  /\ events w' = events w ++ List.map (fun a => EvGetLatestVersion (cdn a) (name a)) assets
  /\ forall key version,
       assetLatestVersions !! key = Some version ->
       version <> "" /\ exists asset, asset ∈ assets /\ getKey asset = key.
Proof. apply findLatestVersions_spec. Qed.

(** X11.  When every occurrence found is at the version resolved for its
    asset, the run returns no update and leaves every file as it was; the
    only calls it makes are the version lookups: no file listing, no git
    command, no pull request. *)
Theorem run_without_stale_assets
    (paths : list string) (fileAssetMap : FileAssetMap)
    (assetLatestVersions : gmap string string) (w w1 : World) :
  findFiles w = (Ok paths, w) ->
  scanFiles paths w = (Ok fileAssetMap, w) ->
  findLatestVersions (uniqueAssets fileAssetMap) w = (Ok assetLatestVersions, w1) ->
  (forall item, item ∈ itemsOf fileAssetMap ->
                assetLatestVersions !! getKey item = Some (item_version item)) ->
  tryUpdateAssets w = (Ok {| updates := [] |}, w1)
  /\ files w1 = files w
  /\ events w1
     = events w
       ++ List.map (fun a => EvGetLatestVersion (cdn a) (name a)) (uniqueAssets fileAssetMap).
Proof.
  intros Hfiles Hscan Hlookup Hcurrent.
  assert (Hstale : findAssetsToUpdate (uniqueAssets fileAssetMap) assetLatestVersions
                     (findVersions fileAssetMap) = []).
  { destruct (findAssetsToUpdate (uniqueAssets fileAssetMap) assetLatestVersions
                (findVersions fileAssetMap)) as [|asset stale] eqn:Hlist; [reflexivity |].
    assert (Hin : asset ∈ findAssetsToUpdate (uniqueAssets fileAssetMap) assetLatestVersions
                            (findVersions fileAssetMap)) by (rewrite Hlist; left).
    apply findAssetsToUpdate_spec in Hin as (_ & versions & v & Hversions & Hv & Hdiffers).
    destruct (proj1 (findVersions_spec fileAssetMap) _ _ _ Hversions Hv)
      as (item & Hitem & Hkey & Hversion).
    rewrite <- Hkey, (Hcurrent item Hitem) in Hdiffers. congruence. }
  split.
  - unfold tryUpdateAssets. rewrite (bind_ok _ _ _ _ _ Hfiles), (bind_ok _ _ _ _ _ Hscan).
    rewrite (bind_ok _ _ _ _ _ Hlookup), Hstale. reflexivity.
  - apply findLatestVersions_spec in Hlookup as (Hsame & Hevents & _). now split.
Qed.

(** *** The update applier *)

Lemma patchFile_outcomes (assetUpdate : AssetVersion) (cdnFiles : list CdnFile)
    (filesUpdated : nat) (lowestVersion file : string)
    (fileAssets : list AssetVersionItem) (w : World) :
  let run := patchFile assetUpdate cdnFiles (filesUpdated, lowestVersion) (file, fileAssets) w in
  (exists error, run = (Throw error, w))
  \/ (exists lowest, run = (Ok (filesUpdated, lowest), w))
  \/ (exists lowest old content,
        files w !! file = Some old
        /\ run = (Ok (S filesUpdated, lowest),
                  {| files := <[file := content]> (files w); events := events w |})).
Proof.
  unfold patchFile, bind, readFileSync.
  destruct (files w !! file) as [old |]; [| left; eauto].
  destruct (patch_dirty _); [right; right | right; left]; eauto.
Qed.

Lemma patchFiles_keeps_files (assetUpdate : AssetVersion) (cdnFiles : list CdnFile)
    (fileAssetMap : FileAssetMap) :
  forall (filesUpdated : nat) (lowestVersion : string) (w : World),
    let run := forEach (patchFile assetUpdate cdnFiles) (filesUpdated, lowestVersion)
                 fileAssetMap w in
    (forall path, is_Some (files (snd run) !! path) <-> is_Some (files w !! path))
    /\ (forall n lowest, fst run = Ok (n, lowest) ->
                         (n <= filesUpdated + List.length fileAssetMap)%nat).
Proof.
  induction fileAssetMap as [|[file fileAssets] rest IH]; intros filesUpdated lowestVersion w.
  - cbn. split; [reflexivity |]. intros n lowest [= <- _]. lia.
  - cbn [forEach List.length]. unfold bind.
    destruct (patchFile_outcomes assetUpdate cdnFiles filesUpdated lowestVersion file
                fileAssets w)
      as [(error & ->) | [(lowest & ->) | (lowest & old & content & Hold & ->)]].
    + cbn. split; [reflexivity | discriminate].
    + destruct (IH filesUpdated lowest w) as [Hsome Hcount]. split; [exact Hsome |].
      intros n final Hok. apply Hcount in Hok. lia.
    + set (w1 := {| files := <[file := content]> (files w); events := events w |}).
      destruct (IH (S filesUpdated) lowest w1) as [Hsome Hcount]. split.
      * intros path. rewrite Hsome. subst w1. cbn [files].
        destruct (decide (file = path)) as [<- | Hne].
        -- rewrite lookup_insert_eq, Hold. split; eauto.
        -- now rewrite lookup_insert_ne.
      * intros n final Hok. apply Hcount in Hok. lia.
Qed.

(** X12.  The file loop of [applyAssetUpdate] runs no command and calls no
    service; it leaves alone every file that is not in the map, creates no
    file and removes none, and counts at most one update per file of the
    map. *)
Theorem patchFiles_only_rewrites_listed_files
    (fileAssetMap : FileAssetMap) (assetUpdate : AssetVersion) (cdnFiles : list CdnFile)
    (w : World) :
  let run := patchFiles fileAssetMap assetUpdate cdnFiles w in
  events (snd run) = events w
  /\ (forall path, path ∉ List.map fst fileAssetMap ->
                   files (snd run) !! path = files w !! path)
  /\ (forall path, is_Some (files (snd run) !! path) <-> is_Some (files w !! path))
  /\ (forall n lowest, fst run = Ok (n, lowest) -> (n <= List.length fileAssetMap)%nat).
Proof.
  unfold patchFiles.
  destruct (patchFiles_frame assetUpdate cdnFiles fileAssetMap 0 "0.0.0" w)
    as (Hevents & Hfiles & _).
  destruct (patchFiles_keeps_files assetUpdate cdnFiles fileAssetMap 0 "0.0.0" w)
    as (Hsome & Hcount).
  split; [exact Hevents |]. split; [exact Hfiles |]. split; [exact Hsome |].
  intros n lowest Hok. now apply Hcount in Hok.
Qed.

Lemma startsWith_spec (p s : string) :
  JS.startsWith p s = true -> s = p +:+ JS.slice (String.length p) s.
Proof.
  revert s. induction p as [|a p IH]; intros s; cbn.
  - intros _. now destruct s.
  - destruct s as [|b s]; [discriminate |].
    intros Hstarts. apply andb_true_iff in Hstarts as [Hab Hrest].
    apply Ascii.eqb_eq in Hab. subst b.
    change (String a s = String a (p +:+ JS.slice (String.length p) s)).
    now rewrite <- IH.
Qed.

(** [cut] splits the text around an occurrence of the pattern. *)
Lemma cut_spec (p s before after : string) :
  JS.cut p s = Some (before, after) -> s = before +:+ p +:+ after.
Proof.
  revert before. induction s as [|c s IH]; intros before; cbn [JS.cut].
  - destruct (JS.startsWith p "") eqn:Hstarts; [| discriminate].
    intros [= <- <-]. apply (startsWith_spec p ""), Hstarts.
  - destruct (JS.startsWith p (String c s)) eqn:Hstarts.
    + intros [= <- <-]. apply (startsWith_spec p (String c s)), Hstarts.
    + destruct (JS.cut p s) as [[b a] |]; [| discriminate].
      intros [= <- <-]. change (String c s = String c (b +:+ p +:+ a)).
      now rewrite <- (IH b eq_refl).
Qed.

Lemma substitution_plain (matched before after template : string) :
  hasChar "$" template = false ->
  JS.substitution matched before after template = template.
Proof.
  induction template as [|c template IH]; [reflexivity |].
  cbn [hasChar]. intros Hfree. apply orb_false_iff in Hfree as [Hc Hrest].
  assert (Hstep : JS.substitution matched before after (String c template)
                  = String c (JS.substitution matched before after template)).
  { destruct c as [[] [] [] [] [] [] [] []]; try reflexivity. discriminate. }
  rewrite Hstep. now rewrite IH.
Qed.

Lemma replace_plain (s p r before after : string) :
  JS.cut p s = Some (before, after) -> hasChar "$" r = false ->
  JS.replace s p r = before +:+ r +:+ after.
Proof. intros Hcut Hfree. unfold JS.replace. now rewrite Hcut, substitution_plain. Qed.

(** X13.  When the listing has the file name of an occurrence and the text
    holds its URL, the first occurrence of the URL is replaced by the new
    URL and the rest of the text is kept; if the occurrence has an integrity
    value, the first occurrence of that value in the rewritten text,
    wherever it is, is then replaced by the new integrity value (nothing
    when the listing has none).  This is for new values without a dollar
    sign, which [replace] would expand. *)
Theorem patchOccurrence_replaces_first_occurrence
    (cdnFiles : list CdnFile) (p : Patch) (a : AssetVersionItem) (latest : CdnFile)
    (before after : string) :
  List.find (fun f => JS.str_eqb (file_fileName f) (item_fileName a)) cdnFiles = Some latest ->
  JS.cut (item_url a) (patch_content p) = Some (before, after) ->
  hasChar "$" (file_url latest) = false ->
  hasChar "$" (default "" (file_integrity latest)) = false ->
  let p' := patchOccurrence cdnFiles p a in
  let rewritten := before +:+ file_url latest +:+ after in
  patch_content p = before +:+ item_url a +:+ after
  /\ patch_dirty p' = true
  /\ (JS.truthy (item_integrity a) = false -> patch_content p' = rewritten)
  /\ (forall integrity,
        item_integrity a = Some integrity -> integrity <> "" ->
        match JS.cut integrity rewritten with
        | Some (before', after') =>
            patch_content p' = before' +:+ default "" (file_integrity latest) +:+ after'
        | None => patch_content p' = rewritten
        end).
Proof.
  intros Hfind Hcut Hurl Hintegrity p' rewritten.
  assert (Hincludes : JS.includes (patch_content p) (item_url a) = true).
  { unfold JS.includes. now rewrite Hcut. }
  assert (Hreplace : JS.replace (patch_content p) (item_url a) (file_url latest) = rewritten).
  { now apply replace_plain. }
  subst p'. unfold patchOccurrence. rewrite Hfind, Hincludes, Hreplace.
  cbn [patch_content patch_dirty].
  split; [now apply cut_spec |]. split; [reflexivity |]. split.
  - destruct (item_integrity a) as [[|c integrity] |]; cbn [JS.truthy]; try reflexivity.
    discriminate.
  - intros integrity -> Hne. destruct integrity as [|c integrity]; [contradiction |].
    cbn [JS.truthy].
    destruct (JS.cut (String c integrity) rewritten) as [[before' after'] |] eqn:Hcut'.
    + now apply replace_plain.
    + unfold JS.replace. now rewrite Hcut'.
Qed.

Lemma patchOccurrences_lowestVersion (cdnFiles : list CdnFile)
    (candidates : list AssetVersionItem) (p : Patch) :
  let lowest := patch_lowestVersion (fold_left (patchOccurrence cdnFiles) candidates p) in
  lowest = patch_lowestVersion p
  \/ exists a, a ∈ candidates /\ lowest = item_version a.
Proof.
  revert p. induction candidates as [|a candidates IH]; intros p; cbn [fold_left].
  - now left.
  - destruct (IH (patchOccurrence cdnFiles p a)) as [Hsame | (b & Hb & Hlowest)].
    + cbn zeta in *. rewrite Hsame. unfold patchOccurrence.
      destruct (List.find _ cdnFiles); [| now left].
      destruct (JS.includes _ _); [| now left].
      cbn [patch_lowestVersion]. destruct (JS.lt _ _); [right | now left].
      exists a. split; [left | reflexivity].
    + right. exists b. split; [now right | exact Hlowest].
Qed.

Lemma patchFile_lowestVersion (assetUpdate : AssetVersion) (cdnFiles : list CdnFile)
    (filesUpdated n : nat) (lowestVersion lowest file : string)
    (fileAssets : list AssetVersionItem) (w w' : World) :
  patchFile assetUpdate cdnFiles (filesUpdated, lowestVersion) (file, fileAssets) w
  = (Ok (n, lowest), w') ->
  JS.lt lowest lowestVersion = false
  /\ (lowest = lowestVersion
      \/ exists a, a ∈ fileAssets /\ isCandidate assetUpdate a = true
                   /\ lowest = item_version a).
Proof.
  unfold patchFile, bind, readFileSync.
  destruct (files w !! file) as [content |]; [| discriminate].
  set (start := {| patch_content := content; patch_dirty := false;
                   patch_lowestVersion := lowestVersion |}).
  pose proof (lowestVersion_never_decreases cdnFiles
                (List.filter (isCandidate assetUpdate) fileAssets) start) as Hup.
  pose proof (patchOccurrences_lowestVersion cdnFiles
                (List.filter (isCandidate assetUpdate) fileAssets) start) as Hfrom.
  cbn zeta in Hfrom. cbn [patch_lowestVersion start] in Hup, Hfrom.
  assert (Hboth : forall lowest',
            lowest' = patch_lowestVersion
                        (fold_left (patchOccurrence cdnFiles)
                           (List.filter (isCandidate assetUpdate) fileAssets) start) ->
            JS.lt lowest' lowestVersion = false
            /\ (lowest' = lowestVersion
                \/ exists a, a ∈ fileAssets /\ isCandidate assetUpdate a = true
                             /\ lowest' = item_version a)).
  { intros lowest' ->. split; [exact Hup |].
    destruct Hfrom as [Hsame | (a & Ha & Hlowest)]; [now left | right].
    apply list_elem_of_In, filter_In in Ha as [Ha Hcandidate].
    exists a. split; [now apply list_elem_of_In | now split]. }
  destruct (patch_dirty _); cbn; intros [= _ <- _]; now apply Hboth.
Qed.

(** X14.  The version the file loop hands on for the commit message is
    ['0.0.0'] or the version of a candidate occurrence, and in the order of
    [<] on strings it is never below ['0.0.0']. *)
Theorem patchFiles_lowestVersion_floor
    (fileAssetMap : FileAssetMap) (assetUpdate : AssetVersion) (cdnFiles : list CdnFile)
    (w w' : World) (filesUpdated : nat) (lowestVersion : string) :
  patchFiles fileAssetMap assetUpdate cdnFiles w = (Ok (filesUpdated, lowestVersion), w') ->
  JS.lt lowestVersion "0.0.0" = false
  /\ (lowestVersion = "0.0.0"
      \/ exists item, item ∈ itemsOf fileAssetMap /\ isCandidate assetUpdate item = true
                      /\ lowestVersion = item_version item).
Proof.
  unfold patchFiles. generalize 0%nat at 1. generalize "0.0.0".
  revert w. induction fileAssetMap as [|[file fileAssets] rest IH]; intros w start n0.
  - cbn. intros [= _ <- _]. split; [apply JS_lt_irrefl | now left].
  - cbn [forEach]. unfold bind at 1.
    destruct (patchFile assetUpdate cdnFiles (n0, start) (file, fileAssets) w)
      as [[[n1 lowest1] | error] w1] eqn:Hfile; [| discriminate].
    intros Hrest. apply patchFile_lowestVersion in Hfile as [Hup Hfrom].
    apply IH in Hrest as [Hup' Hfrom']. split.
    + eapply JS_lt_false_trans; eassumption.
    + unfold itemsOf. cbn [List.map snd concat].
      destruct Hfrom' as [-> | (item & Hitem & Hcandidate & ->)].
      * destruct Hfrom as [-> | (item & Hitem & Hcandidate & ->)]; [now left | right].
        exists item. rewrite elem_of_app. tauto_props.
      * right. exists item. rewrite elem_of_app. unfold itemsOf in Hitem. tauto_props.
Qed.

(** *** The order of the git commands *)

Lemma exactly_ret {A} (a : A) : exactly (ret a) [].
Proof. intros w. exists []. cbn. now rewrite app_nil_r. Qed.

Lemma exactly_execGit (args : list string) (ignoreErrors : bool) :
  exactly (execGit args ignoreErrors) [EvGit args].
Proof.
  intros w. exists [EvGit args]. unfold execGit.
  destruct (exec_rejected _); [split; cbn; reflexivity |].
  destruct (_ && _); split; cbn; reflexivity.
Qed.

Lemma exactly_bind {A B} (c : M A) (k : A -> M B) (first second : list Event) :
  exactly c first -> (forall a, exactly (k a) second) -> exactly (bind c k) (first ++ second).
Proof.
  intros Hc Hk w. unfold bind. destruct (Hc w) as (added & Hevents & Hshape).
  destruct (c w) as [[a | error] w1]; cbn [fst snd] in *.
  - subst added. destruct (Hk a w1) as (added' & Hevents' & Hshape').
    exists (first ++ added'). split; [rewrite Hevents', Hevents; now rewrite app_assoc |].
    destruct (fst (k a w1)); [now subst | now apply prefix_app].
  - exists added. split; [exact Hevents |]. now apply prefix_app_r.
Qed.

Lemma exactly_when (b : bool) (c : M unit) (full : list Event) :
  exactly c full -> exactly (when b c) (if b then full else []).
Proof. destruct b; [easy | intros _; apply exactly_ret]. Qed.

Lemma within_exactly {A} (c : M A) (full : list Event) : exactly c full -> within c full.
Proof.
  intros Hc w. destruct (Hc w) as (added & Hevents & Hshape). exists added.
  split; [exact Hevents |]. destruct (fst (c w)); [now subst | exact Hshape].
Qed.

Lemma within_ret {A} (a : A) (full : list Event) : within (ret a) full.
Proof. intros w. exists []. cbn. rewrite app_nil_r. split; [reflexivity | apply prefix_nil]. Qed.

Lemma within_bind {A B} (c : M A) (k : A -> M B) (first second : list Event) :
  exactly c first -> (forall a, within (k a) second) -> within (bind c k) (first ++ second).
Proof.
  intros Hc Hk w. unfold bind. destruct (Hc w) as (added & Hevents & Hshape).
  destruct (c w) as [[a | error] w1]; cbn [fst snd] in *.
  - subst added. destruct (Hk a w1) as (added' & Hevents' & Hshape').
    exists (first ++ added'). split; [rewrite Hevents', Hevents; now rewrite app_assoc |].
    now apply prefix_app.
  - exists added. split; [exact Hevents |]. now apply prefix_app_r.
Qed.

Lemma exactly_discard {A} (c : M A) (full : list Event) :
  exactly c full -> exactly (c >> ret tt) full.
Proof.
  intros Hc. rewrite <- (app_nil_r full). apply exactly_bind; [exact Hc |].
  intros _. apply exactly_ret.
Qed.

(** X15.  However [applyAssetUpdate] ends, the [git] commands it has run
    are a beginning of one fixed sequence: the setup, the look-up of the
    remote branch, [checkout -b], [add], [commit], [log] and, last, the
    push.  So nothing is pushed that was not committed, and nothing is
    committed before the remote branch was looked up. *)
Theorem applyAssetUpdate_commands_in_order
    (base : string) (fileAssetMap : FileAssetMap) (assetUpdate : AssetVersion)
    (cdnFiles : list CdnFile) (w : World) :
  exists message added,
    events (snd (applyAssetUpdate base fileAssetMap assetUpdate cdnFiles w))
    = events w ++ added
    /\ added `prefix_of` commitTrace assetUpdate message ++ pushTrace assetUpdate.
Proof.
  unfold applyAssetUpdate, bind at 1.
  destruct (patchFiles_frame assetUpdate cdnFiles fileAssetMap 0 "0.0.0" w) as (Hevents & _).
  fold (patchFiles fileAssetMap assetUpdate cdnFiles) in Hevents.
  destruct (patchFiles fileAssetMap assetUpdate cdnFiles w)
    as [[[filesUpdated lowestVersion] | error] w1]; cbn [snd] in Hevents.
  2: { exists "", []. cbn [snd]. rewrite Hevents, app_nil_r.
       split; [reflexivity | apply prefix_nil]. }
  destruct (filesUpdated <? 1)%nat.
  { exists "", []. cbn [snd ret]. rewrite Hevents, app_nil_r.
    split; [reflexivity | apply prefix_nil]. }
  unfold bind at 1.
  set (compute := if negb (JS.truthy (commitMessage options)) then _ else _).
  assert (Hcompute : (exists error, compute w1 = (Throw error, w1))
                     \/ exists message, compute w1 = (Ok message, w1)).
  { subst compute. destruct (negb _); [destruct (av_version assetUpdate) |];
      unfold ret, throw; eauto. }
  destruct Hcompute as [(error & ->) | (message & ->)].
  { exists "", []. cbn [snd]. rewrite Hevents, app_nil_r.
    split; [reflexivity | apply prefix_nil]. }
  exists message. rewrite <- Hevents.
  match goal with
  | |- exists added, events (snd (?rest w1)) = _ /\ _ =>
      assert (Hrest : within rest (commitTrace assetUpdate message ++ pushTrace assetUpdate))
  end.
  { unfold commitTrace, pushTrace. rewrite <- !app_assoc.
    apply within_bind; [apply exactly_when, exactly_discard, exactly_execGit | intros _].
    apply within_bind; [apply exactly_when, exactly_discard, exactly_execGit | intros _].
    apply within_bind.
    { apply exactly_when. apply (exactly_bind _ _ [_] [_]); [apply exactly_execGit | intros _].
      apply exactly_discard, exactly_execGit. }
    intros _.
    apply (within_bind _ _ [_]); [apply exactly_execGit | intros branchExists].
    destruct (JS.truthy (Some branchExists)); [apply within_ret |].
    do 4 (apply (within_bind _ _ [_]); [apply exactly_execGit | intros _]).
    apply within_exactly.
    match goal with |- exactly _ ?full => rewrite <- (app_nil_r full) end.
    apply exactly_bind; [apply exactly_when, exactly_discard, exactly_execGit | intros _].
    apply exactly_ret. }
  exact (Hrest w1).
Qed.

(** X16.  With a [git] whose commands are not rejected and, unless
    tolerated, write nothing to the error stream, and a branch that is not
    on the remote yet, an [applyAssetUpdate] that rewrote a file runs the
    whole sequence and returns the branch; the push is part of it exactly
    when [dryRun] is off and a repository is configured. *)
Theorem applyAssetUpdate_commits_and_pushes
    (base : string) (fileAssetMap : FileAssetMap) (assetUpdate : AssetVersion)
    (cdnFiles : list CdnFile) (w w1 : World) (n : nat) (lowestVersion latest : string) :
  (forall args ignoreErrors w',
      EvGit args
        ∈ commitTrace assetUpdate (commitMessageOf assetUpdate lowestVersion latest)
          ++ pushTrace assetUpdate ->
      exec_rejected (exec_git args ignoreErrors w') = None
      /\ (tolerated args = false -> exec_stderr (exec_git args ignoreErrors w') = "")) ->
  (forall w',
      JS.trimEnd
        (exec_stdout
           (exec_git ["rev-parse"; "--verify"; "--quiet";
                      "remotes/origin/" +:+ branchName assetUpdate] true w')) = "") ->
  av_version assetUpdate = Some latest ->
  patchFiles fileAssetMap assetUpdate cdnFiles w = (Ok (S n, lowestVersion), w1) ->
  exists w2,
    applyAssetUpdate base fileAssetMap assetUpdate cdnFiles w
    = (Ok (Some (branchName assetUpdate)), w2)
    /\ events w2
       = events w1
         ++ commitTrace assetUpdate
              (if negb (JS.truthy (commitMessage options))
               then generateCommitMessage (name assetUpdate) lowestVersion latest
               else JS.show (commitMessage options))
         ++ pushTrace assetUpdate.
Proof.
  intros Hgit Hnew Hlatest Hloop.
  assert (Hrun : forall args ignoreErrors w',
            EvGit args
              ∈ commitTrace assetUpdate (commitMessageOf assetUpdate lowestVersion latest)
                ++ pushTrace assetUpdate ->
            exec_rejected (exec_git args ignoreErrors w') = None)
    by (intros; now apply Hgit).
  assert (Hsilent : forall args ignoreErrors w',
            EvGit args
              ∈ commitTrace assetUpdate (commitMessageOf assetUpdate lowestVersion latest)
                ++ pushTrace assetUpdate ->
            tolerated args = false -> exec_stderr (exec_git args ignoreErrors w') = "")
    by (intros; now apply Hgit).
  clear Hgit.
  unfold applyAssetUpdate. rewrite (bind_ok _ _ _ _ _ Hloop).
  cbn [Nat.ltb Nat.leb]. rewrite Hlatest.
  revert Hrun Hsilent. unfold commitTrace, pushTrace, commitMessageOf.
  destruct (dryRun options);
    destruct (negb (JS.truthy (commitMessage options)));
    destruct (JS.truthy (userName options));
    destruct (JS.truthy (userEmail options));
    destruct (JS.truthy (repo options));
    cbn [negb andb];
    intros Hrun Hsilent;
    unfold when, bind, ret;
    git_steps Hrun Hsilent;
    rewrite Hnew; cbn [JS.truthy];
    git_steps Hrun Hsilent;
    (eexists; split; [reflexivity |]);
    cbn [events app]; rewrite <- ?app_assoc; reflexivity.
Qed.

(** X17.  When the update branch is on the remote already, an
    [applyAssetUpdate] that rewrote files returns [null] after the look-up:
    it creates no branch, commits nothing and pushes nothing, and it does
    not restore the files it rewrote.  This is for a [git] whose
    configuration commands and look-up are not rejected, write nothing to
    the error stream unless tolerated, and leave the working tree as it
    is. *)
Theorem applyAssetUpdate_stops_at_existing_branch
    (base : string) (fileAssetMap : FileAssetMap) (assetUpdate : AssetVersion)
    (cdnFiles : list CdnFile) (w w1 : World) (n : nat) (lowestVersion latest : string) :
  (forall args ignoreErrors w',
      EvGit args
        ∈ setupTrace
          ++ [EvGit ["rev-parse"; "--verify"; "--quiet";
                     "remotes/origin/" +:+ branchName assetUpdate]] ->
      exec_rejected (exec_git args ignoreErrors w') = None
      /\ (tolerated args = false -> exec_stderr (exec_git args ignoreErrors w') = "")
      /\ exec_files (exec_git args ignoreErrors w') = files w') ->
  (forall w',
      JS.truthy
        (Some (JS.trimEnd
                 (exec_stdout
                    (exec_git ["rev-parse"; "--verify"; "--quiet";
                               "remotes/origin/" +:+ branchName assetUpdate] true w'))))
      = true) ->
  av_version assetUpdate = Some latest ->
  patchFiles fileAssetMap assetUpdate cdnFiles w = (Ok (S n, lowestVersion), w1) ->
  exists w2,
    applyAssetUpdate base fileAssetMap assetUpdate cdnFiles w = (Ok None, w2)
    /\ files w2 = files w1
    /\ events w2
       = events w1 ++ setupTrace
         ++ [EvGit ["rev-parse"; "--verify"; "--quiet";
                    "remotes/origin/" +:+ branchName assetUpdate]].
Proof.
  intros Hgit Hexists Hlatest Hloop.
  assert (Hrun : forall args ignoreErrors w',
            EvGit args
              ∈ setupTrace
                ++ [EvGit ["rev-parse"; "--verify"; "--quiet";
                           "remotes/origin/" +:+ branchName assetUpdate]] ->
            exec_rejected (exec_git args ignoreErrors w') = None)
    by (intros; now apply Hgit).
  assert (Hsilent : forall args ignoreErrors w',
            EvGit args
              ∈ setupTrace
                ++ [EvGit ["rev-parse"; "--verify"; "--quiet";
                           "remotes/origin/" +:+ branchName assetUpdate]] ->
            tolerated args = false -> exec_stderr (exec_git args ignoreErrors w') = "")
    by (intros; now apply Hgit).
  assert (Htree : forall args ignoreErrors w',
            EvGit args
              ∈ setupTrace
                ++ [EvGit ["rev-parse"; "--verify"; "--quiet";
                           "remotes/origin/" +:+ branchName assetUpdate]] ->
            exec_files (exec_git args ignoreErrors w') = files w')
    by (intros; now apply Hgit).
  clear Hgit.
  unfold applyAssetUpdate. rewrite (bind_ok _ _ _ _ _ Hloop).
  cbn [Nat.ltb Nat.leb]. rewrite Hlatest.
  revert Hrun Hsilent Htree. unfold setupTrace.
  destruct (negb (JS.truthy (commitMessage options)));
    destruct (JS.truthy (userName options));
    destruct (JS.truthy (userEmail options));
    destruct (JS.truthy (repo options));
    intros Hrun Hsilent Htree;
    unfold when, bind, ret;
    git_steps Hrun Hsilent;
    rewrite Hexists;
    (eexists; split; [reflexivity |]);
    cbn [events files app]; rewrite <- ?app_assoc;
    (split; [| reflexivity]);
    repeat (rewrite Htree by in_trace; cbn [files]); reflexivity.
Qed.

(** X18.  For an asset without a resolved version ([version] is
    [undefined]) every occurrence of the asset is a candidate, whatever its
    version; and with no commit-message override, an [applyAssetUpdate] that
    rewrote files ends with a thrown error before any [git] command: the
    files stay rewritten and no branch is made. *)
Theorem applyAssetUpdate_undefined_version_throws
    (base : string) (fileAssetMap : FileAssetMap) (assetUpdate : AssetVersion)
    (cdnFiles : list CdnFile) (w w1 : World) (n : nat) (lowestVersion : string) :
  av_version assetUpdate = None ->
  JS.truthy (commitMessage options) = false ->
  patchFiles fileAssetMap assetUpdate cdnFiles w = (Ok (S n, lowestVersion), w1) ->
  (forall a, a ∈ itemsOf fileAssetMap ->
             isCandidate assetUpdate a = true <-> cdn a = cdn assetUpdate /\ name a = name assetUpdate)
  /\ exists error,
       applyAssetUpdate base fileAssetMap assetUpdate cdnFiles w = (Throw error, w1)
       /\ events w1 = events w.
Proof.
  intros Hversion Hmessage Hloop. split.
  - intros a _. rewrite isCandidate_true, Hversion. split; [tauto_props |].
    intros [Hcdn Hname]. repeat split; try assumption. discriminate.
  - unfold applyAssetUpdate. rewrite (bind_ok _ _ _ _ _ Hloop).
    cbn [Nat.ltb Nat.leb]. rewrite Hversion, Hmessage. cbn [negb].
    eexists. split; [reflexivity |].
    pose proof (patchFiles_frame assetUpdate cdnFiles fileAssetMap 0 "0.0.0" w) as (Hevents & _).
    fold (patchFiles fileAssetMap assetUpdate cdnFiles) in Hevents.
    now rewrite Hloop in Hevents.
Qed.

(** *** The change publisher *)

Lemma split_length_pos (sep : ascii) (s : string) : (0 <? List.length (JS.split sep s))%nat = true.
Proof. destruct (split_cons sep s) as (piece & pieces & ->). reflexivity. Qed.

(** X19.  Outside a dry run, [createPullRequest] makes one create call.  If
    the call fails, the error is passed on and no label is applied.  If it
    succeeds, the result is the number and the URL of the answer, whether
    the labels could be applied or not; the label call is made exactly
    when labels are configured, with the comma-separated list split up. *)
Theorem createPullRequest_create_then_label
    (base head : string) (asset : AssetVersion) (w : World) :
  dryRun options = false ->
  getOctokit (accessToken options) (apiUrl options) = Ok tt ->
  exists request,
    req_title request = "Update " +:+ name asset +:+ " to " +:+ JS.show (av_version asset)
    /\ req_head request = head /\ req_base request = base
    /\ req_maintainer_can_modify request = true /\ req_draft request = false
    /\ (forall error,
          pulls_create request w = Throw error ->
          createPullRequest base head asset w = (Throw error, emit (EvPullsCreate request) w))
    /\ (forall response,
          pulls_create request w = Ok response ->
          exists w',
            createPullRequest base head asset w
            = (Ok {| pr_number := resp_number response; pr_url := resp_html_url response |}, w')
            /\ files w' = files w
            /\ events w'
               = events w ++ EvPullsCreate request
                 :: (if JS.truthy (labels options)
                     then [EvAddLabels (req_owner request) (req_repo request)
                             (resp_number response)
                             (JS.split "," (JS.show (labels options)))]
                     else [])).
Proof.
  intros Hdry Hoctokit. unfold createPullRequest.
  match goal with |- context [emit (EvPullsCreate ?r)] => exists r end.
  do 5 (split; [reflexivity |]). split.
  - intros error Hcreate. unfold bind, lift.
    rewrite Hoctokit, Hdry, Hcreate. reflexivity.
  - intros response Hcreate. unfold bind at 1, lift.
    rewrite Hoctokit, Hdry. unfold bind at 1. rewrite Hcreate.
    destruct (JS.truthy (labels options)); unfold when, bind, ret.
    + rewrite split_length_pos. unfold catch.
      destruct (issues_addLabels _ _ _ _ _); eexists; (split; [reflexivity |]);
        cbn [emit events files pr_number]; (split; [reflexivity |]);
        now rewrite <- app_assoc.
    + eexists. split; [reflexivity |]. now split.
Qed.

(** X20.  The owner and the repository of the request are the two sides of
    the slash of the [repo] option; without the option both are the empty
    text, and an option without a slash leaves the repository undefined. *)
Theorem createPullRequest_owner_and_repo
    (base head : string) (asset : AssetVersion) (w : World) :
  dryRun options = false ->
  getOctokit (accessToken options) (apiUrl options) = Ok tt ->
  exists request later,
    events (snd (createPullRequest base head asset w))
    = events w ++ EvPullsCreate request :: later
    /\ (forall owner repository,
          hasChar "/" owner = false -> hasChar "/" repository = false ->
          repo options = Some (owner +:+ "/" +:+ repository) ->
          req_owner request = Some owner /\ req_repo request = Some repository)
    /\ (repo options = None -> req_owner request = Some "" /\ req_repo request = Some "")
    /\ (forall text,
          hasChar "/" text = false -> repo options = Some text ->
          req_owner request = Some text /\ req_repo request = None).
Proof.
  intros Hdry Hoctokit.
  unfold createPullRequest, bind at 1, lift. rewrite Hoctokit, Hdry.
  match goal with |- context [emit (EvPullsCreate ?r)] => exists r; set (request := r) end.
  assert (Hfields :
            (forall owner repository,
                hasChar "/" owner = false -> hasChar "/" repository = false ->
                repo options = Some (owner +:+ "/" +:+ repository) ->
                req_owner request = Some owner /\ req_repo request = Some repository)
            /\ (repo options = None -> req_owner request = Some "" /\ req_repo request = Some "")
            /\ (forall text,
                  hasChar "/" text = false -> repo options = Some text ->
                  req_owner request = Some text /\ req_repo request = None)).
  { subst request. cbn [req_owner req_repo]. split; [| split].
    - intros owner repository Howner Hrepository ->. cbn [from_option id].
      change (owner +:+ "/" +:+ repository) with (owner +:+ String "/" repository).
      rewrite split_app_sep, split_no_sep by assumption. now split.
    - intros ->. now split.
    - intros text Htext ->. cbn [from_option id]. rewrite split_no_sep by assumption.
      now split. }
  clearbody request. unfold bind at 1.
  destruct (pulls_create request w) as [response | error];
    [| exists []; split; [reflexivity | exact Hfields]].
  destruct (JS.truthy (labels options)); unfold when, bind, ret.
  - rewrite split_length_pos. unfold catch.
    destruct (issues_addLabels _ _ _ _ _); eexists;
      (split; [cbn [snd emit events]; now rewrite <- app_assoc | exact Hfields]).
  - exists []. split; [reflexivity | exact Hfields].
Qed.

(** *** The update loop *)

Lemma bind_Ok_inv {A B} (c : M A) (k : A -> M B) (w w' : World) (b : B) :
  bind c k w = (Ok b, w') -> exists a w1, c w = (Ok a, w1) /\ k a w1 = (Ok b, w').
Proof.
  unfold bind. destruct (c w) as [[a | error] w1]; [eauto | discriminate].
Qed.

Lemma publishUpdate_result (baseBranch : string) (fileAssetMap : FileAssetMap)
    (updatedAsset : AssetVersion) (latestFiles : list CdnFile)
    (result result' : list AssetUpdate) (w w' : World) :
  publishUpdate baseBranch fileAssetMap updatedAsset latestFiles result w = (Ok result', w') ->
  result' = result
  \/ exists pullRequest,
       result' = result ++ [ {| update_cdn := cdn updatedAsset;
                                update_name := name updatedAsset;
                                update_pullRequestNumber := pr_number pullRequest;
                                update_pullRequestUrl := pr_url pullRequest;
                                update_version := av_version updatedAsset |} ].
Proof.
  unfold publishUpdate. intros Hrun.
  apply bind_Ok_inv in Hrun as (headBranch & w1 & _ & Hrun).
  destruct (JS.truthy headBranch).
  - apply bind_Ok_inv in Hrun as (pullRequest & w2 & _ & Hrun).
    injection Hrun as <- _. right. now exists pullRequest.
  - injection Hrun as <- _. now left.
Qed.

Lemma updateAsset_result (fileAssetMap : FileAssetMap)
    (assetLatestVersions : gmap string string) (baseBranch baseBranch' : string)
    (result result' : list AssetUpdate) (asset : Asset) (w w' : World) :
  updateAsset fileAssetMap assetLatestVersions (baseBranch, result) asset w
  = (Ok (baseBranch', result'), w') ->
  (baseBranch <> "" -> baseBranch' = baseBranch)
  /\ (result' = result
      \/ exists pullRequest,
           result' = result ++ [ {| update_cdn := cdn asset;
                                    update_name := name asset;
                                    update_pullRequestNumber := pr_number pullRequest;
                                    update_pullRequestUrl := pr_url pullRequest;
                                    update_version := assetLatestVersions !! getKey asset |} ]).
Proof.
  unfold updateAsset.
  assert (Hclient : exists client, getClient (cdn asset) = Some client)
    by (unfold getClient; destruct (cdn asset); eauto).
  destruct Hclient as (client & ->). intros Hrun.
  apply bind_Ok_inv in Hrun as (latestFiles & w1 & _ & Hrun).
  destruct (0 <? List.length latestFiles)%nat.
  - apply bind_Ok_inv in Hrun as (base1 & w2 & Hbase & Hrun).
    apply bind_Ok_inv in Hrun as (result1 & w3 & Hpublish & Hrun).
    injection Hrun as <- <- _. split.
    + intros Hne. destruct baseBranch as [|c baseBranch]; [contradiction |].
      cbn [JS.truthy] in Hbase. apply bind_Ok_inv in Hbase as (? & ? & _ & Hret).
      now injection Hret as <- _.
    + apply publishUpdate_result in Hpublish. exact Hpublish.
  - injection Hrun as <- <- _. split; [reflexivity | now left].
Qed.

(** X21.  The update loop only ever adds to the updates it has recorded,
    at most one for each stale asset and in the order of the stale assets,
    each with the version recorded for its asset; and once a base branch is
    known it stays the base of every later update. *)
Theorem update_loop_appends_in_order
    (fileAssetMap : FileAssetMap) (assetLatestVersions : gmap string string)
    (assetsToUpdate : list Asset) (baseBranch baseBranch' : string)
    (result result' : list AssetUpdate) (w w' : World) :
  forEach (updateAsset fileAssetMap assetLatestVersions) (baseBranch, result) assetsToUpdate w
  = (Ok (baseBranch', result'), w') ->
  (baseBranch <> "" -> baseBranch' = baseBranch)
  /\ exists added,
       result' = result ++ added
       /\ List.map (fun u => {| asset_cdn := update_cdn u; asset_name := update_name u |}) added
          `sublist_of` assetsToUpdate
       /\ Forall (fun u =>
                    update_version u
                    = assetLatestVersions
                        !! getKey {| asset_cdn := update_cdn u; asset_name := update_name u |})
                 added.
Proof.
  revert baseBranch result w.
  induction assetsToUpdate as [|asset assets IH]; intros baseBranch result w; cbn [forEach].
  - intros [= <- <- _]. split; [reflexivity |]. exists []. rewrite app_nil_r.
    repeat split; constructor.
  - intros Hrun. apply bind_Ok_inv in Hrun as ([base1 result1] & w1 & Hstep & Hrest).
    apply updateAsset_result in Hstep as [Hbase Hresult].
    apply IH in Hrest as (Hbase' & added & -> & Hsub & Hversions). split.
    + intros Hne. rewrite Hbase' by (rewrite Hbase; assumption). now apply Hbase.
    + destruct Hresult as [-> | (pullRequest & ->)].
      * exists added. repeat split; [now apply sublist_cons_r; left | exact Hversions].
      * eexists (_ :: added). rewrite <- app_assoc. split; [reflexivity |]. split.
        -- cbn [List.map update_cdn update_name]. rewrite Asset_eta. now apply sublist_skip.
        -- constructor; [| exact Hversions]. cbn [update_version update_cdn update_name].
           now rewrite Asset_eta.
Qed.

(** *** A dry run *)

Lemma adds_forEach {A S} (P : Event -> Prop) (body : S -> A -> M S) (xs : list A) :
  (forall s x, adds P (body s x)) -> forall s, adds P (forEach body s xs).
Proof.
  intros Hbody. induction xs as [|x xs IH]; intros s; cbn [forEach].
  - apply adds_ret.
  - apply adds_bind; [apply Hbody | exact IH].
Qed.

Lemma adds_pure {A} (P : Event -> Prop) (c : M A) :
  (forall w, snd (c w) = w) -> adds P c.
Proof.
  intros Hpure w. exists []. rewrite Hpure, app_nil_r. split; [reflexivity | constructor].
Qed.

Lemma adds_emit {A} (P : Event -> Prop) (answer : World -> Result A) (e : Event) :
  P e -> adds P (fun w => (answer w, emit e w)).
Proof. intros HP w. exists [e]. split; [reflexivity | now repeat constructor]. Qed.

Lemma adds_applyAssetUpdate_dry_run
    (base : string) (fileAssetMap : FileAssetMap) (assetUpdate : AssetVersion)
    (cdnFiles : list CdnFile) :
  dryRun options = true ->
  adds (fun e => isPublish e = false) (applyAssetUpdate base fileAssetMap assetUpdate cdnFiles).
Proof.
  intros Hdry. unfold applyAssetUpdate. rewrite Hdry. cbn [negb andb].
  apply adds_bind; [apply adds_patchFiles |]. intros [filesUpdated lowestVersion].
  destruct (filesUpdated <? 1)%nat; [apply adds_ret |].
  apply adds_bind.
  { destruct (negb _); [destruct (av_version assetUpdate) |]; trace_steps. }
  intros message.
  do 3 (apply adds_bind; [trace_steps | intros _]).
  apply adds_bind; [trace_steps | intros branchExists].
  destruct (JS.truthy (Some branchExists)); trace_steps.
Qed.

Lemma adds_createPullRequest_dry_run (base head : string) (asset : AssetVersion) :
  dryRun options = true ->
  adds (fun e => isPublish e = false) (createPullRequest base head asset).
Proof.
  intros Hdry. apply adds_pure. intros w. unfold createPullRequest, bind, lift.
  rewrite Hdry. now destruct (getOctokit _ _).
Qed.

(** X22.  With [dryRun] set, a whole run publishes nothing, however it
    ends: no [git push], no call to create a pull request, no call to apply
    labels. *)
Theorem dry_run_never_publishes :
  dryRun options = true -> adds (fun e => isPublish e = false) tryUpdateAssets.
Proof.
  intros Hdry. unfold tryUpdateAssets.
  apply adds_bind; [now apply adds_pure | intros paths].
  apply adds_bind.
  { unfold scanFiles. apply adds_forEach. intros fileAssetMap fileName.
    apply adds_pure. intros w. unfold bind.
    destruct (findAssets_total fileName w) as (assets & ->).
    now destruct (0 <? List.length assets)%nat. }
  intros fileAssetMap.
  apply adds_bind.
  { unfold findLatestVersions. apply adds_forEach. intros assetLatestVersions asset.
    unfold getClient. destruct (cdn asset);
      (apply adds_bind; [now apply adds_emit |]); intros [version |];
      try destruct (JS.truthy _); apply adds_ret. }
  intros assetLatestVersions.
  destruct (0 <? List.length _)%nat; [| apply adds_ret].
  apply adds_bind; [| intros [baseBranch result]; apply adds_ret].
  apply adds_forEach. intros [baseBranch result] asset. unfold updateAsset, getClient.
  assert (Hbody : forall client,
            adds (fun e => isPublish e = false)
              (let* latestFiles :=
                 callGetFiles (cdn asset) client (name asset)
                   (assetLatestVersions !! getKey asset) in
               if (0 <? List.length latestFiles)%nat then
                 let updatedAsset :=
                   {| av_cdn := cdn asset; av_name := name asset;
                      av_version := assetLatestVersions !! getKey asset |} in
                 let* baseBranch :=
                   if JS.truthy (Some baseBranch)
                   then execGit ["checkout"; baseBranch] true >> ret baseBranch
                   else getCurrentBranch in
                 let* result :=
                   publishUpdate baseBranch fileAssetMap updatedAsset latestFiles result in
                 ret (baseBranch, result)
               else ret (baseBranch, result))).
  { intros client. apply adds_bind; [now apply adds_emit | intros latestFiles].
    destruct (0 <? List.length latestFiles)%nat; [| apply adds_ret]. cbn zeta.
    apply adds_bind.
    { destruct (JS.truthy (Some baseBranch)); unfold getCurrentBranch; trace_steps. }
    intros base. apply adds_bind; [| intros; apply adds_ret].
    unfold publishUpdate.
    apply adds_bind; [now apply adds_applyAssetUpdate_dry_run | intros headBranch].
    destruct (JS.truthy headBranch); [| apply adds_ret].
    apply adds_bind; [now apply adds_createPullRequest_dry_run | intros; apply adds_ret]. }
  destruct (cdn asset); apply Hbody.
Qed.

(** *** Numeric versions *)

Lemma digit_not_space (c : ascii) (d : Z) :
  JS.digit c = Some d ->
  JS.isWhiteSpace c = false /\ c <> "-"%char /\ c <> "+"%char /\ c <> "."%char
  /\ (0 <= d <= 9)%Z.
Proof.
  unfold JS.digit, JS.isWhiteSpace.
  destruct (_ && _)%nat eqn:Hrange; [| discriminate]. intros [= <-].
  apply andb_true_iff in Hrange as [Hlow Hhigh].
  apply Nat.leb_le in Hlow, Hhigh.
  repeat split; try lia.
  - repeat (apply orb_false_iff; split);
      [apply andb_false_iff; right; apply Nat.leb_gt; lia
      | apply Nat.eqb_neq; lia | apply Nat.eqb_neq; lia].
  - intros ->. vm_compute in Hlow. lia.
  - intros ->. vm_compute in Hlow. lia.
  - intros ->. vm_compute in Hlow. lia.
Qed.

Lemma allDigits_no_dot (s : string) : allDigits s = true -> hasChar "." s = false.
Proof.
  induction s as [|c s IH]; cbn; [reflexivity |].
  destruct (JS.digit c) as [d |] eqn:Hdigit; [| discriminate].
  intros Hrest. apply digit_not_space in Hdigit as (_ & _ & _ & Hdot & _).
  rewrite (IH Hrest), orb_false_r. now apply Ascii.eqb_neq.
Qed.

Lemma digits_allDigits (s : string) (acc : Z) :
  allDigits s = true -> JS.digits (Some acc) s = Some (valueFrom acc s).
Proof.
  revert acc. induction s as [|c s IH]; intros acc; cbn; [reflexivity |].
  destruct (JS.digit c) as [d |]; [| discriminate]. intros Hrest. now rewrite IH.
Qed.

Lemma valueFrom_nonneg (s : string) (acc : Z) :
  allDigits s = true -> (0 <= acc)%Z -> (0 <= valueFrom acc s)%Z.
Proof.
  revert acc. induction s as [|c s IH]; intros acc; cbn; [easy |].
  destruct (JS.digit c) as [d |] eqn:Hdigit; [| discriminate].
  intros Hrest Hacc. apply IH; [exact Hrest |].
  apply digit_not_space in Hdigit as (_ & _ & _ & _ & Hd). cbn. lia.
Qed.

(** A numeral below 2^53 parses to the number it writes. *)
Lemma parseInt_numeral (s : string) :
  isNumeral s = true -> (numeralValue s < 2 ^ 53)%Z ->
  JS.parseInt (Some s) = JS.Int (numeralValue s).
Proof.
  destruct s as [|c s]; [discriminate |]. cbn [isNumeral]. intros Hdigits Hbound.
  pose proof (valueFrom_nonneg _ 0 Hdigits (Z.le_refl 0)) as Hnonneg.
  fold (numeralValue (String c s)) in Hnonneg.
  cbn [allDigits] in Hdigits.
  destruct (JS.digit c) as [d |] eqn:Hdigit; [| discriminate].
  destruct (digit_not_space c d Hdigit) as (Hspace & Hminus & Hplus & _ & _).
  unfold JS.parseInt. cbn [JS.show JS.trimStart]. rewrite Hspace.
  assert (Hbody : (let '(negative, body) :=
                     match String c s with
                     | String "-" rest => (true, rest)
                     | String "+" rest => (false, rest)
                     | _ => (false, String c s)
                     end in
                   match JS.digits None body with
                   | Some n => JS.toNumber negative n
                   | None => JS.NaN
                   end)
                  = match JS.digits None (String c s) with
                    | Some n => JS.toNumber false n
                    | None => JS.NaN
                    end).
  { destruct c as [[] [] [] [] [] [] [] []]; try reflexivity; contradiction. }
  rewrite Hbody. cbn [JS.digits]. rewrite Hdigit.
  rewrite digits_allDigits by exact Hdigits.
  unfold JS.toNumber, JS.roundToDouble.
  set (v := valueFrom _ s) in *.
  assert (Hv : v = numeralValue (String c s)).
  { unfold numeralValue. cbn [valueFrom]. now rewrite Hdigit. }
  rewrite Hv in *.
  assert (Hlog : (Z.log2 (numeralValue (String c s)) <? 53)%Z = true).
  { apply Z.ltb_lt. destruct (Z.eq_dec (numeralValue (String c s)) 0%Z) as [-> | Hpos];
      [reflexivity |]. apply Z.log2_lt_pow2; lia. }
  rewrite Hlog.
  assert (Hsmall : (Z.shiftl 1 1024 <=? numeralValue (String c s))%Z = false).
  { apply Z.leb_gt. rewrite Z.shiftl_1_l.
    eapply Z.lt_trans; [exact Hbound |]. apply Z.pow_lt_mono_r; lia. }
  now rewrite Hsmall.
Qed.

Lemma isNumeral_allDigits (s : string) : isNumeral s = true -> allDigits s = true.
Proof. now destruct s. Qed.

(** X23.  For versions whose first two components are decimal numerals
    (below 2^53), the update is major exactly when the new major number is
    the greater one, minor when it is not and the new minor number is the
    greater one, and patch otherwise: the components are compared as
    numbers, so 9 is below 10, and what follows the second dot plays no
    part. *)
Theorem generateCommitMessage_compares_numbers
    (assetName oldMajor oldMinor oldRest newMajor newMinor newRest : string) :
  isNumeral oldMajor = true -> isNumeral oldMinor = true ->
  isNumeral newMajor = true -> isNumeral newMinor = true ->
  (numeralValue oldMajor < 2 ^ 53)%Z -> (numeralValue oldMinor < 2 ^ 53)%Z ->
  (numeralValue newMajor < 2 ^ 53)%Z -> (numeralValue newMinor < 2 ^ 53)%Z ->
  let current := oldMajor +:+ "." +:+ oldMinor +:+ "." +:+ oldRest in
  let latest := newMajor +:+ "." +:+ newMinor +:+ "." +:+ newRest in
  generateCommitMessage assetName current latest
  = JS.join (String "010" "")
      (messageLines assetName latest
         (if (numeralValue oldMajor <? numeralValue newMajor)%Z then major
          else if (numeralValue oldMinor <? numeralValue newMinor)%Z then minor
          else patch)).
Proof.
  intros HoM Hom HnM Hnm BoM Bom BnM Bnm current latest.
  unfold generateCommitMessage. do 2 f_equal. unfold updateKind. subst current latest.
  change (oldMajor +:+ "." +:+ oldMinor +:+ "." +:+ oldRest)
    with (oldMajor +:+ String "." (oldMinor +:+ String "." oldRest)).
  change (newMajor +:+ "." +:+ newMinor +:+ "." +:+ newRest)
    with (newMajor +:+ String "." (newMinor +:+ String "." newRest)).
  rewrite !split_app_sep by now apply allDigits_no_dot, isNumeral_allDigits.
  cbn [lookup list_lookup].
  rewrite !parseInt_numeral by assumption.
  reflexivity.
Qed.

(** *** Running git *)

Lemma trimEnd_idempotent (s : string) : JS.trimEnd (JS.trimEnd s) = JS.trimEnd s.
Proof.
  induction s as [|c s IH]; [reflexivity |]. cbn [JS.trimEnd].
  destruct (JS.trimEnd s) as [|d kept] eqn:Hkept.
  - destruct (JS.isWhiteSpace c) eqn:Hspace; [reflexivity |].
    cbn [JS.trimEnd]. now rewrite Hspace.
  - cbn [JS.trimEnd] in *. now rewrite IH.
Qed.

(** X24.  Every [execGit] is one [git] invocation.  It throws when the
    invocation is rejected, and when something was written to the error
    stream unless errors are to be ignored; otherwise it returns the output
    without its trailing white space. *)
Theorem execGit_contract (args : list string) (ignoreErrors : bool) (w : World) :
  let outcome := exec_git args ignoreErrors w in
  events (snd (execGit args ignoreErrors w)) = events w ++ [EvGit args]
  /\ files (snd (execGit args ignoreErrors w)) = exec_files outcome
  /\ ((exists error, fst (execGit args ignoreErrors w) = Throw error)
      <-> exec_rejected outcome <> None
          \/ (exec_stderr outcome <> "" /\ ignoreErrors = false))
  /\ (forall output,
        fst (execGit args ignoreErrors w) = Ok output ->
        output = JS.trimEnd (exec_stdout outcome) /\ JS.trimEnd output = output)
  /\ (exec_rejected outcome = None -> exec_stderr outcome <> "" -> ignoreErrors = false ->
      fst (execGit args ignoreErrors w) = Throw (exec_stderr outcome)).
Proof.
  intros outcome. unfold execGit. fold outcome.
  destruct (exec_rejected outcome) as [error |] eqn:Hrejected.
  - cbn [fst snd events files].
    split; [reflexivity |]. split; [reflexivity |]. split; [| split].
    + split; [intros _; now left | eauto].
    + intros output Hok. discriminate.
    + discriminate.
  - destruct (exec_stderr outcome) as [|c stderr] eqn:Hstderr; cbn [JS.truthy andb].
    + cbn [fst snd events files].
      split; [reflexivity |]. split; [reflexivity |]. split; [| split].
      * split; [intros (error & Hthrow); discriminate |].
        intros [Hne | [Hne _]]; contradiction.
      * intros output [= <-]. split; [reflexivity | apply trimEnd_idempotent].
      * intros _ Hne. contradiction.
    + destruct ignoreErrors; cbn [negb fst snd events files];
        (split; [reflexivity |]); (split; [reflexivity |]); (split; [| split]).
      * split; [intros (error & Hthrow); discriminate |].
        intros [Hne | [_ Hfalse]]; [contradiction | discriminate].
      * intros output [= <-]. split; [reflexivity | apply trimEnd_idempotent].
      * discriminate.
      * split; [intros _; right; now split | eauto].
      * intros output Hok. discriminate.
      * reflexivity.
Qed.
End Updater.

(** C4, counterexample.  From 2.0.0 to 1.5.0 the first differing component
    is the major one, yet the message says minor. *)
Lemma generateCommitMessage_first_differing_counterexample :
  firstDifferingKind "2.0.0" "1.5.0" = major
  /\ generateCommitMessage "lib" "2.0.0" "1.5.0"
     = JS.join (String "010" "") (messageLines "lib" "1.5.0" minor)
  /\ generateCommitMessage "lib" "2.0.0" "1.5.0"
     <> JS.join (String "010" "")
          (messageLines "lib" "1.5.0" (firstDifferingKind "2.0.0" "1.5.0")).
Proof. repeat split; try reflexivity. vm_compute. discriminate. Qed.

(** The upgrade from 1.2.3 to 1.3.0: the majors agree and the new minor is
    greater. *)
Lemma generateCommitMessage_first_differing_upgrade_witness :
  generateCommitMessage "lib" "1.2.3" "1.3.0"
  = JS.join (String "010" "") (messageLines "lib" "1.3.0" (firstDifferingKind "1.2.3" "1.3.0")).
Proof.
  apply (proj1 generateCommitMessage_first_differing_upgrade "lib" "1.2.3" "1.3.0").
  - vm_compute. discriminate.
  - intros _ _. vm_compute. reflexivity.
Defined.

(** C10, counterexample.  From 3.1.4 to 2.9.0 is a downgrade, yet the
    message says minor, not patch. *)
Lemma generateCommitMessage_downgrade_counterexample :
  isDowngrade "3.1.4" "2.9.0" = true
  /\ generateCommitMessage "lib" "3.1.4" "2.9.0"
     = JS.join (String "010" "") (messageLines "lib" "2.9.0" minor)
  /\ generateCommitMessage "lib" "3.1.4" "2.9.0"
     <> JS.join (String "010" "") (messageLines "lib" "2.9.0" patch).
Proof. repeat split; try reflexivity. vm_compute. discriminate. Qed.

(** The downgrade from 2.0.0 to 1.0.0, and a pair without numbers. *)
Lemma generateCommitMessage_patch_otherwise_witness :
  generateCommitMessage "lib" "2.0.0" "1.0.0"
  = JS.join (String "010" "") (messageLines "lib" "1.0.0" patch)
  /\ generateCommitMessage "lib" "one.two" "three.four"
     = JS.join (String "010" "") (messageLines "lib" "three.four" patch).
Proof.
  split.
  - apply (proj1 (proj2 (generateCommitMessage_patch_otherwise "lib" "2.0.0" "1.0.0"))).
    reflexivity.
  - apply (proj2 (proj2 (generateCommitMessage_patch_otherwise "lib" "one.two" "three.four")));
      left; reflexivity.
Defined.

(** ** The class on the small repository *)

Abbreviation run latest dry :=
  (tryUpdateAssets (Fixture.options dry) Fixture.providerText Fixture.providerTruthy
     Fixture.URL_pathname Fixture.toLowerCase Fixture.JSDOM Fixture.glob_sync
     (Fixture.client latest) (Fixture.client latest) Fixture.exec_git Fixture.getOctokit
     Fixture.pulls_create Fixture.issues_addLabels Fixture.world).

Abbreviation apply_update dry listing :=
  (applyAssetUpdate (Fixture.options dry) Fixture.toLowerCase Fixture.exec_git "main"
     Fixture.fileAssetMap Fixture.foo_2_1 listing Fixture.world).

(** The scan of the page finds the two occurrences. *)
Example scanFiles_fixture :
  fst (scanFiles Fixture.providerTruthy Fixture.URL_pathname Fixture.JSDOM
         [Fixture.index_html] Fixture.world)
  = Ok Fixture.fileAssetMap.
Proof. vm_compute. reflexivity. Qed.

(** C2, on the code.  The page loads [foo] and the version lookup answers
    [null]: no latest version is recorded, yet [foo] is in the stale set,
    and the run goes on to ask the CDN for the files of version
    [undefined]. *)
Theorem unresolved_asset_enters_update_set :
  fst (findLatestVersions Fixture.providerText (Fixture.client None) (Fixture.client None)
         (uniqueAssets Fixture.fileAssetMap) Fixture.world)
  = Ok ∅
  /\ findAssetsToUpdate Fixture.providerText (uniqueAssets Fixture.fileAssetMap) ∅
       (findVersions Fixture.providerText Fixture.fileAssetMap)
     = [Fixture.foo]
  /\ fst (run None false) = Ok {| updates := [] |}
  /\ events (snd (run None false))
     = [EvGetLatestVersion cdnjs "foo"; EvGetFiles cdnjs "foo" None].
Proof. repeat split; vm_compute; reflexivity. Qed.

(** No [try] surrounds the lookup: when it is rejected the run ends with
    the error. *)
Example rejected_lookup_ends_the_run :
  fst (tryUpdateAssets (Fixture.options false) Fixture.providerText Fixture.providerTruthy
         Fixture.URL_pathname Fixture.toLowerCase Fixture.JSDOM Fixture.glob_sync
         Fixture.unreachable Fixture.unreachable Fixture.exec_git Fixture.getOctokit
         Fixture.pulls_create Fixture.issues_addLabels Fixture.world)
  = Throw "Error: 503".
Proof. vm_compute. reflexivity. Qed.

(** C3, on the code.  Both occurrences, 1.9.0 and 2.0.0, are replaced; the
    lowest of the two by string comparison is 1.9.0, but the version
    handed to [generateCommitMessage] is 2.0.0, and the commit says minor
    where the lowest version gives major. *)
Theorem lowestVersion_is_highest_replaced :
  fst (patchFiles Fixture.fileAssetMap Fixture.foo_2_1 Fixture.listing Fixture.world)
  = Ok (1%nat, "2.0.0")
  /\ JS.lt "1.9.0" "2.0.0" = true
  /\ In (EvGit ["commit"; "-m"; generateCommitMessage "foo" "2.0.0" "2.1.0"])
        (events (snd (apply_update false Fixture.listing)))
  /\ generateCommitMessage "foo" "2.0.0" "2.1.0"
     = JS.join (String "010" "") (messageLines "foo" "2.1.0" minor)
  /\ generateCommitMessage "foo" "1.9.0" "2.1.0"
     = JS.join (String "010" "") (messageLines "foo" "2.1.0" major).
Proof.
  repeat split; try (vm_compute; reflexivity).
  vm_compute. do 5 right. left. reflexivity.
Qed.

(** A dry run rewrites the page and commits, records pull request 0 with
    an empty url, and neither pushes nor calls the pull-request service. *)
Example dry_run_end_to_end :
  fst (run (Some "2.1.0") true)
  = Ok {| updates := [ {| update_cdn := cdnjs; update_name := "foo";
                          update_pullRequestNumber := 0; update_pullRequestUrl := "";
                          update_version := Some "2.1.0" |} ] |}
  /\ events (snd (run (Some "2.1.0") true))
     = [ EvGetLatestVersion cdnjs "foo";
         EvGetFiles cdnjs "foo" (Some "2.1.0");
         EvGit ["rev-parse"; "--abbrev-ref"; "HEAD"];
         EvGit ["remote"; "set-url"; "origin"; "https://github.com/owner/repo.git"];
         EvGit ["fetch"; "origin"];
         EvGit ["rev-parse"; "--verify"; "--quiet";
                "remotes/origin/update-static-assets/foo/2.1.0"];
         EvGit ["checkout"; "-b"; "update-static-assets/foo/2.1.0"];
         EvGit ["add"; "."];
         EvGit ["commit"; "-m"; generateCommitMessage "foo" "2.0.0" "2.1.0"];
         EvGit ["log"; "--format='%H'"; "-n"; "1"] ]
  /\ files (snd (run (Some "2.1.0") true)) !! Fixture.index_html
     = Some ("<script src=" +:+ Fixture.url_2_1 +:+ " integrity=sha256-NEW></script>"
             +:+ "<script src=" +:+ Fixture.url_2_1 +:+ "></script>").
Proof. repeat split; vm_compute; reflexivity. Qed.

(** Without [dryRun] the same run pushes and opens the pull request. *)
Example publishing_end_to_end :
  fst (run (Some "2.1.0") false)
  = Ok {| updates := [ {| update_cdn := cdnjs; update_name := "foo";
                          update_pullRequestNumber := 7;
                          update_pullRequestUrl := "https://github.com/owner/repo/pull/7";
                          update_version := Some "2.1.0" |} ] |}
  /\ existsb isPush (events (snd (run (Some "2.1.0") false))) = true.
Proof. repeat split; vm_compute; reflexivity. Qed.

(** *** Instances of the theorems *)

(** With 2.1.0 resolved for [foo], the occurrence at 1.9.0 makes it stale. *)
Lemma stale_iff_outdated_version_observed_witness :
  Fixture.foo ∈ findAssetsToUpdate Fixture.providerText (uniqueAssets Fixture.fileAssetMap)
                  {[ "cdnjs-foo" := "2.1.0" ]}
                  (findVersions Fixture.providerText Fixture.fileAssetMap).
Proof.
  assert (Hdistinct : Fixture.providerText cdnjs <> Fixture.providerText jsdelivr)
    by (vm_compute; discriminate).
  assert (Hdash : forall provider, hasDash (Fixture.providerText provider) = false)
    by (intros []; reflexivity).
  apply (proj1 (stale_iff_outdated_version_observed Fixture.providerText
                  Fixture.fileAssetMap {[ "cdnjs-foo" := "2.1.0" ]} Hdistinct Hdash)
           Fixture.foo "2.1.0").
  - reflexivity.
  - exists Fixture.index_html, [Fixture.item_1_9; Fixture.item_2_0], Fixture.item_1_9.
    repeat split; try (vm_compute; discriminate); left.
Defined.

(** A cdnjs URL of three segments, and a jsdelivr URL whose package
    segment has no version. *)
Lemma extractor_discards_short_paths_witness :
  extractAsset Fixture.URL_pathname cdnjs "https://cdnjs.cloudflare.com/ajax/libs/foo" None
  = Ok None
  /\ extractAsset Fixture.URL_pathname jsdelivr
       "https://cdn.jsdelivr.net/npm/foo/dist/foo.min.js" None
     = Ok None.
Proof.
  split.
  - apply (proj1 (extractor_discards_short_paths Fixture.providerTruthy Fixture.URL_pathname
                    "https://cdnjs.cloudflare.com/ajax/libs/foo" "/ajax/libs/foo" None
                    eq_refl)).
    + reflexivity.
    + vm_compute. lia.
  - apply (proj2 (extractor_discards_short_paths Fixture.providerTruthy Fixture.URL_pathname
                    "https://cdn.jsdelivr.net/npm/foo/dist/foo.min.js"
                    "/npm/foo/dist/foo.min.js" None eq_refl)).
    + reflexivity.
    + intros second Hsecond. vm_compute in Hsecond. injection Hsecond as <-.
      vm_compute. discriminate.
Defined.

(** C6, counterexample.  The page loads version 2.1.0 and then version
    2.0.0, both with the same integrity value.  The update to 2.1.0 leaves
    the first occurrence out of its candidates and still rewrites it: the
    integrity value of the second occurrence is replaced where it is met
    first, in the element of the first. *)
Lemma occurrence_at_latest_version_rewritten_counterexample :
  let fileAssetMap := [ (Fixture.index_html, [Fixture.item_2_1_same; Fixture.item_2_0_same]) ] in
  let element := "<script src=" +:+ Fixture.url_2_1 +:+ " integrity=sha256-SAME></script>" in
  let after :=
    snd (applyAssetUpdate (Fixture.options false) Fixture.toLowerCase Fixture.exec_git "main"
           fileAssetMap Fixture.foo_2_1 Fixture.listing Fixture.world_same) in
  Some (item_version Fixture.item_2_1_same) = av_version Fixture.foo_2_1
  /\ isCandidate Fixture.foo_2_1 Fixture.item_2_1_same = false
  /\ files Fixture.world_same !! Fixture.index_html
     = Some (element
             +:+ "<script src=" +:+ Fixture.url_2_0 +:+ " integrity=sha256-SAME></script>")
  /\ files after !! Fixture.index_html
     = Some ("<script src=" +:+ Fixture.url_2_1 +:+ " integrity=sha256-NEW></script>"
             +:+ "<script src=" +:+ Fixture.url_2_1 +:+ " integrity=sha256-SAME></script>")
  /\ (forall text, files after !! Fixture.index_html = Some text ->
                   JS.startsWith element text = false).
Proof.
  repeat split; try (vm_compute; reflexivity).
  intros text Htext. vm_compute in Htext. injection Htext as <-. vm_compute. reflexivity.
Qed.

(** An occurrence already at 2.1.0 is no candidate of the update to 2.1.0,
    and a page that loads nothing else is not written. *)
Lemma occurrence_at_latest_version_never_candidate_witness :
  (Fixture.item_2_1 ∉ List.filter (isCandidate Fixture.foo_2_1)
                        [Fixture.item_1_9; Fixture.item_2_1; Fixture.item_2_0])
  /\ patchFile Fixture.foo_2_1 Fixture.listing (0%nat, "0.0.0")
       (Fixture.index_html, [Fixture.item_2_1]) Fixture.world
     = (Ok (0%nat, "0.0.0"), Fixture.world).
Proof.
  destruct (occurrence_at_latest_version_never_candidate Fixture.foo_2_1 Fixture.listing)
    as (_ & Hnever & _ & Hfile).
  split.
  - apply Hnever. reflexivity.
  - apply (Hfile _ _ Fixture.page); [reflexivity |].
    intros a Ha _ _. apply list_elem_of_singleton in Ha. now subst a.
Defined.

(** The file was renamed upstream: nothing is replaced, nothing happens. *)
Lemma no_file_modified_no_branch_no_pull_request_witness :
  apply_update false Fixture.renamed = (Ok None, Fixture.world).
Proof.
  apply (no_file_modified_no_branch_no_pull_request (Fixture.options false)
           Fixture.toLowerCase Fixture.exec_git Fixture.getOctokit
           Fixture.pulls_create Fixture.issues_addLabels "main"
           Fixture.fileAssetMap Fixture.foo_2_1 Fixture.renamed
           Fixture.world Fixture.world "0.0.0").
  vm_compute. reflexivity.
Defined.

(** The page on disk no longer holds the URLs found when scanning. *)
Lemma file_without_stale_url_left_unmodified_witness :
  let w := {| files := {[ Fixture.index_html := "<p>no scripts here</p>" ]}; events := [] |} in
  patchFiles Fixture.fileAssetMap Fixture.foo_2_1 Fixture.listing w
  = patchFiles [] Fixture.foo_2_1 Fixture.listing w
  /\ files (snd (patchFiles Fixture.fileAssetMap Fixture.foo_2_1 Fixture.listing w))
       !! Fixture.index_html = Some "<p>no scripts here</p>".
Proof.
  intros w.
  apply (file_without_stale_url_left_unmodified Fixture.foo_2_1 Fixture.listing [] []
           Fixture.index_html "<p>no scripts here</p>"
           [Fixture.item_1_9; Fixture.item_2_0] w).
  - intros Hin. inversion Hin.
  - reflexivity.
  - intros a Ha _. rewrite !elem_of_cons in Ha.
    destruct Ha as [-> | [-> | Ha]]; [reflexivity | reflexivity | inversion Ha].
Defined.



(** *** Instances of the further properties *)

(** The first script of the page. *)
Lemma extractAsset_cdnjs_decomposes_witness :
  extractAsset Fixture.URL_pathname cdnjs Fixture.url_1_9 (Some "sha256-OLD")
  = Ok (Some Fixture.item_1_9).
Proof.
  apply (proj1 (extractAsset_cdnjs_decomposes Fixture.URL_pathname Fixture.url_1_9
                  "ajax" "libs" "foo" "1.9.0" "foo.min.js" (Some "sha256-OLD")
                  eq_refl eq_refl eq_refl eq_refl)).
  reflexivity.
Defined.

(** Bootstrap from jsdelivr. *)
Lemma extractAsset_jsdelivr_decomposes_witness :
  extractAsset Fixture.URL_pathname jsdelivr
    "https://cdn.jsdelivr.net/npm/bootstrap@5.2.3/dist/js/bootstrap.min.js" None
  = Ok (Some {| item_cdn := jsdelivr; item_name := "bootstrap"; item_version := "5.2.3";
                item_url := "https://cdn.jsdelivr.net/npm/bootstrap@5.2.3/dist/js/bootstrap.min.js";
                item_integrity := None; item_fileName := "/dist/js/bootstrap.min.js" |}).
Proof.
  apply (proj1 (extractAsset_jsdelivr_decomposes Fixture.URL_pathname
                  "https://cdn.jsdelivr.net/npm/bootstrap@5.2.3/dist/js/bootstrap.min.js"
                  "npm" "bootstrap" "5.2.3" "dist/js/bootstrap.min.js" None
                  eq_refl eq_refl eq_refl eq_refl eq_refl)).
  reflexivity.
Defined.

(** The scoped package [@popperjs/core]. *)
Lemma extractAsset_jsdelivr_scoped_package_witness :
  extractAsset Fixture.URL_pathname jsdelivr
    "https://cdn.jsdelivr.net/npm/@popperjs/core@2.11.6/dist/umd/popper.min.js" None
  = Ok (Some {| item_cdn := jsdelivr; item_name := ""; item_version := "popperjs";
                item_url := "https://cdn.jsdelivr.net/npm/@popperjs/core@2.11.6/dist/umd/popper.min.js";
                item_integrity := None;
                item_fileName := "/core@2.11.6/dist/umd/popper.min.js" |}).
Proof.
  apply (extractAsset_jsdelivr_scoped_package Fixture.URL_pathname
           "https://cdn.jsdelivr.net/npm/@popperjs/core@2.11.6/dist/umd/popper.min.js"
           "npm" "popperjs" "core@2.11.6/dist/umd/popper.min.js" None
           eq_refl eq_refl eq_refl).
  reflexivity.
Defined.

(** The first script of the page again, as an element. *)
Lemma element_asset_provenance_witness :
  item_url Fixture.item_1_9 = Fixture.url_1_9
  /\ item_integrity Fixture.item_1_9 <> Some ""
  /\ hasChar "/" (item_version Fixture.item_1_9) = false.
Proof.
  destruct (element_asset_provenance Fixture.providerTruthy Fixture.URL_pathname
              {| el_link := Fixture.url_1_9; el_integrity := Some "sha256-OLD" |}
              Fixture.item_1_9 (or_introl eq_refl))
    as (Hurl & _ & Hintegrity & _ & _ & Hversion).
  repeat split; assumption.
Defined.

(** The second script has a port out of range: the first script is kept,
    the third script and the stylesheet are lost. *)
Lemma findAssets_keeps_assets_before_failure_witness :
  findAssets Fixture.providerTruthy Fixture.URL_pathname_strict Fixture.JSDOM_bad_script
    Fixture.index_html Fixture.world
  = (Ok [Fixture.item_1_9], Fixture.world).
Proof.
  apply (findAssets_keeps_assets_before_failure Fixture.providerTruthy
           Fixture.URL_pathname_strict Fixture.JSDOM_bad_script
           Fixture.index_html Fixture.page "TypeError: Invalid URL"
           [ {| el_link := Fixture.url_1_9; el_integrity := Some "sha256-OLD" |} ]
           [ {| el_link := Fixture.url_2_0; el_integrity := None |} ]
           [ {| el_link := Fixture.url_2_1; el_integrity := None |} ]
           {| el_link := Fixture.url_bad; el_integrity := None |}
           [Fixture.item_1_9] Fixture.world); reflexivity.
Defined.

(** The lookup for [foo] on the small repository. *)
Lemma findLatestVersions_records_answers_witness :
  files (snd (findLatestVersions Fixture.providerText (Fixture.client (Some "2.1.0"))
                (Fixture.client (Some "2.1.0")) [Fixture.foo] Fixture.world))
  = files Fixture.world.
Proof.
  destruct (findLatestVersions Fixture.providerText (Fixture.client (Some "2.1.0"))
              (Fixture.client (Some "2.1.0")) [Fixture.foo] Fixture.world)
    as [[lv | error] w'] eqn:Hrun; [| vm_compute in Hrun; discriminate].
  exact (proj1 (findLatestVersions_records_answers Fixture.providerText
                  (Fixture.client (Some "2.1.0")) (Fixture.client (Some "2.1.0"))
                  [Fixture.foo] Fixture.world w' lv Hrun)).
Defined.

(** The repository that is up to date. *)
Lemma run_without_stale_assets_witness :
  fst (tryUpdateAssets (Fixture.options false) Fixture.providerText Fixture.providerTruthy
         Fixture.URL_pathname Fixture.toLowerCase Fixture.JSDOM_current Fixture.glob_sync
         (Fixture.client (Some "2.1.0")) (Fixture.client (Some "2.1.0")) Fixture.exec_git
         Fixture.getOctokit Fixture.pulls_create Fixture.issues_addLabels Fixture.world)
  = Ok {| updates := [] |}.
Proof.
  edestruct (run_without_stale_assets (Fixture.options false) Fixture.providerText
               Fixture.providerTruthy Fixture.URL_pathname Fixture.toLowerCase
               Fixture.JSDOM_current Fixture.glob_sync (Fixture.client (Some "2.1.0"))
               (Fixture.client (Some "2.1.0")) Fixture.exec_git Fixture.getOctokit
               Fixture.pulls_create Fixture.issues_addLabels
               [Fixture.index_html] [(Fixture.index_html, [Fixture.item_2_1])]
               {[ "cdnjs-foo" := "2.1.0" ]} Fixture.world) as (Hrun & _).
  - reflexivity.
  - vm_compute. reflexivity.
  - vm_compute. reflexivity.
  - intros item Hitem.
    change (itemsOf [(Fixture.index_html, [Fixture.item_2_1])]) with [Fixture.item_2_1] in Hitem.
    apply list_elem_of_singleton in Hitem. subst item. reflexivity.
  - rewrite Hrun. reflexivity.
Defined.

(** The first occurrence on the page, with its integrity value. *)
Lemma patchOccurrence_replaces_first_occurrence_witness :
  let p := patchOccurrence Fixture.listing
             {| patch_content := Fixture.page; patch_dirty := false;
                patch_lowestVersion := "0.0.0" |} Fixture.item_1_9 in
  patch_dirty p = true
  /\ patch_content p
     = "<script src=" +:+ Fixture.url_2_1 +:+ " integrity=sha256-NEW></script>"
       +:+ "<script src=" +:+ Fixture.url_2_0 +:+ "></script>".
Proof.
  intros p.
  destruct (patchOccurrence_replaces_first_occurrence Fixture.listing
              {| patch_content := Fixture.page; patch_dirty := false;
                 patch_lowestVersion := "0.0.0" |}
              Fixture.item_1_9
              {| file_url := Fixture.url_2_1; file_fileName := "foo.min.js";
                 file_integrity := Some "sha256-NEW" |}
              "<script src="
              (" integrity=sha256-OLD></script>"
               +:+ "<script src=" +:+ Fixture.url_2_0 +:+ "></script>"))
    as (_ & Hdirty & _ & Hintegrity); try (vm_compute; reflexivity).
  split; [exact Hdirty |].
  specialize (Hintegrity "sha256-OLD" eq_refl ltac:(discriminate)).
  vm_compute in Hintegrity. vm_compute. exact Hintegrity.
Defined.

(** The file loop on the page: the version handed on is 2.0.0. *)
Lemma patchFiles_lowestVersion_floor_witness : JS.lt "2.0.0" "0.0.0" = false.
Proof.
  apply (patchFiles_lowestVersion_floor Fixture.fileAssetMap Fixture.foo_2_1
           Fixture.listing Fixture.world
           (snd (patchFiles Fixture.fileAssetMap Fixture.foo_2_1 Fixture.listing
                   Fixture.world))
           1 "2.0.0").
  vm_compute. reflexivity.
Defined.

(** The update of the small repository, published, with a [git] that
    reports on the error stream when it fetches, switches to the new branch
    and pushes. *)
Lemma applyAssetUpdate_commits_and_pushes_witness :
  let apply :=
    applyAssetUpdate (Fixture.options false) Fixture.toLowerCase (Fixture.exec_git_chatty false)
      "main" Fixture.fileAssetMap Fixture.foo_2_1 Fixture.listing Fixture.world in
  fst apply = Ok (Some "update-static-assets/foo/2.1.0")
  /\ existsb isPush (events (snd apply)) = true.
Proof.
  intros apply.
  edestruct (applyAssetUpdate_commits_and_pushes (Fixture.options false) Fixture.toLowerCase
               (Fixture.exec_git_chatty false) "main" Fixture.fileAssetMap Fixture.foo_2_1
               Fixture.listing Fixture.world
               (snd (patchFiles Fixture.fileAssetMap Fixture.foo_2_1 Fixture.listing
                       Fixture.world))
               0 "2.0.0" "2.1.0") as (w2 & Hrun & Hevents).
  - intros args ignoreErrors w' Hin. split; [reflexivity |].
    intros Htolerated. unfold commitTrace, pushTrace in Hin.
    cbn [Fixture.options userName userEmail repo dryRun JS.truthy negb andb app] in Hin.
    rewrite !elem_of_cons in Hin.
    destruct Hin
      as [[= ->] | [[= ->] | [[= ->] | [[= ->] | [[= ->] | [[= ->] | [[= ->] | [[= ->] | Hin]]]]]]]];
      try reflexivity; try discriminate Htolerated.
    inversion Hin.
  - intros w'. reflexivity.
  - reflexivity.
  - vm_compute. reflexivity.
  - subst apply. rewrite Hrun. cbn [fst snd]. split; [reflexivity |]. rewrite Hevents.
    vm_compute. reflexivity.
Defined.

(** The update when its branch is on the remote already. *)
Lemma applyAssetUpdate_stops_at_existing_branch_witness :
  fst (applyAssetUpdate (Fixture.options false) Fixture.toLowerCase
         (Fixture.exec_git_chatty true) "main" Fixture.fileAssetMap Fixture.foo_2_1
         Fixture.listing Fixture.world)
  = Ok None.
Proof.
  edestruct (applyAssetUpdate_stops_at_existing_branch (Fixture.options false)
               Fixture.toLowerCase (Fixture.exec_git_chatty true) "main"
               Fixture.fileAssetMap Fixture.foo_2_1 Fixture.listing Fixture.world)
    as (w2 & Hrun & _).
  - intros args ignoreErrors w' Hin. split; [reflexivity | split; [| reflexivity]].
    intros Htolerated. unfold setupTrace in Hin.
    cbn [Fixture.options userName userEmail repo JS.truthy app] in Hin.
    rewrite !elem_of_cons in Hin.
    destruct Hin as [[= ->] | [[= ->] | [[= ->] | Hin]]];
      try reflexivity; try discriminate Htolerated.
    inversion Hin.
  - intros w'. reflexivity.
  - reflexivity.
  - vm_compute. reflexivity.
  - rewrite Hrun. reflexivity.
Defined.

(** The update of [foo] to a version that was not resolved. *)
Lemma applyAssetUpdate_undefined_version_throws_witness :
  exists error,
    fst (applyAssetUpdate (Fixture.options false) Fixture.toLowerCase Fixture.exec_git "main"
           Fixture.fileAssetMap Fixture.foo_undefined Fixture.listing Fixture.world)
    = Throw error.
Proof.
  edestruct (applyAssetUpdate_undefined_version_throws (Fixture.options false)
               Fixture.toLowerCase Fixture.exec_git "main" Fixture.fileAssetMap
               Fixture.foo_undefined Fixture.listing Fixture.world)
    as (_ & error & Hrun & _).
  - reflexivity.
  - reflexivity.
  - vm_compute. reflexivity.
  - exists error. rewrite Hrun. reflexivity.
Defined.

(** A service that creates the pull request but cannot label it. *)
Lemma createPullRequest_create_then_label_witness :
  fst (createPullRequest Fixture.options_with_labels Fixture.getOctokit Fixture.pulls_create
         Fixture.issues_addLabels_down "main" "update-static-assets/foo/2.1.0"
         Fixture.foo_2_1 Fixture.world)
  = Ok {| pr_number := 7; pr_url := "https://github.com/owner/repo/pull/7" |}.
Proof.
  destruct (createPullRequest_create_then_label Fixture.options_with_labels
              Fixture.getOctokit Fixture.pulls_create Fixture.issues_addLabels_down
              "main" "update-static-assets/foo/2.1.0" Fixture.foo_2_1 Fixture.world
              eq_refl eq_refl)
    as (request & _ & _ & _ & _ & _ & _ & Hcreated).
  destruct (Hcreated _ eq_refl) as (w' & Hrun & _).
  rewrite Hrun. reflexivity.
Defined.

(** The repository [owner/repo]. *)
Lemma createPullRequest_owner_and_repo_witness :
  exists request later,
    events (snd (createPullRequest (Fixture.options false) Fixture.getOctokit
                   Fixture.pulls_create Fixture.issues_addLabels "main"
                   "update-static-assets/foo/2.1.0" Fixture.foo_2_1 Fixture.world))
    = EvPullsCreate request :: later
    /\ req_owner request = Some "owner" /\ req_repo request = Some "repo".
Proof.
  destruct (createPullRequest_owner_and_repo (Fixture.options false) Fixture.getOctokit
              Fixture.pulls_create Fixture.issues_addLabels "main"
              "update-static-assets/foo/2.1.0" Fixture.foo_2_1 Fixture.world
              eq_refl eq_refl)
    as (request & later & Hevents & Hsplit & _).
  exists request, later. split; [exact Hevents |].
  apply (Hsplit "owner" "repo"); reflexivity.
Defined.

(** The update loop on the small repository, started on [main]. *)
Lemma update_loop_appends_in_order_witness :
  match fst (forEach
               (updateAsset (Fixture.options false) Fixture.providerText Fixture.toLowerCase
                  (Fixture.client (Some "2.1.0")) (Fixture.client (Some "2.1.0"))
                  Fixture.exec_git Fixture.getOctokit Fixture.pulls_create
                  Fixture.issues_addLabels Fixture.fileAssetMap {[ "cdnjs-foo" := "2.1.0" ]})
               ("main", []) [Fixture.foo] Fixture.world) with
  | Ok (baseBranch, result) => baseBranch = "main"
  | Throw _ => False
  end.
Proof.
  destruct (forEach _ ("main", []) [Fixture.foo] Fixture.world)
    as [[[baseBranch result] | error] w'] eqn:Hrun; cbn [fst].
  - apply update_loop_appends_in_order in Hrun as [Hbase _]. now apply Hbase.
  - vm_compute in Hrun. discriminate.
Defined.

(** The small repository with [dryRun] set. *)
Lemma dry_run_never_publishes_witness :
  existsb isPublish (events (snd (run (Some "2.1.0") true))) = false.
Proof.
  destruct (dry_run_never_publishes (Fixture.options true) Fixture.providerText
              Fixture.providerTruthy Fixture.URL_pathname Fixture.toLowerCase Fixture.JSDOM
              Fixture.glob_sync (Fixture.client (Some "2.1.0")) (Fixture.client (Some "2.1.0"))
              Fixture.exec_git Fixture.getOctokit Fixture.pulls_create
              Fixture.issues_addLabels eq_refl Fixture.world)
    as (added & Hevents & Hnone).
  rewrite Hevents. cbn [Fixture.world events app].
  clear Hevents. induction Hnone as [|e added He _ IH]; [reflexivity |].
  cbn [existsb]. now rewrite He.
Defined.

(** From 9.5.1 to 10.0.0: a major update, although ["10"] is below ["9"] as
    a string. *)
Lemma generateCommitMessage_compares_numbers_witness :
  generateCommitMessage "lib" "9.5.1" "10.0.0"
  = JS.join (String "010" "") (messageLines "lib" "10.0.0" major)
  /\ JS.lt "10" "9" = true.
Proof.
  split; [| reflexivity].
  apply (generateCommitMessage_compares_numbers "lib" "9" "5" "1" "10" "0" "0");
    reflexivity.
Defined.
